(** * Emulator lifecycle and command execution engine (adb-cmd utils/modules)

    A shallow embedding of [command_runner.py] and [emulator_manager.py]:
    Python strings are [string]s, Python [int]s are [Z], the mutable
    fields of the two classes are threaded through a state-and-exception
    monad, and everything the code asks of the outside world (child
    processes, the clock, the file system) is answered by an oracle that is
    a Section variable.  Every effect that leaves the program is recorded
    in a trace. *)

From Stdlib Require Import ZArith Lia Bool Ascii String.
From stdpp Require Import base option list strings pretty gmap.

Open Scope Z_scope.
Open Scope string_scope.

(** ** Python string primitives *)

Module PyStr.

(** [str.startswith]. *)
Fixpoint startswith (p s : string) : bool :=
  match p, s with
  | EmptyString, _ => true
  | String a p', String b s' => if decide (a = b) then startswith p' s' else false
  | String _ _, EmptyString => false
  end.

(** [sub in s]: [sub] starts at some position of [s]. *)
Fixpoint contains (sub s : string) : bool :=
  startswith sub s ||
  match s with
  | EmptyString => false
  | String _ s' => contains sub s'
  end.

(** [s[n:]] for a non-negative literal [n]. *)
Fixpoint slice_from (n : nat) (s : string) : string :=
  match n, s with
  | O, _ => s
  | S _, EmptyString => EmptyString
  | S n', String _ s' => slice_from n' s'
  end.

(** [s[:n]] for a non-negative literal [n]. *)
Fixpoint slice_to (n : nat) (s : string) : string :=
  match n, s with
  | O, _ => EmptyString
  | S _, EmptyString => EmptyString
  | S n', String a s' => String a (slice_to n' s')
  end.

(** [str.isspace] on one character, for the characters below 256:
    U+0009..U+000D, U+001C..U+001F, space, U+0085 and U+00A0. *)
Definition isspace (a : ascii) : bool :=
  let n := N_of_ascii a in
  ((9 <=? n) && (n <=? 13) || (28 <=? n) && (n <=? 32)
   || (n =? 133) || (n =? 160))%N.

Fixpoint lstrip (s : string) : string :=
  match s with
  | EmptyString => EmptyString
  | String a s' => if isspace a then lstrip s' else s
  end.

(** [rstrip] keeps a character when it is not a space or when something
    is left of the text after it. *)
Fixpoint rstrip (s : string) : string :=
  match s with
  | EmptyString => EmptyString
  | String a s' =>
      match rstrip s' with
      | EmptyString => if isspace a then EmptyString else String a EmptyString
      | r => String a r
      end
  end.

(** [str.strip()] with no argument. *)
Definition strip (s : string) : string := rstrip (lstrip s).

(** [s.split(sep)] for a one-character separator: the text before the
    first separator, then the split of the rest; always at least one
    part. *)
Fixpoint split (sep : ascii) (s : string) : list string :=
  match s with
  | EmptyString => [EmptyString]
  | String a s' =>
      if decide (a = sep) then EmptyString :: split sep s'
      else match split sep s' with
           | p :: ps => String a p :: ps
           | [] => [String a EmptyString]
           end
  end.

(** [s.lower()] on the ASCII letters. *)
Definition lower_char (a : ascii) : ascii :=
  let n := N_of_ascii a in
  if ((65 <=? n) && (n <=? 90))%N then ascii_of_N (n + 32) else a.

Fixpoint lower (s : string) : string :=
  match s with
  | EmptyString => EmptyString
  | String a s' => String (lower_char a) (lower s')
  end.

(** [str(n)] and [f"{n}"] for an [int]. *)
Definition str_of_int (n : Z) : string := pretty n.

(** [sep.join(parts)]. *)
Fixpoint join (sep : string) (parts : list string) : string :=
  match parts with
  | [] => EmptyString
  | [p] => p
  | p :: ps => p +:+ sep +:+ join sep ps
  end.

End PyStr.

(** ** State and exceptions *)

Module Eff.

(** The exceptions the modelled code can meet. *)
Inductive Exc : Type :=
| UnboundLocalError (var : string)
| TimeoutExpired
| ValueError
| AsyncTimeoutError
| OSError (msg : string)
| LoopFuel.

Inductive Res (A : Type) : Type :=
| Ok (a : A)
| Raise (e : Exc).
Arguments Ok {A} a.
Arguments Raise {A} e.

Definition M (S A : Type) : Type := S -> Res A * S.

Definition ret {S A} (a : A) : M S A := fun s => (Ok a, s).

Definition bind {S A B} (c : M S A) (k : A -> M S B) : M S B :=
  fun s => match c s with
           | (Ok a, s') => k a s'
           | (Raise e, s') => (Raise e, s')
           end.

Definition raise {S A} (e : Exc) : M S A := fun s => (Raise e, s).

(** [try: c  except Exception as e: h e]; the state changes made before
    the exception stay. *)
Definition try_except {S A} (c : M S A) (h : Exc -> M S A) : M S A :=
  fun s => match c s with
           | (Ok a, s') => (Ok a, s')
           | (Raise e, s') => h e s'
           end.

Definition get {S} : M S S := fun s => (Ok s, s).
Definition gets {S A} (f : S -> A) : M S A := fun s => (Ok (f s), s).
Definition modify {S} (f : S -> S) : M S unit := fun s => (Ok tt, f s).

(** [str(e)] for the exceptions above. *)
Definition str_of_exc (e : Exc) : string :=
  match e with
  | UnboundLocalError v =>
      "cannot access local variable '" +:+ v +:+
      "' where it is not associated with a value"
  | TimeoutExpired => "timed out"
  | ValueError => "too many values to unpack (expected 2)"
  | AsyncTimeoutError => ""
  | OSError msg => msg
  | LoopFuel => "loop fuel"
  end.

End Eff.

Import Eff.

Declare Scope eff_scope.
Delimit Scope eff_scope with eff.
Notation "'do' x <- c ; k" := (bind c (fun x => k))
  (at level 10, x name, c at level 100, k at level 200) : eff_scope.
Notation "'do' ' p <- c ; k" := (bind c (fun x => match x with p => k end))
  (at level 10, p pattern, c at level 100, k at level 200) : eff_scope.
Notation "c >> k" := (bind c (fun _ => k))
  (at level 61, left associativity) : eff_scope.
Open Scope eff_scope.

(** ** command_runner.py *)

Module CommandRunner.

(** [CommandResult] (lines 18-30).  Clock readings are whole ticks. *)
Record CommandResult : Type := {
  command : string;
  success : bool;
  stdout : string;
  stderr : string;
  return_code : Z;
  execution_time : Z;
  timestamp : Z;
  device_serial : string;
  api_level : option Z;
  screenshot_path : option string
}.

Definition set_screenshot_path (p : option string) (r : CommandResult) : CommandResult :=
  {| command := command r; success := success r; stdout := stdout r;
     stderr := stderr r; return_code := return_code r;
     execution_time := execution_time r; timestamp := timestamp r;
     device_serial := device_serial r; api_level := api_level r;
     screenshot_path := p |}.

(** What a child process does once it is spawned and given [timeout]
    seconds: it ends in time with a return code and its two decoded
    output streams, it is still running when the time is over, or it
    could not be spawned at all. *)
Inductive Outcome : Type :=
| Exited (rc : Z) (out err : string)
| StillRunning
| SpawnFailed (e : Exc).

(** The outside world of a runner: the outcome of the [i]-th spawned
    process, the [i]-th clock reading, and the text of a clock reading
    under [strftime("%Y%m%d_%H%M%S")]. *)
Record World : Type := {
  proc : nat -> string -> Z -> Outcome;
  clock : nat -> Z;
  strftime : Z -> string
}.

(** Effects that leave the program. *)
Inductive Event : Type :=
| Spawn (cmd : string) (timeout : Z)
| Kill (pid : nat)
| Communicate (pid : nat)
| Sleep (secs : Z).

(** The fields of [CommandRunner] (lines 36-40), the number of processes
    spawned and of clock readings taken so far, and the trace. *)
Record Runner : Type := {
  timeout : Z;
  retry_attempts : Z;
  command_history : list CommandResult;
  spawned : nat;
  clock_reads : nat;
  trace : list Event
}.

(** [CommandRunner(timeout, retry_attempts)], defaults 30 and 2. *)
Definition init (timeout retry_attempts : Z) : Runner :=
  {| timeout := timeout; retry_attempts := retry_attempts;
     command_history := []; spawned := 0; clock_reads := 0; trace := [] |}.

Definition emit (e : Event) : M Runner unit :=
  modify (fun s =>
    {| timeout := timeout s; retry_attempts := retry_attempts s;
       command_history := command_history s; spawned := spawned s;
       clock_reads := clock_reads s; trace := trace s ++ [e] |}).

Definition history_append (r : CommandResult) : M Runner unit :=
  modify (fun s =>
    {| timeout := timeout s; retry_attempts := retry_attempts s;
       command_history := command_history s ++ [r]; spawned := spawned s;
       clock_reads := clock_reads s; trace := trace s |}).

Definition next_pid : M Runner nat :=
  fun s =>
    (Ok (spawned s),
     {| timeout := timeout s; retry_attempts := retry_attempts s;
        command_history := command_history s; spawned := S (spawned s);
        clock_reads := clock_reads s; trace := trace s |}).

(** [_format_command] (lines 75-86). *)
Definition _format_command (command serial : string) : string :=
  let command :=
    if PyStr.startswith "adb " command then PyStr.slice_from 4 command
    else command in
  if PyStr.contains "-s" command then "adb " +:+ command
  else "adb -s " +:+ serial +:+ " " +:+ command.

Section WithWorld.

Variable W : World.

(** [time.time()] and [datetime.now()]. *)
Definition now : M Runner Z :=
  fun s =>
    (Ok (clock W (clock_reads s)),
     {| timeout := timeout s; retry_attempts := retry_attempts s;
        command_history := command_history s; spawned := spawned s;
        clock_reads := S (clock_reads s); trace := trace s |}).

(** [asyncio.create_subprocess_shell]: the handle is the number of the
    process. *)
Definition create_subprocess_shell (command : string) (tmo : Z) : M Runner nat :=
  do pid <- next_pid;
  emit (Spawn command tmo) >>
  match proc W pid command tmo with
  | SpawnFailed e => raise e
  | _ => ret pid
  end.

(** [asyncio.wait_for(process.communicate(), timeout)]: the two output
    streams, and the return code the handle then holds. *)
Definition wait_for_communicate (pid : nat) (command : string) (tmo : Z)
  : M Runner (string * string * Z) :=
  match proc W pid command tmo with
  | Exited rc out err => ret (out, err, rc)
  | StillRunning => raise AsyncTimeoutError
  | SpawnFailed e => raise e
  end.

(** [_run_command] (lines 88-158).  [command] is always a [str] here,
    so only the shell branch of line 97 is taken. *)
Definition _run_command (command serial : string) (tmo : Z) : M Runner CommandResult :=
  do start_time <- now;
  try_except
    (do process <- create_subprocess_shell command tmo;
     do '(out, err, rc) <-
       try_except (wait_for_communicate process command tmo)
         (fun e => match e with
                   | AsyncTimeoutError =>
                       emit (Kill process) >> emit (Communicate process) >>
                       raise TimeoutExpired
                   | _ => raise e
                   end);
     do t <- now;
     do stamp <- now;
     ret {| command := command; success := (rc =? 0)%Z; stdout := out;
            stderr := err; return_code := rc;
            execution_time := t - start_time; timestamp := stamp;
            device_serial := serial; api_level := None;
            screenshot_path := None |})
    (fun e =>
       do t <- now;
       do stamp <- now;
       ret {| command := command; success := false; stdout := "";
              stderr := match e with
                        | TimeoutExpired =>
                            "Command timeout after " +:+ PyStr.str_of_int tmo
                            +:+ " seconds"
                        | _ => str_of_exc e
                        end;
              return_code := -1;
              execution_time := t - start_time; timestamp := stamp;
              device_serial := serial; api_level := None;
              screenshot_path := None |}).

(** The [for attempt in range(self.retry_attempts)] loop of lines
    56-63; [todo] counts the values of [attempt] still to come, [last]
    is the binding of [result]. *)
Fixpoint retry_loop (command serial : string) (tmo : Z) (retries : Z)
    (todo : nat) (attempt : Z) (last : option CommandResult)
  : M Runner (option CommandResult) :=
  match todo with
  | O => ret last
  | S todo' =>
      do result <- _run_command command serial tmo;
      if success result || (attempt =? retries - 1)%Z then ret (Some result)
      else emit (Sleep 2) >>
           retry_loop command serial tmo retries todo' (attempt + 1) (Some result)
  end.

(** [execute_command] (lines 42-73); [shot] is the call of line 67 when
    [capture_screenshot] is true. *)
Definition execute_command_with (shot : option (M Runner (option string)))
    (command serial : string) (tmo : option Z) : M Runner CommandResult :=
  do self_timeout <- gets timeout;
  let tmo := match tmo with
             | Some t => if (t =? 0)%Z then self_timeout else t
             | None => self_timeout
             end in
  let command := _format_command command serial in
  do retries <- gets retry_attempts;
  do result <- retry_loop command serial tmo retries (Z.to_nat retries) 0 None;
  do result <-
    match shot with
    | Some capture =>
        do path <- capture;
        match result with
        | Some r => ret (Some (set_screenshot_path path r))
        | None => raise (UnboundLocalError "result")
        end
    | None => ret result
    end;
  match result with
  | Some r => history_append r >> ret r
  | None => raise (UnboundLocalError "result")
  end.

(** [capture_screenshot] (lines 244-276); its calls of
    [execute_command] leave [capture_screenshot] at its default. *)
Definition capture_screenshot (serial : string) : M Runner (option string) :=
  do t <- now;
  let timestamp := strftime W t in
  let screenshot_path := "/tmp/screenshot_" +:+ serial +:+ "_" +:+ timestamp +:+ ".png" in
  try_except
    (let device_path := "/sdcard/screenshot_" +:+ timestamp +:+ ".png" in
     do result <- execute_command_with None
                    ("shell screencap -p " +:+ device_path) serial None;
     if success result then
       do result <- execute_command_with None
                      ("pull " +:+ device_path +:+ " " +:+ screenshot_path)
                      serial None;
       if success result then
         execute_command_with None ("shell rm " +:+ device_path) serial None >>
         ret (Some screenshot_path)
       else ret None
     else ret None)
    (fun _ => ret None).

Definition execute_command (command serial : string) (tmo : option Z)
    (capture : bool) : M Runner CommandResult :=
  execute_command_with
    (if capture then Some (capture_screenshot serial) else None)
    command serial tmo.

End WithWorld.

End CommandRunner.

(** ** emulator_manager.py *)

Module EmulatorManager.

(** The values of [EmulatorInfo.status] listed on line 26. *)
Inductive Status : Type := starting | running | stopping | stopped.

Global Instance Status_eq_dec : EqDecision Status.
Proof. solve_decision. Defined.

(** [EmulatorInfo] (lines 20-28). *)
Record EmulatorInfo : Type := {
  name : string;
  serial : string;
  api_level : option Z;
  status : Status;
  start_time : option Z;
  process_id : option Z
}.

Definition with_status (st : Status) (e : EmulatorInfo) : EmulatorInfo :=
  {| name := name e; serial := serial e; api_level := api_level e;
     status := st; start_time := start_time e; process_id := process_id e |}.

(** One entry of the answer of [list_avds] (the dict of lines 406-413). *)
Record AvdDict : Type := {
  avd_name : string;
  avd_path : string;
  avd_api_level : option Z;
  avd_android_version : string;
  avd_ram : string;
  avd_device : string
}.

(** [subprocess.run]: a completed process, or an exception
    ([TimeoutExpired], a missing binary, ...). *)
Inductive RunOutcome : Type :=
| Completed (rc : Z) (out err : string)
| Raised (e : Exc).

(** The outside world of a manager.  Calls that reach it are numbered;
    [run i argv] answers the [i]-th call when it is [subprocess.run argv],
    [spawn i argv] when it is [subprocess.Popen argv] (the pid), and
    [avds i] when it is [list_avds] (lines 350-379, whose reading of the
    emulator binary and of the definitions' files is not unfolded).
    The processes started write files too: [disk i fs] is what is found
    on the disk once [i] calls have reached the world, where [fs] is what
    the manager has on record, the files at its start with its own
    writes. *)
Record World : Type := {
  run : nat -> list string -> RunOutcome;
  spawn : nat -> list string -> Res Z;
  avds : nat -> list AvdDict;
  clock : nat -> Z;
  android_home : option string;
  home : string;
  disk : nat -> gmap string string -> gmap string string
}.

(** Effects that leave the program, and the writes to a record's status
    ([obj] numbers the [EmulatorInfo] objects in creation order). *)
Inductive Event : Type :=
| Run (argv : list string) (timeout : option Z)
| Popen (argv : list string)
| Terminate (pid : Z)
| ListAvds
| Sleep (secs : Z)
| FileWrite (path : string)
| Created (obj : nat) (st : Status)
| StatusSet (obj : nat) (old new : Status)
| Removed (obj : nat).

(** The fields of [EmulatorManager] (lines 46-52): [emulators] maps a
    serial to an [EmulatorInfo] object, and the objects live in
    [objects], so that a record can be reached through the table and
    through a local variable at once.  [files] is the manager's record
    of the files: their text at its start, with the manager's own
    writes. *)
Record Manager : Type := {
  headless : bool;
  memory : Z;
  gpu_mode : string;
  emulators : gmap string nat;
  objects : gmap nat EmulatorInfo;
  allocated : nat;
  files : gmap string string;
  calls : nat;
  clock_reads : nat;
  trace : list Event
}.

(** [EmulatorManager(config)] with the defaults of lines 50-52. *)
Definition init (files : gmap string string) : Manager :=
  {| headless := true; memory := 2048; gpu_mode := "auto";
     emulators := ∅; objects := ∅; allocated := 0; files := files;
     calls := 0; clock_reads := 0; trace := [] |}.

Definition set_trace (t : list Event) (s : Manager) : Manager :=
  {| headless := headless s; memory := memory s; gpu_mode := gpu_mode s;
     emulators := emulators s; objects := objects s; allocated := allocated s;
     files := files s; calls := calls s; clock_reads := clock_reads s;
     trace := t |}.

Definition set_calls (n : nat) (s : Manager) : Manager :=
  {| headless := headless s; memory := memory s; gpu_mode := gpu_mode s;
     emulators := emulators s; objects := objects s; allocated := allocated s;
     files := files s; calls := n; clock_reads := clock_reads s;
     trace := trace s |}.

Definition set_clock_reads (n : nat) (s : Manager) : Manager :=
  {| headless := headless s; memory := memory s; gpu_mode := gpu_mode s;
     emulators := emulators s; objects := objects s; allocated := allocated s;
     files := files s; calls := calls s; clock_reads := n;
     trace := trace s |}.

Definition set_files (f : gmap string string) (s : Manager) : Manager :=
  {| headless := headless s; memory := memory s; gpu_mode := gpu_mode s;
     emulators := emulators s; objects := objects s; allocated := allocated s;
     files := f; calls := calls s; clock_reads := clock_reads s;
     trace := trace s |}.

Definition set_emulators (m : gmap string nat) (s : Manager) : Manager :=
  {| headless := headless s; memory := memory s; gpu_mode := gpu_mode s;
     emulators := m; objects := objects s; allocated := allocated s;
     files := files s; calls := calls s; clock_reads := clock_reads s;
     trace := trace s |}.

Definition set_objects (o : gmap nat EmulatorInfo) (n : nat) (s : Manager) : Manager :=
  {| headless := headless s; memory := memory s; gpu_mode := gpu_mode s;
     emulators := emulators s; objects := o; allocated := n;
     files := files s; calls := calls s; clock_reads := clock_reads s;
     trace := trace s |}.

Definition emit (e : Event) : M Manager unit :=
  modify (fun s => set_trace (trace s ++ [e]) s).

Definition next_call : M Manager nat :=
  fun s => (Ok (calls s), set_calls (S (calls s)) s).

(** Line 35. *)
Definition SUPPORTED_API_LEVELS : list Z := [31; 33; 34; 35; 36].

Definition nl : string := String (ascii_of_nat 10) EmptyString.
Definition tab : ascii := ascii_of_nat 9.

(** [f.readlines()]: the lines of a text, each with its line end.  The
    text of a file is the text as text mode gives it, every line end
    being the one character 10. *)
Fixpoint readlines (s : string) : list string :=
  match s with
  | EmptyString => []
  | String a s' =>
      if decide (a = ascii_of_nat 10) then String a EmptyString :: readlines s'
      else match readlines s' with
           | [] => [String a EmptyString]
           | l :: ls => String a l :: ls
           end
  end.

(** [f.writelines(lines)]. *)
Definition writelines (lines : list string) : string := PyStr.join "" lines.

(** The dict [config_updates] of lines 282-292, in insertion order. *)
Definition config_updates (s : Manager) : list (string * string) :=
  [ ("hw.ramSize", PyStr.str_of_int (memory s));
    ("hw.gpu.enabled", "yes");
    ("hw.gpu.mode", gpu_mode s);
    ("hw.keyboard", "yes");
    ("hw.accelerometer", "yes");
    ("hw.battery", "yes");
    ("hw.camera.back", "virtualscene");
    ("hw.camera.front", "emulated");
    ("showDeviceFrame", if headless s then "no" else "yes") ].

(** [d[key]] and [key in d] for a dict held in insertion order. *)
Fixpoint dict_get (d : list (string * string)) (key : string) : option string :=
  match d with
  | [] => None
  | (k, v) :: d' => if decide (k = key) then Some v else dict_get d' key
  end.

(** The first loop of lines 298-307, with its two accumulators. *)
Fixpoint update_lines (updates : list (string * string)) (lines : list string)
    (updated_lines : list string) (updated_keys : gset string)
  : list string * gset string :=
  match lines with
  | [] => (updated_lines, updated_keys)
  | line :: rest =>
      if PyStr.contains "=" line then
        let key := PyStr.strip (hd EmptyString (PyStr.split "=" line)) in
        match dict_get updates key with
        | Some v =>
            update_lines updates rest
              (updated_lines ++ [key +:+ "=" +:+ v +:+ nl])
              ({[ key ]} ∪ updated_keys)
        | None => update_lines updates rest (updated_lines ++ [line]) updated_keys
        end
      else update_lines updates rest (updated_lines ++ [line]) updated_keys
  end.

(** The second loop of lines 310-312. *)
Fixpoint add_missing (items : list (string * string)) (updated_keys : gset string)
    (updated_lines : list string) : list string :=
  match items with
  | [] => updated_lines
  | (key, value) :: rest =>
      if decide (key ∈ updated_keys) then add_missing rest updated_keys updated_lines
      else add_missing rest updated_keys (updated_lines ++ [key +:+ "=" +:+ value +:+ nl])
  end.

(** Lines 294-312: from the lines read to the lines written. *)
Definition apply_updates (updates : list (string * string)) (lines : list string)
  : list string :=
  let '(updated_lines, updated_keys) := update_lines updates lines [] ∅ in
  add_missing updates updated_keys updated_lines.

Definition path_join (a b : string) : string := a +:+ "/" +:+ b.

(** [system-images;android-N;google_apis;arm64-v8a] (lines 171, 239). *)
Definition system_image (api_level : Z) : string :=
  "system-images;android-" +:+ PyStr.str_of_int api_level +:+ ";google_apis;arm64-v8a".

(** Python truth of a [str] and of an [int]. *)
Definition truthy_str (s : string) : bool := negb (String.eqb s "").
Definition truthy_int (n : Z) : bool := negb (n =? 0)%Z.

(** The test of line 562 and the test of line 570. *)
Definition boot_completed (o : RunOutcome) : bool :=
  match o with
  | Completed rc out _ => (rc =? 0)%Z && String.eqb (PyStr.strip out) "1"
  | Raised _ => false
  end.

Definition service_ready (o : RunOutcome) : bool :=
  match o with
  | Completed rc _ _ => (rc =? 0)%Z
  | Raised _ => false
  end.

Definition completed (o : RunOutcome) : bool :=
  match o with Completed _ _ _ => true | Raised _ => false end.

Definition getprop_argv (serial : string) : list string :=
  ["adb"; "-s"; serial; "shell"; "getprop"; "sys.boot_completed"].

Definition pm_argv (serial : string) : list string :=
  ["adb"; "-s"; serial; "shell"; "pm"; "list"; "packages"].

Section WithWorld.

Variable W : World.

Definition now : M Manager Z :=
  fun s => (Ok (clock W (clock_reads s)), set_clock_reads (S (clock_reads s)) s).

Definition subprocess_run (argv : list string) (timeout : option Z)
  : M Manager (Z * string * string) :=
  do i <- next_call;
  emit (Run argv timeout) >>
  match run W i argv with
  | Completed rc out err => ret (rc, out, err)
  | Raised e => raise e
  end.

Definition subprocess_Popen (argv : list string) : M Manager Z :=
  do i <- next_call;
  emit (Popen argv) >>
  match spawn W i argv with
  | Ok pid => ret pid
  | Raise e => raise e
  end.

(** [Path(os.environ.get('ANDROID_HOME', Path.home() / 'Library' /
    'Android' / 'sdk'))]; joining paths is joining with a slash. *)
Definition sdk_path : string :=
  match android_home W with
  | Some p => p
  | None => path_join (path_join (path_join (home W) "Library") "Android") "sdk"
  end.

Definition sdkmanager_path : string :=
  path_join (path_join (path_join (path_join sdk_path "cmdline-tools") "latest") "bin")
    "sdkmanager".

Definition avdmanager_path : string :=
  path_join (path_join (path_join (path_join sdk_path "cmdline-tools") "latest") "bin")
    "avdmanager".

Definition emulator_path : string :=
  path_join (path_join sdk_path "emulator") "emulator".

(** [download_system_image] (lines 165-215). *)
Definition download_system_image (api_level : Z) : M Manager bool :=
  if negb (bool_decide (api_level ∈ SUPPORTED_API_LEVELS)) then ret false
  else
    let system_image := system_image api_level in
    try_except
      (do accept_cmd <- subprocess_Popen ["yes"];
       do result <- subprocess_run [sdkmanager_path; "--licenses"] (Some 30);
       do '(rc, out, err) <- subprocess_run [sdkmanager_path; system_image] (Some 600);
       if (rc =? 0)%Z then ret true
       else if PyStr.contains "already installed" (PyStr.lower err) then ret true
       else ret false)
      (fun e => ret false).

Definition config_file (name : string) : string :=
  path_join (path_join (path_join (path_join (home W) ".android") "avd")
               (name +:+ ".avd")) "config.ini".

(** [_configure_avd] (lines 267-321).  The file is looked for and read
    on the disk as the processes run so far have left it; a file that
    exists can be read and written. *)
Definition _configure_avd (name : string) : M Manager unit :=
  do fs <- gets files;
  do seen <- gets calls;
  match disk W seen fs !! config_file name with
  | None => ret tt
  | Some text =>
      try_except
        (let lines := readlines text in
         do self <- get;
         let updated_lines := apply_updates (config_updates self) lines in
         modify (set_files (<[config_file name := writelines updated_lines]> fs)) >>
         emit (FileWrite (config_file name)))
        (fun e => ret tt)
  end.

(** [create_avd] (lines 217-265). *)
Definition create_avd (name : string) (api_level : Z) (device_type : string)
  : M Manager bool :=
  if negb (bool_decide (api_level ∈ SUPPORTED_API_LEVELS)) then ret false
  else
    do ok <- download_system_image api_level;
    if negb ok then ret false
    else
      let cmd := [avdmanager_path; "create"; "avd"; "-n"; name;
                  "-k"; system_image api_level; "-d"; device_type; "--force"] in
      try_except
        (do '(rc, out, err) <- subprocess_run cmd (Some 30);
         if (rc =? 0)%Z then _configure_avd name >> ret true
         else ret false)
        (fun e => ret false).

(** [list_avds], answered by the world. *)
Definition list_avds : M Manager (list AvdDict) :=
  do i <- next_call;
  emit ListAvds >>
  ret (avds W i).


(** The loop of lines 515-519 over the lines after the header. *)
Fixpoint collect_devices (lines : list string) (devices : list string)
  : M Manager (list string) :=
  match lines with
  | [] => ret devices
  | line :: rest =>
      if truthy_str line && PyStr.contains (String tab EmptyString) line then
        match PyStr.split tab line with
        | [serial; state] =>
            if String.eqb state "device" then collect_devices rest (devices ++ [serial])
            else collect_devices rest devices
        | _ => raise ValueError
        end
      else collect_devices rest devices
  end.

(** [_get_connected_devices] (lines 502-525). *)
Definition _get_connected_devices : M Manager (list string) :=
  try_except
    (do '(rc, out, err) <- subprocess_run ["adb"; "devices"] (Some 5);
     if (rc =? 0)%Z then
       collect_devices (tail (PyStr.split (ascii_of_nat 10) (PyStr.strip out))) []
     else ret [])
    (fun e => ret []).

(** The loop of [_wait_for_new_device] (lines 534-542).  [waited] grows
    by 2 in every round, so [fuel] rounds are enough when [fuel] is at
    least [timeout].  Which element [list(new_devices)[0]] is depends
    on the set's order; [elements] stands for that order. *)
Fixpoint new_device_loop (devices_before : list string) (timeout : Z)
    (fuel : nat) (waited : Z) : M Manager (option string) :=
  if (waited <? timeout)%Z then
    match fuel with
    | O => raise LoopFuel
    | S fuel' =>
        emit (Sleep 2) >>
        let waited := (waited + 2)%Z in
        do current_devices <- _get_connected_devices;
        let new_devices : gset string :=
          list_to_set current_devices ∖ list_to_set devices_before in
        match elements new_devices with
        | d :: _ => ret (Some d)
        | [] => new_device_loop devices_before timeout fuel' waited
        end
    end
  else ret None.

(** [_wait_for_new_device] (lines 527-544). *)
Definition _wait_for_new_device (devices_before : list string) (timeout : Z)
  : M Manager (option string) :=
  new_device_loop devices_before timeout (Z.to_nat timeout) 0.

(** The loop of [_wait_for_boot] (lines 553-575).  [waited] grows by 3
    in every round, so [fuel] rounds are enough when [fuel] is at least
    [timeout]. *)
Fixpoint boot_loop (serial : string) (timeout : Z) (fuel : nat) (waited : Z)
  : M Manager bool :=
  if (waited <? timeout)%Z then
    match fuel with
    | O => raise LoopFuel
    | S fuel' =>
        do '(rc, out, err) <- subprocess_run (getprop_argv serial) (Some 5);
        do booted <-
          (if (rc =? 0)%Z && String.eqb (PyStr.strip out) "1" then
             do '(rc, out, err) <- subprocess_run (pm_argv serial) (Some 5);
             ret (rc =? 0)%Z
           else ret false);
        if booted then ret true
        else emit (Sleep 3) >> boot_loop serial timeout fuel' (waited + 3)%Z
    end
  else ret false.

(** [_wait_for_boot] (lines 546-578). *)
Definition _wait_for_boot (serial : string) (timeout : Z) : M Manager bool :=
  boot_loop serial timeout (Z.to_nat timeout) 0.

(** [EmulatorInfo(...)]: a new object. *)
Definition new_EmulatorInfo (info : EmulatorInfo) : M Manager nat :=
  fun s =>
    let obj := allocated s in
    (Ok obj,
     set_trace (trace s ++ [Created obj (status info)])
       (set_objects (<[obj := info]> (objects s)) (S obj) s)).

(** [emulator.status = st] on the object [obj]. *)
Definition set_status (obj : nat) (st : Status) : M Manager unit :=
  fun s =>
    match objects s !! obj with
    | Some info =>
        (Ok tt,
         set_trace (trace s ++ [StatusSet obj (status info) st])
           (set_objects (<[obj := with_status st info]> (objects s)) (allocated s) s))
    | None => (Ok tt, s)
    end.

(** [stop_emulator] (lines 580-610). *)
Definition stop_emulator (serial : string) : M Manager bool :=
  try_except
    (do result <- subprocess_run ["adb"; "-s"; serial; "emu"; "kill"] (Some 10);
     do table <- gets emulators;
     match table !! serial with
     | Some emulator =>
         set_status emulator stopped >>
         do info <- gets (fun s => objects s !! emulator);
         match info ≫= process_id with
         | Some pid =>
             if truthy_int pid then
               try_except
                 (subprocess_run ["kill"; PyStr.str_of_int pid] None >> ret tt)
                 (fun e => ret tt)
             else ret tt
         | None => ret tt
         end >>
         modify (fun s => set_emulators (delete serial (emulators s)) s) >>
         emit (Removed emulator) >>
         ret true
     | None => ret true
     end)
    (fun e => ret false).

(** The command line of lines 437-456. *)
Definition emulator_cmd (self : Manager) (avd_name : string) (port : option Z)
    (snapshot : option string) : list string :=
  [emulator_path; "-avd"; avd_name]
  ++ (if headless self then ["-no-window"; "-no-audio"; "-no-boot-anim"] else [])
  ++ match port with
     | Some p => if truthy_int p then ["-port"; PyStr.str_of_int p] else []
     | None => []
     end
  ++ match snapshot with
     | Some n => if truthy_str n then ["-snapshot"; n] else []
     | None => []
     end
  ++ ["-no-snapshot-save"; "-noaudio"; "-no-boot-anim"; "-accel"; "on";
      "-gpu"; gpu_mode self; "-memory"; PyStr.str_of_int (memory self)].

(** [start_emulator] (lines 419-500); the result is the object
    returned. *)
Definition start_emulator (avd_name : string) (port : option Z)
    (snapshot : option string) : M Manager (option nat) :=
  do avds <- list_avds;
  match find (fun avd => String.eqb (EmulatorManager.avd_name avd) avd_name) avds with
  | None => ret None
  | Some avd_info =>
      do self <- get;
      let cmd := emulator_cmd self avd_name port snapshot in
      try_except
        (do devices_before <- _get_connected_devices;
         do process <- subprocess_Popen cmd;
         do serial <- _wait_for_new_device devices_before 120;
         match serial with
         | Some serial =>
             if truthy_str serial then
               do t <- now;
               do emulator <- new_EmulatorInfo
                 {| name := avd_name; serial := serial;
                    api_level := avd_api_level avd_info; status := starting;
                    start_time := Some t; process_id := Some process |};
               modify (fun s => set_emulators (<[serial := emulator]> (emulators s)) s) >>
               do booted <- _wait_for_boot serial 120;
               if booted then
                 set_status emulator running >> ret (Some emulator)
               else stop_emulator serial >> ret None
             else emit (Terminate process) >> ret None
         | None => emit (Terminate process) >> ret None
         end)
        (fun e => ret None)
  end.

(** [stop_all_emulators] (lines 612-616); the keys come in the order
    of [map_to_list]. *)
Fixpoint stop_each (serials : list string) : M Manager unit :=
  match serials with
  | [] => ret tt
  | serial :: rest => stop_emulator serial >> stop_each rest
  end.

Definition stop_all_emulators : M Manager unit :=
  do table <- gets emulators;
  stop_each (map fst (map_to_list table)).

(** The calls a client of the manager can make, and a session of such
    calls in sequence. *)
Inductive Call : Type :=
| call_download_system_image (api_level : Z)
| call_create_avd (name : string) (api_level : Z) (device_type : string)
| call_start_emulator (avd_name : string) (port : option Z) (snapshot : option string)
| call_stop_emulator (serial : string)
| call_stop_all_emulators.

Definition do_call (c : Call) : M Manager unit :=
  match c with
  | call_download_system_image api => download_system_image api >> ret tt
  | call_create_avd n api d => create_avd n api d >> ret tt
  | call_start_emulator n p sn => start_emulator n p sn >> ret tt
  | call_stop_emulator sr => stop_emulator sr >> ret tt
  | call_stop_all_emulators => stop_all_emulators
  end.

Fixpoint session (cs : list Call) : M Manager unit :=
  match cs with
  | [] => ret tt
  | c :: rest => do_call c >> session rest
  end.

End WithWorld.

(** The status writes recorded in a trace, oldest first. *)
Fixpoint status_changes (t : list Event) : list (nat * Status * Status) :=
  match t with
  | [] => []
  | StatusSet obj old new :: t' => (obj, old, new) :: status_changes t'
  | _ :: t' => status_changes t'
  end.

(** The steps of the chain starting, running, stopping, stopped, and the
    jump from starting to stopped. *)
Definition chain_step (old new : Status) : bool :=
  match old, new with
  | starting, running | running, stopping | stopping, stopped
  | starting, stopped => true
  | _, _ => false
  end.

(** The status writes the code makes. *)
Definition code_step (old new : Status) : bool :=
  match old, new with
  | starting, running | starting, stopped | running, stopped => true
  | _, _ => false
  end.

(** [n] polling attempts in a row, the first one beginning with call [i]
    and the call after the last one being [j], each with a completed
    probe that leaves the boot signal or the service signal unmet. *)
Inductive unmet_attempts (W : World) (serial : string) : nat -> nat -> nat -> Prop :=
| unmet_none i : unmet_attempts W serial i 0 i
| unmet_boot i n j :
    completed (run W i (getprop_argv serial)) = true ->
    boot_completed (run W i (getprop_argv serial)) = false ->
    unmet_attempts W serial (S i) n j ->
    unmet_attempts W serial i (S n) j
| unmet_service i n j :
    boot_completed (run W i (getprop_argv serial)) = true ->
    completed (run W (S i) (pm_argv serial)) = true ->
    service_ready (run W (S i) (pm_argv serial)) = false ->
    unmet_attempts W serial (S (S i)) n j ->
    unmet_attempts W serial i (S n) j.

End EmulatorManager.

(** ** command_runner.py: the other operations *)

Module PyStrOps.

(** [s.replace(old, new)] for a non-empty [old]: the occurrences are
    taken from the left and do not overlap; [skip] counts the characters
    of an occurrence still to pass over. *)
Fixpoint replace_go (old new : string) (skip : nat) (s : string) : string :=
  match s with
  | EmptyString => EmptyString
  | String a s' =>
      match skip with
      | S k => replace_go old new k s'
      | O =>
          if PyStr.startswith old s
          then new +:+ replace_go old new (String.length old - 1) s'
          else String a (replace_go old new 0 s')
      end
  end.

(** With an empty [old], [new] goes before every character and at the
    end. *)
Fixpoint replace_empty (new : string) (s : string) : string :=
  match s with
  | EmptyString => new
  | String a s' => new +:+ String a (replace_empty new s')
  end.

Definition replace (old new s : string) : string :=
  match old with
  | EmptyString => replace_empty new s
  | _ => replace_go old new 0 s
  end.

(** [s.split(sep, 1)] for a one-character separator that occurs in [s]:
    the text before the first separator and the text after it. *)
Fixpoint partition (sep : ascii) (s : string) : string * string :=
  match s with
  | EmptyString => (EmptyString, EmptyString)
  | String a s' =>
      if decide (a = sep) then (EmptyString, s')
      else let '(k, v) := partition sep s' in (String a k, v)
  end.

End PyStrOps.

Module CommandRunnerOps.

Import CommandRunner.

Section WithWorld.

Variable W : World.

(** [execute_shell_command] (lines 160-170). *)
Definition execute_shell_command (shell_command serial : string) (as_root : bool)
  : M Runner CommandResult :=
  let command :=
    if as_root then "shell su -c '" +:+ shell_command +:+ "'"
    else "shell " +:+ shell_command in
  execute_command W command serial None false.

(** The loop of lines 314-318, with its accumulator. *)
Fixpoint collect_packages (lines : list string) (packages : list string) : list string :=
  match lines with
  | [] => packages
  | line :: rest =>
      if PyStr.startswith "package:" line
      then collect_packages rest
             (packages ++ [PyStr.strip (PyStrOps.replace "package:" "" line)])
      else collect_packages rest packages
  end.

(** [list_packages] (lines 298-320). *)
Definition list_packages (serial : string) (system_only third_party_only : bool)
  : M Runner (list string) :=
  let flags := if system_only then "-s" else if third_party_only then "-3" else "" in
  do result <- execute_command W ("shell pm list packages " +:+ flags) serial None false;
  if success result
  then ret (collect_packages (PyStr.split (ascii_of_nat 10) (stdout result)) [])
  else ret [].

(** [get_logcat] (lines 362-371). *)
Definition get_logcat (serial : string) (lines : Z) (filter_spec : option string)
  : M Runner CommandResult :=
  let command := "logcat -d -t " +:+ PyStr.str_of_int lines in
  let command :=
    match filter_spec with
    | Some f => if negb (String.eqb f "") then command +:+ " " +:+ f else command
    | None => command
    end in
  execute_command W command serial None false.

(** The loop of lines 418-421: a later line with the same key takes the
    place of an earlier one. *)
Fixpoint collect_battery (lines : list string) (battery_info : gmap string string)
  : gmap string string :=
  match lines with
  | [] => battery_info
  | line :: rest =>
      if PyStr.contains ":" line
      then let '(key, value) := PyStrOps.partition ":" line in
           collect_battery rest (<[PyStr.strip key := PyStr.strip value]> battery_info)
      else collect_battery rest battery_info
  end.

(** [get_battery_info] (lines 409-423). *)
Definition get_battery_info (serial : string) : M Runner (gmap string string) :=
  do result <- execute_shell_command "dumpsys battery" serial false;
  if success result
  then ret (collect_battery (PyStr.split (ascii_of_nat 10) (stdout result)) ∅)
  else ret ∅.

(** The text of line 478. *)
Definition escaped_text (text : string) : string :=
  PyStrOps.replace "'" "\'" (PyStrOps.replace " " "%s" text).

(** [input_text] (lines 473-482). *)
Definition input_text (text serial : string) : M Runner CommandResult :=
  execute_shell_command ("input text '" +:+ escaped_text text +:+ "'") serial false.

End WithWorld.

End CommandRunnerOps.

(** ** emulator_manager.py: the other operations *)

Module EmulatorManagerOps.

Import EmulatorManager.

Section WithWorld.

Variable W : World.

(** [delete_avd] (lines 323-348). *)
Definition delete_avd (name : string) : M Manager bool :=
  try_except
    (do '(rc, out, err) <-
       subprocess_run W [avdmanager_path W; "delete"; "avd"; "-n"; name] (Some 30);
     if (rc =? 0)%Z then ret true else ret false)
    (fun e => ret false).

(** [take_snapshot] (lines 618-639). *)
Definition take_snapshot (serial name : string) : M Manager bool :=
  try_except
    (do '(rc, out, err) <-
       subprocess_run W ["adb"; "-s"; serial; "emu"; "avd"; "snapshot"; "save"; name]
         (Some 30);
     if (rc =? 0)%Z then ret true else ret false)
    (fun e => ret false).

(** [restore_snapshot] (lines 641-662). *)
Definition restore_snapshot (serial name : string) : M Manager bool :=
  try_except
    (do '(rc, out, err) <-
       subprocess_run W ["adb"; "-s"; serial; "emu"; "avd"; "snapshot"; "load"; name]
         (Some 30);
     if (rc =? 0)%Z then ret true else ret false)
    (fun e => ret false).

(** The loop of [cleanup_test_avds] (lines 669-671). *)
Fixpoint delete_prefixed (prefix : string) (avds : list AvdDict) : M Manager unit :=
  match avds with
  | [] => ret tt
  | avd :: rest =>
      (if PyStr.startswith prefix (avd_name avd)
       then delete_avd (avd_name avd) >> ret tt
       else ret tt) >>
      delete_prefixed prefix rest
  end.

(** [cleanup_test_avds] (lines 664-673). *)
Definition cleanup_test_avds (prefix : string) : M Manager unit :=
  do avds <- list_avds W;
  delete_prefixed prefix avds.

(** [get_emulator_info] (lines 675-677): the record of the table, if any. *)
Definition get_emulator_info (serial : string) : M Manager (option nat) :=
  gets (fun s => emulators s !! serial).

(** [list_running_emulators] (lines 679-681). *)
Definition list_running_emulators : M Manager (list nat) :=
  gets (fun s => map snd (map_to_list (emulators s))).

End WithWorld.

End EmulatorManagerOps.

(** ** Vocabulary of the properties *)

Module RunnerVocab.

Import CommandRunner.

(** The command of [_format_command] once a leading ["adb "] is gone. *)
Definition strip_adb (command : string) : string :=
  if PyStr.startswith "adb " command then PyStr.slice_from 4 command else command.

(** An attempt fails when its process does not exit with code 0. *)
Definition failing (o : Outcome) : bool :=
  match o with
  | Exited rc _ _ => negb (rc =? 0)%Z
  | _ => true
  end.

(** The outcomes for which [_run_command] makes up the result. *)
Definition synthetic (o : Outcome) : bool :=
  match o with
  | Exited _ _ _ => false
  | _ => true
  end.

Definition result_ok (r : CommandResult) : Prop :=
  success r = (return_code r =? 0)%Z.

(** The timeout [execute_command] uses: [timeout or self.timeout]. *)
Definition timeout_used (tmo : option Z) (s : Runner) : Z :=
  match tmo with
  | Some t => if (t =? 0)%Z then timeout s else t
  | None => timeout s
  end.

(** Two states of a runner with the same fields of [CommandRunner]. *)
Definition same_fields (s s' : Runner) : Prop :=
  timeout s' = timeout s /\ retry_attempts s' = retry_attempts s
  /\ command_history s' = command_history s.

(** The retry loop returns the result of its run number [k], counted from
    0: every earlier run failed. *)
Definition loop_result (W : World) (cmd : string) (N : Z) (s s' : Runner)
    (todo : nat) (r : CommandResult) (k : nat) : Prop :=
  (k < todo)%nat
  /\ spawned s' = (spawned s + S k)%nat
  /\ CommandRunner.command r = cmd
  /\ result_ok r
  /\ success r = negb (failing (proc W (spawned s + k) cmd N))
  /\ (synthetic (proc W (spawned s + k) cmd N) = true -> return_code r = (-1)%Z)
  /\ (proc W (spawned s + k) cmd N = StillRunning ->
      stderr r = "Command timeout after " +:+ PyStr.str_of_int N +:+ " seconds"
      /\ exists t, trace s' = (t ++ [Spawn cmd N; Kill (spawned s + k);
                                     Communicate (spawned s + k)])%list)
  /\ (forall i, (i < k)%nat -> failing (proc W (spawned s + i) cmd N) = true).

(** The three commands of the screenshot chain, as they are run. *)
Definition screenshot_stamp (W : World) (s : Runner) : string :=
  strftime W (clock W (clock_reads s)).

Definition screenshot_path_of (W : World) (serial : string) (s : Runner) : string :=
  "/tmp/screenshot_" +:+ serial +:+ "_" +:+ screenshot_stamp W s +:+ ".png".

Definition device_path_of (W : World) (s : Runner) : string :=
  "/sdcard/screenshot_" +:+ screenshot_stamp W s +:+ ".png".

Definition chain_commands (W : World) (serial : string) (s : Runner) : list string :=
  [ _format_command ("shell screencap -p " +:+ device_path_of W s) serial;
    _format_command ("pull " +:+ device_path_of W s +:+ " "
                     +:+ screenshot_path_of W serial s) serial;
    _format_command ("shell rm " +:+ device_path_of W s) serial ].

(** How the chain went, read off the results it appended to the history. *)
Definition chain_outcome (steps : list CommandResult) (path : string)
    (v : option string) : Prop :=
  match steps with
  | [r1] => success r1 = false /\ v = None
  | [r1; r2] => success r1 = true /\ success r2 = false /\ v = None
  | [r1; r2; r3] => success r1 = true /\ success r2 = true /\ v = Some path
  | _ => False
  end.

(** What a result says of the outcome of the process it was made from:
    the output and the return code of a process that exited, and the
    made-up failure for one that was killed or could not be started. *)
Definition reports (o : Outcome) (cmd serial : string) (N : Z) (r : CommandResult) : Prop :=
  CommandRunner.command r = cmd /\ device_serial r = serial
  /\ CommandRunner.api_level r = None /\ screenshot_path r = None
  /\ match o with
     | Exited rc out err =>
         return_code r = rc /\ stdout r = out /\ stderr r = err
         /\ success r = (rc =? 0)%Z
     | StillRunning =>
         return_code r = (-1)%Z /\ stdout r = "" /\ success r = false
         /\ stderr r = "Command timeout after " +:+ PyStr.str_of_int N +:+ " seconds"
     | SpawnFailed e =>
         return_code r = (-1)%Z /\ stdout r = "" /\ success r = false
         /\ stderr r = match e with
                       | TimeoutExpired =>
                           "Command timeout after " +:+ PyStr.str_of_int N +:+ " seconds"
                       | _ => str_of_exc e
                       end
     end.

(** [r] is the result of run number [k] of the command, counted from 0,
    of a call that began in [s]: [_run_command] gave it, leaving [s1],
    when [k] processes had been spawned and the clock read [3 * k] times
    since [s]. *)
Definition last_run (W : World) (cmd serial : string) (N : Z) (s : Runner) (k : nat)
    (r : CommandResult) (s1 : Runner) : Prop :=
  exists s_k,
    spawned s_k = (spawned s + k)%nat
    /\ clock_reads s_k = (clock_reads s + 3 * k)%nat
    /\ command_history s_k = command_history s
    /\ _run_command W cmd serial N s_k = (Ok r, s1).

(** The reading of C1 in which every attempt leaves an entry: the history
    grows by the number of processes spawned. *)
Definition history_per_attempt (W : World) (command serial : string)
    (tmo : option Z) (s : Runner) : Prop :=
  forall r s',
    execute_command W command serial tmo false s = (Ok r, s') ->
    length (command_history s')
    = (length (command_history s) + (spawned s' - spawned s))%nat.

(** The reading of C7 in which the failure of any step, the removal
    included, leaves no path: [steps] are the results the call appended. *)
Definition any_failure_gives_no_path (W : World) (serial : string) (s : Runner) : Prop :=
  forall v s' steps,
    capture_screenshot W serial s = (Ok v, s') ->
    command_history s' = (command_history s ++ steps)%list ->
    Exists (fun r => success r = false) steps ->
    v = None.

(** Worlds for the examples. *)
Definition a_clock (n : nat) : Z := (1700000000 + Z.of_nat n)%Z.
Definition a_stamp (t : Z) : string := "20250101_120000".

Definition always_failing : World :=
  {| proc := fun _ _ _ => Exited 1 "" "error: device offline";
     clock := a_clock; strftime := a_stamp |}.

Definition fails_once : World :=
  {| proc := fun i _ _ => match i with
                          | O => Exited 1 "" "error: device offline"
                          | _ => Exited 0 "ok" ""
                          end;
     clock := a_clock; strftime := a_stamp |}.

Definition hangs : World :=
  {| proc := fun _ _ _ => StillRunning; clock := a_clock; strftime := a_stamp |}.

Definition rm_fails : World :=
  {| proc := fun _ cmd _ =>
               if PyStr.contains "shell rm" cmd then Exited 1 "" "rm: Permission denied"
               else Exited 0 "" "";
     clock := a_clock; strftime := a_stamp |}.

End RunnerVocab.

Module ManagerVocab.

Import EmulatorManager.

(** The key a configuration line is filed under, if it has one. *)
Definition config_key (line : string) : option string :=
  if PyStr.contains "=" line
  then Some (PyStr.strip (hd EmptyString (PyStr.split "=" line)))
  else None.

(** The line written for an override. *)
Definition entry (kv : string * string) : string :=
  kv.1 +:+ "=" +:+ kv.2 +:+ nl.

(** The line written in the place of an input line. *)
Definition merged_line (updates : list (string * string)) (line : string) : string :=
  match config_key line with
  | Some key =>
      match dict_get updates key with
      | Some v => entry (key, v)
      | None => line
      end
  | None => line
  end.

(** The keys of the lines that are replaced. *)
Definition replaced_keys (updates : list (string * string)) (lines : list string)
  : list string :=
  filter (fun key => is_Some (dict_get updates key)) (omap config_key lines).


(** A whole line: it ends with the line end and has no other. *)
Fixpoint is_line (l : string) : bool :=
  match l with
  | EmptyString => false
  | String a EmptyString => bool_decide (a = ascii_of_nat 10)
  | String a l' => negb (bool_decide (a = ascii_of_nat 10)) && is_line l'
  end.

(** The text is empty or ends with the line end. *)
Fixpoint terminated (text : string) : bool :=
  match text with
  | EmptyString => true
  | String a EmptyString => bool_decide (a = ascii_of_nat 10)
  | String _ t => terminated t
  end.

(** Every override is written as one whole line: no value has a line end
    in it. *)
Definition written_as_lines (updates : list (string * string)) : Prop :=
  forall kv, kv ∈ updates -> is_line (entry kv) = true.


(** A manager that finds the configuration of [dev_34] with the text
    [text]. *)
Definition with_config (text : string) : Manager :=
  init {[ "/home/u/.android/avd/dev_34.avd/config.ini" := text ]}.

(** The state after a call that reaches the world, and after a sleep. *)
Definition after_call (e : Event) (s : Manager) : Manager :=
  set_trace (trace s ++ [e]) (set_calls (S (calls s)) s).

Definition after_event (e : Event) (s : Manager) : Manager :=
  set_trace (trace s ++ [e]) s.

(** The three invocations of [download_system_image]. *)
Definition licence_argv (W : World) : list string :=
  [sdkmanager_path W; "--licenses"].

Definition install_argv (W : World) (api_level : Z) : list string :=
  [sdkmanager_path W; system_image api_level].


(** The package manager's answer says the image is installed. *)
Definition reports_installed (o : RunOutcome) : bool :=
  match o with
  | Completed rc _ err =>
      (rc =? 0)%Z || PyStr.contains "already installed" (PyStr.lower err)
  | Raised _ => false
  end.


(** The command line of [create_avd]. *)
Definition create_argv (W : World) (name : string) (api_level : Z) (device_type : string)
  : list string :=
  [avdmanager_path W; "create"; "avd"; "-n"; name; "-k"; system_image api_level;
   "-d"; device_type; "--force"].

(** Nothing is done to the records and no status is written. *)
Definition quiet (s s' : Manager) : Prop :=
  emulators s' = emulators s /\ objects s' = objects s
  /\ allocated s' = allocated s
  /\ status_changes (trace s') = status_changes (trace s).

Definition Quiet {A : Type} (c : M Manager A) : Prop :=
  forall s, quiet s (c s).2.

(** Every record in the table is an object in status starting or running,
    made before the next one to come, and no two serials share a record. *)
Definition table_ok (s : Manager) : Prop :=
  (forall sr obj,
     emulators s !! sr = Some obj ->
     (obj < allocated s)%nat
     /\ exists info, objects s !! obj = Some info
                     /\ (status info = starting \/ status info = running))
  /\ (forall sr1 sr2 obj,
        emulators s !! sr1 = Some obj -> emulators s !! sr2 = Some obj -> sr1 = sr2).

(** Every status write so far is one the code makes, resp. a step of the
    chain of the specification. *)
Definition changes_ok (s : Manager) : Prop :=
  Forall (fun c => code_step c.1.2 c.2 = true) (status_changes (trace s)).

Definition lifecycle_inv (s : Manager) : Prop := table_ok s /\ changes_ok s.

(** A triple for a computation: run from a state in [P] it ends, with an
    answer [a], in a state in [Q a], and with an exception in a state in
    [E]. *)
Definition Hoare {A : Type} (P : Manager -> Prop) (c : M Manager A)
    (Q : A -> Manager -> Prop) (E : Manager -> Prop) : Prop :=
  forall s, P s -> match c s with
                   | (Ok a, s') => Q a s'
                   | (Raise _, s') => E s'
                   end.

Definition Stable (P : Manager -> Prop) : Prop :=
  forall s s', quiet s s' -> P s -> P s'.

Definition Keeps {A : Type} (c : M Manager A) : Prop :=
  Hoare lifecycle_inv c (fun _ => lifecycle_inv) lifecycle_inv.

(** The states of [start_emulator] between its writes: the object [obj]
    is made and not yet in the table; it is in the table under [sr], in
    status starting. *)
Definition fresh_obj (obj : nat) (s : Manager) : Prop :=
  lifecycle_inv s
  /\ (obj < allocated s)%nat
  /\ (exists info, objects s !! obj = Some info /\ status info = starting)
  /\ forall sr, emulators s !! sr <> Some obj.

Definition starting_at (sr : string) (obj : nat) (s : Manager) : Prop :=
  lifecycle_inv s
  /\ emulators s !! sr = Some obj
  /\ exists info, objects s !! obj = Some info /\ status info = starting.

(** The state of [stop_emulator] between the write of the status and the
    removal from the table. *)
Definition stopping_at (sr : string) (s : Manager) : Prop :=
  lifecycle_inv (set_emulators (delete sr (emulators s)) s).

(** The status writes the code makes, spelled out. *)
Definition code_write (c : nat * Status * Status) : Prop :=
  (c.1.2 = starting /\ c.2 = running)
  \/ (c.1.2 = starting /\ c.2 = stopped)
  \/ (c.1.2 = running /\ c.2 = stopped).

(** A session that starts a device and stops it. *)
Definition start_then_stop : list Call :=
  [call_start_emulator "dev_34" None None; call_stop_emulator "emulator-5554"].

(** The reading of C9: every status write of a session is a step of the
    chain starting, running, stopping, stopped, or the jump from starting
    to stopped. *)
Definition follows_chain (W : World) (cs : list Call) (s : Manager) : Prop :=
  Forall (fun c => chain_step c.1.2 c.2 = true)
    (status_changes (trace (session W cs s).2)).

(** Worlds for the examples. *)
Definition a_definition : AvdDict :=
  {| avd_name := "dev_34"; avd_path := "/home/u/.android/avd/dev_34.avd";
     avd_api_level := Some 34; avd_android_version := "14"; avd_ram := "2048";
     avd_device := "pixel_5" |}.

(** The image is installed, the device [emulator-5554] appears at the
    second listing, and boots at once. *)
Definition boots_at_once : World :=
  {| run := fun i argv =>
       if decide (argv = ["adb"; "devices"]) then
         if (i <? 3)%nat then Completed 0 ("List of devices attached" +:+ nl) ""
         else Completed 0 ("List of devices attached" +:+ nl +:+ "emulator-5554"
                           +:+ String tab "device" +:+ nl) ""
       else if decide (argv = getprop_argv "emulator-5554") then
         Completed 0 ("1" +:+ nl) ""
       else if decide (argv = ["/sdk/cmdline-tools/latest/bin/sdkmanager";
                               "system-images;android-34;google_apis;arm64-v8a"]) then
         Completed 1 "" "Warning: package already installed"
       else Completed 0 "" "";
     spawn := fun _ _ => Ok 4242;
     avds := fun _ => [a_definition];
     clock := fun n => (1700000000 + Z.of_nat n)%Z;
     android_home := Some "/sdk";
     home := "/home/u";
     disk := fun _ fs => fs |}.

(** The device never reports that it has booted. *)
Definition never_boots : World :=
  {| run := fun i argv => Completed 0 "" "";
     spawn := fun _ _ => Ok 4242;
     avds := fun _ => [a_definition];
     clock := fun n => (1700000000 + Z.of_nat n)%Z;
     android_home := Some "/sdk";
     home := "/home/u";
     disk := fun _ fs => fs |}.

End ManagerVocab.

(** ** Vocabulary for the other operations of the runner *)

Module RunnerOpsVocab.

Import CommandRunner CommandRunnerOps RunnerVocab.

(** The state of a runner after one more reading of the clock. *)
Definition after_clock (s : Runner) : Runner :=
  {| timeout := timeout s; retry_attempts := retry_attempts s;
     command_history := command_history s; spawned := spawned s;
     clock_reads := S (clock_reads s); trace := trace s |}.

(** The key and the value [get_battery_info] reads off a line. *)
Definition battery_key (line : string) : string :=
  PyStr.strip (PyStrOps.partition ":" line).1.

Definition battery_value (line : string) : string :=
  PyStr.strip (PyStrOps.partition ":" line).2.

(** No line of [lines] is filed under [key]. *)
Definition no_entry (key : string) (lines : list string) : Prop :=
  forall line, line ∈ lines -> PyStr.contains ":" line = true -> battery_key line <> key.

(** The lines of the output of a result. *)
Definition stdout_lines (r : CommandResult) : list string :=
  PyStr.split (ascii_of_nat 10) (stdout r).

(** A device that answers every command with a battery report. *)
Definition reports_battery : World :=
  {| proc := fun _ _ _ =>
       Exited 0 ("level: 50" +:+ String (ascii_of_nat 10) "level: 80") "";
     clock := a_clock; strftime := a_stamp |}.

End RunnerOpsVocab.

(** ** Vocabulary for the other operations of the manager *)

Module ManagerOpsVocab.

Import EmulatorManager EmulatorManagerOps ManagerVocab.

(** The command lines of the operations. *)
Definition kill_argv (serial : string) : list string :=
  ["adb"; "-s"; serial; "emu"; "kill"].

Definition delete_argv (W : World) (name : string) : list string :=
  [avdmanager_path W; "delete"; "avd"; "-n"; name].

Definition snapshot_argv (verb serial name : string) : list string :=
  ["adb"; "-s"; serial; "emu"; "avd"; "snapshot"; verb; name].

(** The answer of an operation that reports whether its command exited
    with 0. *)
Definition exited_zero (o : RunOutcome) : bool :=
  match o with
  | Completed rc _ _ => (rc =? 0)%Z
  | Raised _ => false
  end.

(** A relation between the state before and the state after that holds
    of every step which writes no file. *)
Class Bookkeeping (R : Manager -> Manager -> Prop) : Prop := {
  bk_refl : forall s, R s s;
  bk_trans : forall s1 s2 s3, R s1 s2 -> R s2 s3 -> R s1 s3;
  bk_event : forall s e,
    match e with FileWrite _ => False | _ => True end ->
    R s (set_trace (trace s ++ [e]) s);
  bk_calls : forall s n, R s (set_calls n s);
  bk_clock : forall s n, R s (set_clock_reads n s);
  bk_emulators : forall s m, R s (set_emulators m s);
  bk_objects : forall s o n, R s (set_objects o n s)
}.

Definition Respects (R : Manager -> Manager -> Prop) {A : Type} (c : M Manager A) : Prop :=
  forall s, R s (c s).2.

(** The manager's record of no file outside [ps] differs, and every file
    write made in between is to a path of [ps]. *)
Definition only_files (ps : list string) (s s' : Manager) : Prop :=
  (forall q, q ∉ ps -> files s' !! q = files s !! q)
  /\ exists t, trace s' = (trace s ++ t)%list
               /\ forall p, FileWrite p ∈ t -> p ∈ ps.

(** A world in which the creation of the definition [dev_34] leaves its
    configuration on the disk. *)
Definition makes_config : World :=
  {| run := fun _ _ => Completed 0 "" "";
     spawn := fun _ _ => Ok 4242;
     avds := fun _ => [a_definition];
     clock := fun n => (1700000000 + Z.of_nat n)%Z;
     android_home := Some "/sdk";
     home := "/home/u";
     disk := fun i fs =>
       if (4 <=? i)%nat
       then fs ∪ {[ "/home/u/.android/avd/dev_34.avd/config.ini" :=
                      "avd.name=dev_34" +:+ nl +:+ "hw.ramSize=512" +:+ nl ]}
       else fs |}.

(** Overrides that are read back from the lines written for them: the
    line of an override has its key, and the key has its value. *)
Definition readable (u : list (string * string)) : Prop :=
  (forall kv, kv ∈ u -> config_key (entry kv) = Some kv.1)
  /\ (forall kv, kv ∈ u -> dict_get u kv.1 = Some kv.2).

(** The lines of the device listing that name a connected device. *)
Definition device_lines (o : RunOutcome) : list string :=
  match o with
  | Completed rc out _ =>
      if (rc =? 0)%Z then tail (PyStr.split (ascii_of_nat 10) (PyStr.strip out)) else []
  | Raised _ => []
  end.

(** The record [obj] is in the table under [sr], made not before [lo],
    for the definition [nm], in status [st]. *)
Definition recorded (sr : string) (obj : nat) (nm : string) (lo : nat) (st : Status)
    (s : Manager) : Prop :=
  emulators s !! sr = Some obj
  /\ (lo <= obj)%nat
  /\ exists info,
       objects s !! obj = Some info
       /\ name info = nm /\ serial info = sr /\ status info = st.

(** What [start_emulator] answers: nothing, or a record in status
    running. *)
Definition started (nm : string) (lo : nat) (res : option nat) (s : Manager) : Prop :=
  match res with
  | Some obj => exists sr, recorded sr obj nm lo running s
  | None => True
  end.

(** No object from [lo] on is made yet. *)
Definition below (lo : nat) (s : Manager) : Prop := (lo <= allocated s)%nat.

(** The world answers every command: no call of [subprocess.run] raises. *)
Definition answers (W : World) : Prop :=
  forall i argv, completed (run W i argv) = true.

(** The deletions [cleanup_test_avds] asks for. *)
Definition deletions (W : World) (prefix : string) (avds : list AvdDict) : list Event :=
  map (fun avd => Run (delete_argv W (avd_name avd)) (Some 30))
    (filter (fun avd => PyStr.startswith prefix (avd_name avd) = true) avds).

(** The definitions a session creates. *)
Definition created_names (cs : list Call) : list string :=
  omap (fun c => match c with
                 | call_create_avd n _ _ => Some n
                 | _ => None
                 end) cs.

(** A world with two definitions, one of them a test definition. *)
Definition two_definitions : World :=
  {| run := fun _ _ => Completed 0 "" "";
     spawn := fun _ _ => Ok 4242;
     avds := fun _ =>
       [a_definition;
        {| avd_name := "test_android_34"; avd_path := "/home/u/.android/avd/test_android_34.avd";
           avd_api_level := Some 34; avd_android_version := "14"; avd_ram := "2048";
           avd_device := "pixel_5" |}];
     clock := fun n => (1700000000 + Z.of_nat n)%Z;
     android_home := Some "/sdk";
     home := "/home/u";
     disk := fun _ fs => fs |}.

End ManagerOpsVocab.

(** * Properties *)

(** ** Strings *)

Lemma startswith_app (p s : string) :
  PyStr.startswith p s = true <-> exists b, s = p +:+ b.
Proof.
  revert s. induction p as [|a p IH]; intros s; simpl.
  - split; [intros _; exists s; reflexivity | reflexivity].
  - destruct s as [|b s].
    + split; [discriminate | intros [r Hr]; discriminate].
    + destruct (decide (a = b)) as [->|Hne].
      * rewrite IH. split; intros [r Hr].
        -- exists r. simpl. now rewrite Hr.
        -- exists r. simpl in Hr. now injection Hr.
      * split; [discriminate | intros [r Hr]].
        simpl in Hr. injection Hr as Hab _. congruence.
Qed.

Lemma contains_app (sub s : string) :
  PyStr.contains sub s = true <-> exists a b, s = a +:+ sub +:+ b.
Proof.
  induction s as [|c s IH]; simpl.
  - rewrite orb_false_r, startswith_app. split.
    + intros [b Hb]. exists EmptyString, b. exact Hb.
    + intros [a [b Hab]]. destruct a as [|? ?]; [|discriminate].
      exists b. exact Hab.
  - rewrite orb_true_iff, startswith_app, IH. split.
    + intros [[b Hb]|[a [b Hab]]].
      * exists EmptyString, b. exact Hb.
      * exists (String c a), b. simpl. now rewrite Hab.
    + intros [a [b Hab]]. destruct a as [|c' a].
      * left. exists b. exact Hab.
      * right. simpl in Hab. injection Hab as _ Hs. exists a, b. exact Hs.
Qed.

(** Taking a leading ["adb "] away does not change whether ["-s"] occurs:
    neither of its two characters is in the prefix's last position. *)
Lemma contains_flag_strip (command : string) :
  PyStr.startswith "adb " command = true ->
  PyStr.contains "-s" (PyStr.slice_from 4 command) = PyStr.contains "-s" command.
Proof.
  intros H. apply startswith_app in H as [b ->]. reflexivity.
Qed.

Lemma string_app_cons (x : ascii) (a b : string) :
  String x a +:+ b = String x (a +:+ b).
Proof. reflexivity. Qed.

Lemma string_app_assoc (a b c : string) : (a +:+ b) +:+ c = a +:+ (b +:+ c).
Proof.
  induction a as [|x a IH]; [reflexivity|].
  rewrite !string_app_cons. now rewrite IH.
Qed.

Lemma string_app_nil_r (a : string) : a +:+ EmptyString = a.
Proof.
  induction a as [|x a IH]; [reflexivity|].
  rewrite string_app_cons. now rewrite IH.
Qed.

(** ** command_runner.py *)

Module RunnerProps.

Import CommandRunner RunnerVocab.

(** C10: whether the target-device flag is inserted is decided by a plain
    substring test for ["-s"] on the command: when it occurs anywhere (as
    in ["shell ls -skip"]) the result is ["adb "] followed by the command
    without its leading ["adb "], and otherwise ["-s <identifier>"] is
    inserted. *)
Theorem format_command_substring_test (command serial : string) :
  (PyStr.contains "-s" command = true <-> exists a b, command = a +:+ "-s" +:+ b)
  /\ _format_command command serial =
       (if PyStr.contains "-s" command then "adb " +:+ strip_adb command
        else "adb -s " +:+ serial +:+ " " +:+ strip_adb command)
  /\ _format_command "shell ls -skip" serial = "adb shell ls -skip".
Proof.
  split; [apply contains_app | split; [|reflexivity]].
  unfold _format_command, strip_adb.
  destruct (PyStr.startswith "adb " command) eqn:Hp; [|reflexivity].
  now rewrite contains_flag_strip.
Qed.
Ltac eff_unfold :=
  unfold _run_command, create_subprocess_shell, wait_for_communicate, now,
    next_pid, emit, history_append, try_except, bind, ret, raise, gets, get, modify.

Lemma run_command_spec (W : World) (command serial : string) (tmo : Z) (s : Runner) :
  exists r s',
    _run_command W command serial tmo s = (Ok r, s')
    /\ same_fields s s'
    /\ spawned s' = S (spawned s)
    /\ CommandRunner.command r = command
    /\ success r = negb (failing (proc W (spawned s) command tmo))
    /\ result_ok r
    /\ (synthetic (proc W (spawned s) command tmo) = true ->
        success r = false /\ return_code r = (-1)%Z)
    /\ (proc W (spawned s) command tmo = StillRunning ->
        stderr r = "Command timeout after " +:+ PyStr.str_of_int tmo +:+ " seconds"
        /\ trace s' = (trace s ++ [Spawn command tmo; Kill (spawned s);
                                   Communicate (spawned s)])%list)
    /\ (exists t, trace s' = (trace s ++ Spawn command tmo :: t)%list
                  /\ Forall (fun e => forall c n, e <> Spawn c n) t).
Proof.
  eff_unfold. simpl.
  destruct (proc W (spawned s) command tmo) as [rc out err| |e] eqn:Ho;
    simpl; rewrite ?Ho; simpl.
  - do 2 eexists. split; [reflexivity|]. unfold same_fields, result_ok. simpl.
    repeat split; try discriminate.
    + now rewrite negb_involutive.
    + exists []. split; [reflexivity | constructor].
  - do 2 eexists. split; [reflexivity|]. unfold same_fields, result_ok. simpl.
    repeat split.
    + now rewrite <- !app_assoc.
    + exists [Kill (spawned s); Communicate (spawned s)].
      split; [now rewrite <- !app_assoc|].
      repeat constructor; discriminate.
  - do 2 eexists. split; [reflexivity|]. unfold same_fields, result_ok. simpl.
    repeat split; try discriminate.
    exists []. split; [reflexivity | constructor].
Qed.
Lemma same_fields_trans (s1 s2 s3 : Runner) :
  same_fields s1 s2 -> same_fields s2 s3 -> same_fields s1 s3.
Proof. unfold same_fields. intuition congruence. Qed.

Lemma loop_result_first (W : World) (cmd serial : string) (N : Z)
    (s s1 : Runner) (r : CommandResult) (todo : nat) :
  _run_command W cmd serial N s = (Ok r, s1) ->
  loop_result W cmd N s s1 (S todo) r 0.
Proof.
  intros Hrun.
  destruct (run_command_spec W cmd serial N s)
    as (r0 & s0 & Hrun0 & Hsame & Hsp & Hcmd & Hsucc & Hok & Hsyn & Hto & Htr).
  rewrite Hrun in Hrun0. injection Hrun0 as <- <-.
  unfold loop_result. rewrite Nat.add_0_r.
  split; [lia|]. split; [lia|]. split; [exact Hcmd|]. split; [exact Hok|].
  split; [exact Hsucc|]. split; [intros Hs; now apply Hsyn|]. split.
  - intros Hs. destruct (Hto Hs) as [He Ht]. split; [exact He|].
    exists (trace s). exact Ht.
  - intros i Hi. lia.
Qed.

Lemma loop_result_later (W : World) (cmd : string) (N : Z)
    (s s1 s2 s' : Runner) (r : CommandResult) (todo k : nat) :
  spawned s1 = S (spawned s) ->
  spawned s2 = spawned s1 ->
  failing (proc W (spawned s) cmd N) = true ->
  loop_result W cmd N s2 s' todo r k ->
  loop_result W cmd N s s' (S todo) r (S k).
Proof.
  unfold loop_result. intros Hsp Hsp2 Hfail.
  rewrite Hsp2, Hsp.
  replace (spawned s + S k)%nat with (S (spawned s) + k)%nat by lia.
  intros (Hk & Hsp' & Hcmd & Hok & Hsucc & Hsyn & Hto & Hall).
  split; [lia|]. split; [lia|]. split; [exact Hcmd|]. split; [exact Hok|].
  split; [exact Hsucc|]. split; [exact Hsyn|]. split; [exact Hto|].
  intros [|i] Hi.
  - now rewrite Nat.add_0_r.
  - replace (spawned s + S i)%nat with (S (spawned s) + i)%nat by lia.
    apply Hall. lia.
Qed.

Lemma retry_loop_spec (W : World) (cmd serial : string) (N retries : Z) :
  forall (todo : nat) (attempt : Z) (last : option CommandResult) (s : Runner),
  (attempt + Z.of_nat (S todo) = retries)%Z ->
  exists r k s',
    retry_loop W cmd serial N retries (S todo) attempt last s = (Ok (Some r), s')
    /\ same_fields s s'
    /\ loop_result W cmd N s s' (S todo) r k
    /\ (success r = true \/ k = todo).
Proof.
  induction todo as [|todo IH]; intros attempt last s Hrange;
    destruct (run_command_spec W cmd serial N s)
      as (r & s1 & Hrun & Hsame & Hsp & Hcmd & Hsucc & Hok & Hsyn & Hto & Htr);
    cbn [retry_loop]; unfold bind at 1; rewrite Hrun.
  - replace (attempt =? retries - 1)%Z with true by (symmetry; apply Z.eqb_eq; lia).
    rewrite orb_true_r. exists r, 0%nat, s1.
    split; [reflexivity|]. split; [exact Hsame|].
    split; [now apply loop_result_first with serial | now right].
  - destruct (success r || (attempt =? retries - 1)%Z) eqn:Hstop.
    + exists r, 0%nat, s1. split; [reflexivity|]. split; [exact Hsame|].
      split; [now apply loop_result_first with serial|].
      apply orb_true_iff in Hstop as [Hs|Ha]; [now left|].
      apply Z.eqb_eq in Ha. lia.
    + apply orb_false_iff in Hstop as [Hfail Hatt].
      set (s2 := {| timeout := timeout s1; retry_attempts := retry_attempts s1;
                    command_history := command_history s1; spawned := spawned s1;
                    clock_reads := clock_reads s1;
                    trace := (trace s1 ++ [Sleep 2])%list |}).
      destruct (IH (attempt + 1)%Z (Some r) s2 ltac:(lia))
        as (r' & k & s' & Hloop & Hsame' & Hlr & Hwhy).
      exists r', (S k), s'. split.
      { unfold bind at 1, emit, modify. exact Hloop. }
      split.
      { apply same_fields_trans with s1; [exact Hsame|].
        apply same_fields_trans with s2; [|exact Hsame'].
        unfold same_fields. subst s2. auto. }
      split.
      * apply loop_result_later with s1 s2; try assumption; try reflexivity.
        rewrite Hfail in Hsucc.
        destruct (failing (proc W (spawned s) cmd N)); [reflexivity|discriminate].
      * destruct Hwhy as [Hs|Hk']; [now left | right; lia].
Qed.

(** [execute_command] without a screenshot, when at least one attempt is
    allowed: one entry is appended to the history, the result returned. *)
Lemma execute_plain_spec (W : World) (command serial : string) (tmo : option Z)
    (s : Runner) :
  (1 <= retry_attempts s)%Z ->
  exists r k s',
    execute_command_with W None command serial tmo s = (Ok r, s')
    /\ timeout s' = timeout s /\ retry_attempts s' = retry_attempts s
    /\ command_history s' = (command_history s ++ [r])%list
    /\ loop_result W (_format_command command serial) (timeout_used tmo s) s s'
         (Z.to_nat (retry_attempts s)) r k
    /\ (success r = true \/ S k = Z.to_nat (retry_attempts s)).
Proof.
  intros Hre.
  destruct (Z.to_nat (retry_attempts s)) as [|todo] eqn:Htodo; [lia|].
  destruct (retry_loop_spec W (_format_command command serial) serial
              (timeout_used tmo s) (retry_attempts s) todo 0 None s ltac:(lia))
    as (r & k & s1 & Hloop & (Ht & Hr & Hh) & Hlr & Hwhy).
  exists r, k.
  eexists. split.
  { unfold execute_command_with, bind, gets, ret, history_append, modify.
    fold (timeout_used tmo s). rewrite Htodo, Hloop. reflexivity. }
  cbn [timeout retry_attempts command_history].
  rewrite Hh. split; [exact Ht|]. split; [exact Hr|]. split; [reflexivity|].
  split; [exact Hlr|].
  destruct Hwhy as [Hs|Hk]; [now left | right; lia].
Qed.

(** [execute_command] without a screenshot when no attempt is allowed:
    [result] is never bound. *)
Lemma execute_plain_unbound (W : World) (command serial : string) (tmo : option Z)
    (s : Runner) :
  (retry_attempts s < 1)%Z ->
  execute_command_with W None command serial tmo s
  = (Raise (UnboundLocalError "result"), s).
Proof.
  intros Hre. unfold execute_command_with, bind, gets, ret.
  replace (Z.to_nat (retry_attempts s)) with 0%nat by lia. reflexivity.
Qed.

Lemma capture_screenshot_spec (W : World) (serial : string) (s : Runner) :
  exists v s',
    capture_screenshot W serial s = (Ok v, s')
    /\ timeout s' = timeout s /\ retry_attempts s' = retry_attempts s
    /\ (exists steps,
          command_history s' = (command_history s ++ steps)%list
          /\ Forall result_ok steps
          /\ ((retry_attempts s < 1)%Z -> steps = [] /\ v = None)
          /\ ((1 <= retry_attempts s)%Z ->
              map CommandRunner.command steps
              = take (length steps) (chain_commands W serial s)
              /\ chain_outcome steps (screenshot_path_of W serial s) v)).
Proof.
  unfold capture_screenshot.
  set (s0 := {| timeout := timeout s; retry_attempts := retry_attempts s;
                command_history := command_history s; spawned := spawned s;
                clock_reads := S (clock_reads s); trace := trace s |}).
  unfold bind at 1, now. fold s0.
  fold (screenshot_stamp W s).
  fold (screenshot_path_of W serial s). fold (device_path_of W s).
  destruct (Z_lt_le_dec (retry_attempts s) 1) as [Hlt|Hge].
  - unfold try_except, bind at 1.
    rewrite execute_plain_unbound by exact Hlt.
    exists None, s0. unfold ret. split; [reflexivity|].
    split; [reflexivity|]. split; [reflexivity|].
    exists []. rewrite app_nil_r. repeat split; try constructor; lia.
  - destruct (execute_plain_spec W ("shell screencap -p " +:+ device_path_of W s)
                serial None s0 Hge)
      as (r1 & k1 & s1 & He1 & Ht1 & Hr1 & Hh1 & Hl1 & _).
    cbn [s0 timeout retry_attempts command_history] in Ht1, Hr1, Hh1.
    unfold try_except, bind at 1. rewrite He1.
    assert (Hok1 : result_ok r1) by (unfold loop_result in Hl1; tauto).
    assert (Hc1 : CommandRunner.command r1
                  = _format_command ("shell screencap -p " +:+ device_path_of W s) serial)
      by (unfold loop_result in Hl1; tauto).
    destruct (success r1) eqn:Hs1.
    2:{ exists None, s1. unfold ret. split; [reflexivity|].
        split; [exact Ht1|]. split; [exact Hr1|].
        exists [r1]. split; [exact Hh1|]. split; [repeat constructor; exact Hok1|].
        split; [lia|]. intros _. simpl. rewrite Hc1, Hs1. auto. }
    assert (Hge1 : (1 <= retry_attempts s1)%Z) by (rewrite Hr1; exact Hge).
    destruct (execute_plain_spec W
                ("pull " +:+ device_path_of W s +:+ " " +:+ screenshot_path_of W serial s)
                serial None s1 Hge1)
      as (r2 & k2 & s2 & He2 & Ht2 & Hr2 & Hh2 & Hl2 & _).
    unfold bind at 1. rewrite He2.
    assert (Hok2 : result_ok r2) by (unfold loop_result in Hl2; tauto).
    assert (Hc2 : CommandRunner.command r2
                  = _format_command ("pull " +:+ device_path_of W s +:+ " "
                                     +:+ screenshot_path_of W serial s) serial)
      by (unfold loop_result in Hl2; tauto).
    destruct (success r2) eqn:Hs2.
    2:{ exists None, s2. unfold ret. split; [reflexivity|].
        split; [congruence|]. split; [congruence|].
        exists [r1; r2]. split; [rewrite Hh2, Hh1, <- app_assoc; reflexivity|].
        split; [repeat constructor; assumption|].
        split; [lia|]. intros _. simpl. rewrite Hc1, Hc2, Hs1, Hs2. auto. }
    assert (Hge2 : (1 <= retry_attempts s2)%Z) by (rewrite Hr2; exact Hge1).
    destruct (execute_plain_spec W ("shell rm " +:+ device_path_of W s)
                serial None s2 Hge2)
      as (r3 & k3 & s3 & He3 & Ht3 & Hr3 & Hh3 & Hl3 & _).
    unfold bind at 1. rewrite He3.
    assert (Hok3 : result_ok r3) by (unfold loop_result in Hl3; tauto).
    assert (Hc3 : CommandRunner.command r3
                  = _format_command ("shell rm " +:+ device_path_of W s) serial)
      by (unfold loop_result in Hl3; tauto).
    exists (Some (screenshot_path_of W serial s)), s3. unfold ret.
    split; [reflexivity|]. split; [congruence|]. split; [congruence|].
    exists [r1; r2; r3].
    split; [rewrite Hh3, Hh2, Hh1, <- !app_assoc; reflexivity|].
    split; [repeat constructor; assumption|].
    split; [lia|]. intros _. simpl. rewrite Hc1, Hc2, Hc3, Hs1, Hs2. auto.
Qed.

(** The processes of [capture_screenshot] are spawned from the state it
    is run in: with an attempt allowed it spawns at least one. *)
Lemma capture_screenshot_spawns (W : World) (serial : string) (s : Runner)
    (v : option string) (s' : Runner) :
  (1 <= retry_attempts s)%Z ->
  capture_screenshot W serial s = (Ok v, s') ->
  (spawned s < spawned s')%nat.
Proof.
  intros Hge. unfold capture_screenshot.
  set (s0 := {| timeout := timeout s; retry_attempts := retry_attempts s;
                command_history := command_history s; spawned := spawned s;
                clock_reads := S (clock_reads s); trace := trace s |}).
  unfold bind at 1, now. fold s0.
  fold (screenshot_stamp W s).
  fold (screenshot_path_of W serial s). fold (device_path_of W s).
  destruct (execute_plain_spec W ("shell screencap -p " +:+ device_path_of W s)
              serial None s0 Hge)
    as (r1 & k1 & s1 & He1 & _ & Hr1 & _ & Hl1 & _).
  cbn [s0 retry_attempts] in Hr1.
  assert (Hsp1 : spawned s1 = (spawned s + S k1)%nat)
    by (unfold loop_result in Hl1; cbn [s0 spawned] in Hl1; tauto).
  unfold try_except, bind at 1. rewrite He1.
  destruct (success r1).
  2:{ unfold ret. intros [= _ <-]. lia. }
  assert (Hge1 : (1 <= retry_attempts s1)%Z) by (rewrite Hr1; exact Hge).
  destruct (execute_plain_spec W
              ("pull " +:+ device_path_of W s +:+ " " +:+ screenshot_path_of W serial s)
              serial None s1 Hge1)
    as (r2 & k2 & s2 & He2 & _ & Hr2 & _ & Hl2 & _).
  assert (Hsp2 : spawned s2 = (spawned s1 + S k2)%nat)
    by (unfold loop_result in Hl2; tauto).
  unfold bind at 1. rewrite He2.
  destruct (success r2).
  2:{ unfold ret. intros [= _ <-]. lia. }
  assert (Hge2 : (1 <= retry_attempts s2)%Z) by (rewrite Hr2; exact Hge1).
  destruct (execute_plain_spec W ("shell rm " +:+ device_path_of W s)
              serial None s2 Hge2)
    as (r3 & k3 & s3 & He3 & _ & _ & _ & Hl3 & _).
  assert (Hsp3 : spawned s3 = (spawned s2 + S k3)%nat)
    by (unfold loop_result in Hl3; tauto).
  unfold bind at 1. rewrite He3. unfold ret. intros [= _ <-]. lia.
Qed.

(** What [_run_command] puts in its result, and how often it reads the
    clock. *)
Lemma run_command_reports (W : World) (command serial : string) (tmo : Z)
    (s : Runner) (r : CommandResult) (s1 : Runner) :
  _run_command W command serial tmo s = (Ok r, s1) ->
  reports (proc W (spawned s) command tmo) command serial tmo r
  /\ clock_reads s1 = (clock_reads s + 3)%nat
  /\ spawned s1 = S (spawned s)
  /\ command_history s1 = command_history s
  /\ timeout s1 = timeout s /\ retry_attempts s1 = retry_attempts s.
Proof.
  unfold reports. eff_unfold. simpl.
  destruct (proc W (spawned s) command tmo) as [rc out err| |e] eqn:Ho;
    simpl; rewrite ?Ho; simpl; intros Hrun; injection Hrun as <- <-; simpl;
    repeat split; try lia.
Qed.

(** The retry loop returns the result of the run it made last, and ends
    in the state that run left. *)
Lemma retry_loop_last_run (W : World) (cmd serial : string) (N retries : Z) :
  forall (todo : nat) (attempt : Z) (last : option CommandResult) (s : Runner),
  (attempt + Z.of_nat (S todo) = retries)%Z ->
  exists r k s',
    retry_loop W cmd serial N retries (S todo) attempt last s = (Ok (Some r), s')
    /\ spawned s' = (spawned s + S k)%nat
    /\ last_run W cmd serial N s k r s'.
Proof.
  induction todo as [|todo IH]; intros attempt last s Hrange;
    destruct (run_command_spec W cmd serial N s)
      as (r & s1 & Hrun & _);
    destruct (run_command_reports W cmd serial N s r s1 Hrun)
      as (_ & Hclock & Hsp & Hh & _);
    cbn [retry_loop]; unfold bind at 1; rewrite Hrun.
  - replace (attempt =? retries - 1)%Z with true by (symmetry; apply Z.eqb_eq; lia).
    rewrite orb_true_r. exists r, 0%nat, s1.
    split; [reflexivity|]. split; [lia|].
    exists s. rewrite !Nat.add_0_r. auto.
  - destruct (success r || (attempt =? retries - 1)%Z) eqn:Hstop.
    + exists r, 0%nat, s1. split; [reflexivity|]. split; [lia|].
      exists s. rewrite !Nat.add_0_r. auto.
    + set (s2 := {| timeout := timeout s1; retry_attempts := retry_attempts s1;
                    command_history := command_history s1; spawned := spawned s1;
                    clock_reads := clock_reads s1;
                    trace := (trace s1 ++ [Sleep 2])%list |}).
      destruct (IH (attempt + 1)%Z (Some r) s2 ltac:(lia))
        as (r' & k & s' & Hloop & Hsp' & (s_k & Hk & Hc & Hhk & Hlast)).
      exists r', (S k), s'. split.
      { unfold bind at 1, emit, modify. exact Hloop. }
      cbn [s2 spawned clock_reads command_history] in Hsp', Hk, Hc, Hhk.
      split; [lia|]. exists s_k.
      split; [lia|]. split; [lia|]. split; [congruence | exact Hlast].
Qed.

(** [execute_command] without a screenshot returns the result of the run
    it made last. *)
Lemma execute_plain_last_run (W : World) (command serial : string) (tmo : option Z)
    (s : Runner) :
  (1 <= retry_attempts s)%Z ->
  exists r k s1 s',
    execute_command_with W None command serial tmo s = (Ok r, s')
    /\ spawned s' = (spawned s + S k)%nat
    /\ last_run W (_format_command command serial) serial (timeout_used tmo s) s k r s1
    /\ reports (proc W (spawned s + k) (_format_command command serial)
                  (timeout_used tmo s))
         (_format_command command serial) serial (timeout_used tmo s) r.
Proof.
  intros Hre.
  destruct (Z.to_nat (retry_attempts s)) as [|todo] eqn:Htodo; [lia|].
  destruct (retry_loop_last_run W (_format_command command serial) serial
              (timeout_used tmo s) (retry_attempts s) todo 0 None s ltac:(lia))
    as (r & k & s1 & Hloop & Hsp & Hlast).
  exists r, k, s1. eexists. split.
  { unfold execute_command_with, bind, gets, ret, history_append, modify.
    fold (timeout_used tmo s). rewrite Htodo, Hloop. reflexivity. }
  cbn [spawned]. split; [exact Hsp|]. split; [exact Hlast|].
  destruct Hlast as (s_k & Hk & _ & _ & Hrun).
  destruct (run_command_reports _ _ _ _ _ _ _ Hrun) as [Hrep _].
  rewrite Hk in Hrep. exact Hrep.
Qed.

(** [execute_command] with a screenshot, step by step. *)
Lemma execute_with_shot_eq (W : World) (capture : M Runner (option string))
    (command serial : string) (tmo : option Z) (s : Runner) :
  execute_command_with W (Some capture) command serial tmo s
  = match retry_loop W (_format_command command serial) serial (timeout_used tmo s)
            (retry_attempts s) (Z.to_nat (retry_attempts s)) 0 None s with
    | (Ok result, s1) =>
        match capture s1 with
        | (Ok path, s2) =>
            match result with
            | Some r =>
                (history_append (set_screenshot_path path r)
                 >> ret (set_screenshot_path path r)) s2
            | None => (Raise (UnboundLocalError "result"), s2)
            end
        | (Raise e, s2) => (Raise e, s2)
        end
    | (Raise e, s1) => (Raise e, s1)
    end.
Proof.
  unfold execute_command_with, bind, gets. fold (timeout_used tmo s).
  destruct (retry_loop _ _ _ _ _ _ _ _ s) as [[result|e] s1]; [|reflexivity].
  destruct (capture s1) as [[path|e] s2]; [|reflexivity].
  destruct result; reflexivity.
Qed.

(** What any call of [execute_command] adds to the history, and that the
    result it returns, if any, is the entry added last. *)
Lemma execute_command_history (W : World) (command serial : string) (tmo : option Z)
    (capture : bool) (s : Runner) (res : Res CommandResult) (s' : Runner) :
  execute_command W command serial tmo capture s = (res, s') ->
  exists extra,
    command_history s' = (command_history s ++ extra)%list
    /\ Forall result_ok extra
    /\ forall r, res = Ok r -> result_ok r /\ last extra = Some r.
Proof.
  unfold execute_command. destruct capture.
  - rewrite execute_with_shot_eq.
    destruct (Z_lt_le_dec (retry_attempts s) 1) as [Hlt|Hge].
    + replace (Z.to_nat (retry_attempts s)) with 0%nat by lia.
      cbn [retry_loop]. unfold ret at 1.
      destruct (capture_screenshot_spec W serial s)
        as (v & s2 & Hcap & _ & _ & steps & Hh & Hok & _).
      rewrite Hcap. intros Heq. injection Heq as <- <-.
      exists steps. split; [exact Hh|]. split; [exact Hok|]. discriminate.
    + destruct (Z.to_nat (retry_attempts s)) as [|todo] eqn:Htodo; [lia|].
      destruct (retry_loop_spec W (_format_command command serial) serial
                  (timeout_used tmo s) (retry_attempts s) todo 0 None s ltac:(lia))
        as (r & k & s1 & Hloop & (Ht & Hr & Hh1) & Hlr & _).
      rewrite Hloop.
      destruct (capture_screenshot_spec W serial s1)
        as (v & s2 & Hcap & _ & _ & steps & Hh & Hok & _).
      rewrite Hcap. unfold bind, history_append, modify, ret.
      intros Heq. injection Heq as <- <-. cbn [command_history].
      exists (steps ++ [set_screenshot_path v r])%list.
      assert (Hr_ok : result_ok (set_screenshot_path v r)).
      { unfold loop_result in Hlr. unfold result_ok in *. simpl. tauto. }
      split; [rewrite Hh, Hh1, app_assoc; reflexivity|].
      split; [apply Forall_app; split; [exact Hok | repeat constructor; exact Hr_ok]|].
      intros r0 Heq. injection Heq as <-. split; [exact Hr_ok | apply last_snoc].
  - destruct (Z_lt_le_dec (retry_attempts s) 1) as [Hlt|Hge].
    + rewrite execute_plain_unbound by exact Hlt.
      intros Heq. injection Heq as <- <-.
      exists []. rewrite app_nil_r. split; [reflexivity|]. split; [constructor|].
      discriminate.
    + destruct (execute_plain_spec W command serial tmo s Hge)
        as (r & k & s1 & He & _ & _ & Hh & Hlr & _).
      rewrite He. intros Heq. injection Heq as <- <-. exists [r].
      assert (Hr_ok : result_ok r) by (unfold loop_result in Hlr; tauto).
      split; [exact Hh|]. split; [repeat constructor; exact Hr_ok|].
      intros r0 Heq. injection Heq as <-. split; [exact Hr_ok | reflexivity].
Qed.

(** C1, as the code has it: with [retry_attempts = 2] a call of
    [execute_command] appends exactly one entry to the history, the result
    it returns, and that is the result of the run it made last: the
    result [_run_command] gave for the last process spawned, holding the
    output and the return code of that process.  An always-failing
    command is run twice and leaves one entry with [success = false]; a
    command failing once then succeeding is run twice and leaves one entry
    with [success = true]; after a success no further attempt is made. *)
Theorem execute_appends_final_result (W : World) (command serial : string)
    (tmo : option Z) (s : Runner) :
  retry_attempts s = 2%Z ->
  exists r s',
    execute_command W command serial tmo false s = (Ok r, s')
    /\ command_history s' = (command_history s ++ [r])%list
    /\ (exists k s1,
          spawned s' = (spawned s + S k)%nat
          /\ last_run W (_format_command command serial) serial (timeout_used tmo s)
               s k r s1
          /\ reports (proc W (spawned s + k) (_format_command command serial)
                        (timeout_used tmo s))
               (_format_command command serial) serial (timeout_used tmo s) r)
    /\ (failing (proc W (spawned s) (_format_command command serial)
                   (timeout_used tmo s)) = true ->
        failing (proc W (S (spawned s)) (_format_command command serial)
                   (timeout_used tmo s)) = true ->
        success r = false /\ spawned s' = (spawned s + 2)%nat)
    /\ (failing (proc W (spawned s) (_format_command command serial)
                   (timeout_used tmo s)) = true ->
        failing (proc W (S (spawned s)) (_format_command command serial)
                   (timeout_used tmo s)) = false ->
        success r = true /\ spawned s' = (spawned s + 2)%nat)
    /\ (failing (proc W (spawned s) (_format_command command serial)
                   (timeout_used tmo s)) = false ->
        success r = true /\ spawned s' = (spawned s + 1)%nat).
Proof.
  intros H2.
  destruct (execute_plain_spec W command serial tmo s ltac:(lia))
    as (r & k & s' & He & _ & _ & Hh & Hlr & Hwhy).
  exists r, s'. split; [exact He|]. split; [exact Hh|].
  split.
  { destruct (execute_plain_last_run W command serial tmo s ltac:(lia))
      as (r2 & k2 & s1 & s2 & He2 & Hsp2 & Hlast & Hrep).
    rewrite He in He2. injection He2 as <- <-. exists k2, s1. auto. }
  rewrite H2 in Hlr, Hwhy. change (Z.to_nat 2) with 2%nat in Hlr, Hwhy.
  destruct Hlr as (Hk & Hsp & _ & _ & Hsucc & _ & _ & Hall).
  assert (Hk' : k = 0%nat \/ k = 1%nat) by lia.
  destruct Hk' as [-> | ->].
  - rewrite Nat.add_0_r in Hsucc.
    assert (Hstop : success r = true) by (destruct Hwhy as [Hs|Hs]; [exact Hs | lia]).
    rewrite Hstop in Hsucc.
    split; [|split]; intros Hf; try intros Hf'; try (rewrite Hf in Hsucc; discriminate).
    split; [exact Hstop | lia].
  - replace (spawned s + 1)%nat with (S (spawned s)) in Hsucc by lia.
    specialize (Hall 0%nat ltac:(lia)). rewrite Nat.add_0_r in Hall.
    split; [|split]; intros Hf; try intros Hf'; try congruence.
    + rewrite Hf' in Hsucc. split; [exact Hsucc | lia].
    + rewrite Hf' in Hsucc. split; [exact Hsucc | lia].
Qed.

(** A concrete call: the always-failing command is run twice and leaves one
    entry, the result of the second run. *)
Lemma execute_appends_final_result_witness :
  exists r s',
    execute_command always_failing "shell ls" "emulator-5554" None false
      (CommandRunner.init 30 2) = (Ok r, s')
    /\ command_history s' = [r] /\ success r = false /\ spawned s' = 2%nat
    /\ stderr r = "error: device offline" /\ return_code r = 1%Z.
Proof.
  destruct (execute_appends_final_result always_failing "shell ls" "emulator-5554"
              None (CommandRunner.init 30 2) eq_refl)
    as (r & s' & He & Hh & (k & s1 & _ & _ & Hrep) & Hff & _).
  exists r, s'. split; [exact He|]. split; [exact Hh|].
  destruct (Hff eq_refl eq_refl) as [Hs Hsp].
  split; [exact Hs|]. split; [exact Hsp|].
  destruct Hrep as (_ & _ & _ & _ & Hrc & _ & Herr & _).
  split; [exact Herr | exact Hrc].
Defined.

(** C1 as stated fails: the always-failing command is attempted twice but
    the history grows by one entry, not by one entry per attempt. *)
Lemma history_not_per_attempt :
  ~ history_per_attempt always_failing "shell ls" "emulator-5554" None
      (CommandRunner.init 30 2).
Proof.
  unfold history_per_attempt. intros H.
  destruct (execute_command always_failing "shell ls" "emulator-5554" None false
              (CommandRunner.init 30 2)) as [[r|e] s'] eqn:He.
  - specialize (H r s' eq_refl).
    vm_compute in He. injection He as <- <-. vm_compute in H. discriminate.
  - vm_compute in He. discriminate.
Qed.

(** C2: an attempt whose process is still running when the timeout [N] is
    over kills the process, drains it, and gives the synthetic failure with
    [success = false], [return_code = -1] and [stderr] naming [N]; and when
    every run of the command exceeds the timeout, that is the result
    [execute_command] returns, [N] being the timeout it used. *)
Theorem timeout_gives_synthetic_failure (W : World) (command serial : string)
    (tmo : option Z) (s : Runner) :
  (forall N,
     proc W (spawned s) command N = StillRunning ->
     exists r s',
       _run_command W command serial N s = (Ok r, s')
       /\ success r = false /\ return_code r = (-1)%Z
       /\ stderr r = "Command timeout after " +:+ PyStr.str_of_int N +:+ " seconds"
       /\ trace s' = (trace s ++ [Spawn command N; Kill (spawned s);
                                  Communicate (spawned s)])%list)
  /\ ((1 <= retry_attempts s)%Z ->
      (forall i, proc W i (_format_command command serial) (timeout_used tmo s)
                 = StillRunning) ->
      exists r s',
        execute_command W command serial tmo false s = (Ok r, s')
        /\ success r = false /\ return_code r = (-1)%Z
        /\ stderr r = "Command timeout after "
                      +:+ PyStr.str_of_int (timeout_used tmo s) +:+ " seconds"
        /\ exists t pid,
             trace s' = (t ++ [Spawn (_format_command command serial) (timeout_used tmo s);
                               Kill pid; Communicate pid])%list).
Proof.
  split.
  - intros N Hhang.
    destruct (run_command_spec W command serial N s)
      as (r & s' & Hrun & _ & _ & _ & _ & _ & Hsyn & Hto & _).
    exists r, s'. split; [exact Hrun|].
    rewrite Hhang in Hsyn. destruct (Hsyn eq_refl) as [Hs Hrc].
    destruct (Hto Hhang) as [He Ht]. auto.
  - intros Hre Hhang.
    destruct (execute_plain_spec W command serial tmo s Hre)
      as (r & k & s' & He & _ & _ & _ & Hlr & _).
    exists r, s'. split; [exact He|].
    destruct Hlr as (_ & _ & _ & _ & Hsucc & Hsyn & Hto & _).
    rewrite Hhang in Hsucc, Hsyn. destruct (Hto (Hhang _)) as [Herr [t Ht]].
    split; [exact Hsucc|]. split; [exact (Hsyn eq_refl)|]. split; [exact Herr|].
    exists t, (spawned s + k)%nat. exact Ht.
Qed.

(** A concrete call: a command that never ends, with the default timeout
    of 30 seconds. *)
Lemma timeout_gives_synthetic_failure_witness :
  exists r s',
    execute_command hangs "shell sleep 100" "emulator-5554" None false
      (CommandRunner.init 30 2) = (Ok r, s')
    /\ success r = false /\ return_code r = (-1)%Z
    /\ stderr r = "Command timeout after 30 seconds".
Proof.
  destruct (timeout_gives_synthetic_failure hangs "shell sleep 100" "emulator-5554"
              None (CommandRunner.init 30 2)) as [_ H].
  destruct (H ltac:(simpl; lia) (fun _ => eq_refl))
    as (r & s' & He & Hs & Hrc & Herr & _).
  exists r, s'. auto.
Defined.

(** C3: every result [_run_command] makes has [success] exactly when the
    return code is 0, the results made up on timeout or on an error have
    [success = false] and [return_code = -1], and so has every result
    [execute_command] returns or stores in the history. *)
Theorem success_iff_return_code_zero (W : World) (command serial : string)
    (tmo : option Z) (capture : bool) (s : Runner) :
  (forall N, exists r s',
     _run_command W command serial N s = (Ok r, s')
     /\ success r = (return_code r =? 0)%Z
     /\ (synthetic (proc W (spawned s) command N) = true ->
         success r = false /\ return_code r = (-1)%Z))
  /\ (Forall result_ok (command_history s) ->
      forall res s',
        execute_command W command serial tmo capture s = (res, s') ->
        Forall result_ok (command_history s')
        /\ forall r, res = Ok r -> success r = (return_code r =? 0)%Z).
Proof.
  split.
  - intros N.
    destruct (run_command_spec W command serial N s)
      as (r & s' & Hrun & _ & _ & _ & _ & Hok & Hsyn & _).
    exists r, s'. auto.
  - intros Hhist res s' He.
    destruct (execute_command_history W command serial tmo capture s res s' He)
      as (extra & Hh & Hok & Hres).
    split.
    + rewrite Hh. apply Forall_app. auto.
    + intros r Hr. apply Hres. exact Hr.
Qed.

(** A concrete call, from the empty history. *)
Lemma success_iff_return_code_zero_witness :
  Forall result_ok
    (command_history
       (execute_command fails_once "shell ls" "emulator-5554" None true
          (CommandRunner.init 30 2)).2).
Proof.
  destruct (success_iff_return_code_zero fails_once "shell ls" "emulator-5554"
              None true (CommandRunner.init 30 2)) as [_ H].
  exact (proj1 (H (Forall_nil_2 _) _ _ (surjective_pairing _))).
Defined.

(** C7, as the code has it: [capture_screenshot] never raises; it runs
    capture, pull and removal in this order; a failed capture or a failed
    pull ends the chain with no path; after a successful pull the path is
    returned whatever the removal gives. *)
Theorem capture_screenshot_chain (W : World) (serial : string) (s : Runner) :
  exists v s' steps,
    capture_screenshot W serial s = (Ok v, s')
    /\ command_history s' = (command_history s ++ steps)%list
    /\ ((1 <= retry_attempts s)%Z ->
        map CommandRunner.command steps
        = take (length steps) (chain_commands W serial s)
        /\ chain_outcome steps (screenshot_path_of W serial s) v).
Proof.
  destruct (capture_screenshot_spec W serial s)
    as (v & s' & Hcap & _ & _ & steps & Hh & _ & _ & Hchain).
  exists v, s', steps. auto.
Qed.

(** A concrete call: the pull succeeds and the removal fails. *)
Lemma capture_screenshot_chain_witness :
  (1 <= retry_attempts (CommandRunner.init 30 2))%Z
  /\ exists v s' steps,
       capture_screenshot rm_fails "emulator-5554" (CommandRunner.init 30 2) = (Ok v, s')
       /\ command_history s' = (command_history (CommandRunner.init 30 2) ++ steps)%list
       /\ map CommandRunner.command steps
          = take (length steps)
              (chain_commands rm_fails "emulator-5554" (CommandRunner.init 30 2))
       /\ chain_outcome steps
            (screenshot_path_of rm_fails "emulator-5554" (CommandRunner.init 30 2)) v.
Proof.
  split; [simpl; lia|].
  destruct (capture_screenshot_chain rm_fails "emulator-5554" (CommandRunner.init 30 2))
    as (v & s' & steps & Hcap & Hh & Hchain).
  exists v, s', steps. split; [exact Hcap|]. split; [exact Hh|].
  apply Hchain. simpl. lia.
Defined.

(** C7 as stated fails: when the removal on the device fails, the path is
    returned all the same. *)
Lemma removal_failure_keeps_path :
  ~ any_failure_gives_no_path rm_fails "emulator-5554" (CommandRunner.init 30 2).
Proof.
  unfold any_failure_gives_no_path. intros H.
  destruct (capture_screenshot rm_fails "emulator-5554" (CommandRunner.init 30 2))
    as [[v|e] s'] eqn:He.
  - specialize (H v s' (command_history s') eq_refl eq_refl).
    vm_compute in He. injection He as <- <-.
    assert (Hnone : Some "/tmp/screenshot_emulator-5554_20250101_120000.png" = None).
    { apply H. vm_compute. do 2 apply Exists_cons_tl. apply Exists_cons_hd. reflexivity. }
    discriminate.
  - vm_compute in He. discriminate.
Qed.

End RunnerProps.

(** ** emulator_manager.py *)

Module ManagerProps.

Import EmulatorManager ManagerVocab.

(** *** Rewriting the configuration *)

(** [_configure_avd], by what is found on the disk. *)
Lemma configure_avd_eq (W : World) (name : string) (s : Manager) :
  _configure_avd W name s
  = match disk W (calls s) (files s) !! config_file W name with
    | None => (Ok tt, s)
    | Some text =>
        (Ok tt,
         set_trace (trace s ++ [FileWrite (config_file W name)])
           (set_files
              (<[config_file W name :=
                   writelines (apply_updates (config_updates s) (readlines text))]>
                 (files s)) s))
    end.
Proof.
  unfold _configure_avd, bind, gets.
  destruct (disk W (calls s) (files s) !! config_file W name); reflexivity.
Qed.

Lemma replaced_keys_cons (updates : list (string * string)) (line : string)
    (rest : list string) :
  replaced_keys updates (line :: rest)
  = match config_key line with
    | Some key =>
        match dict_get updates key with
        | Some _ => key :: replaced_keys updates rest
        | None => replaced_keys updates rest
        end
    | None => replaced_keys updates rest
    end.
Proof.
  unfold replaced_keys. cbn [omap list_omap].
  destruct (config_key line) as [key|]; [|reflexivity].
  destruct (dict_get updates key) as [v|] eqn:Hget.
  - rewrite filter_cons_True by (rewrite Hget; eauto). reflexivity.
  - rewrite filter_cons_False by (rewrite Hget; intros [? ?]; discriminate).
    reflexivity.
Qed.

Lemma update_lines_acc (updates : list (string * string)) (lines : list string) :
  forall (acc : list string) (keys : gset string),
    update_lines updates lines acc keys
    = ((acc ++ map (merged_line updates) lines)%list,
       list_to_set (replaced_keys updates lines) ∪ keys).
Proof.
  induction lines as [|line rest IH]; intros acc keys.
  - cbn [update_lines map]. rewrite app_nil_r. f_equal. 
    unfold replaced_keys. cbn. set_solver.
  - rewrite replaced_keys_cons. cbn [update_lines map].
    unfold merged_line at 1, config_key, entry.
    destruct (PyStr.contains "=" line).
    + destruct (dict_get updates (PyStr.strip (hd EmptyString (PyStr.split "=" line))))
        as [v|] eqn:Hget; rewrite IH, <- app_assoc; cbn [app fst snd]; f_equal.
      set_solver.
    + rewrite IH, <- app_assoc. reflexivity.
Qed.
Lemma add_missing_acc (items : list (string * string)) (keys : gset string) :
  forall acc : list string,
    add_missing items keys acc
    = (acc ++ map entry (filter (fun kv => kv.1 ∉ keys) items))%list.
Proof.
  induction items as [|[key value] rest IH]; intros acc; cbn [add_missing].
  - rewrite app_nil_r. reflexivity.
  - destruct (decide (key ∈ keys)) as [Hin|Hnin].
    + rewrite filter_cons_False by (simpl; tauto). apply IH.
    + rewrite filter_cons_True by exact Hnin. rewrite IH, <- app_assoc. reflexivity.
Qed.

Lemma dict_get_elem (d : list (string * string)) (kv : string * string) :
  kv ∈ d -> is_Some (dict_get d kv.1).
Proof.
  induction d as [|[k v] d IH]; intros Hin.
  - inversion Hin.
  - cbn [dict_get]. destruct (decide (k = kv.1)); [eauto|].
    apply IH. inversion Hin; subst; [simpl in *; congruence | assumption].
Qed.

Lemma filter_ext_elem {A : Type} (P Q : A -> Prop)
    `{forall x, Decision (P x)} `{forall x, Decision (Q x)} (l : list A) :
  (forall x, x ∈ l -> (P x <-> Q x)) -> filter P l = filter Q l.
Proof.
  induction l as [|x l IH]; intros Hext; [reflexivity|].
  assert (Hl : filter P l = filter Q l).
  { apply IH. intros y Hy. apply Hext. now apply list_elem_of_further. }
  destruct (decide (P x)) as [HP|HP].
  - rewrite (filter_cons_True P) by exact HP.
    rewrite (filter_cons_True Q) by (apply Hext; [apply list_elem_of_here | exact HP]).
    now rewrite Hl.
  - rewrite (filter_cons_False P) by exact HP.
    rewrite (filter_cons_False Q)
      by (intros HQ; apply HP, Hext; [apply list_elem_of_here | exact HQ]).
    exact Hl.
Qed.

(** The lines written are the lines read, each replaced by its override
    where it has one, followed by the overrides whose key no line has. *)
Lemma apply_updates_eq (updates : list (string * string)) (lines : list string) :
  apply_updates updates lines
  = (map (merged_line updates) lines
     ++ map entry (filter (fun kv => kv.1 ∉ omap config_key lines) updates))%list.
Proof.
  unfold apply_updates. rewrite update_lines_acc, add_missing_acc. cbn [app].
  f_equal. f_equal. apply filter_ext_elem. intros kv Hkv.
  unfold replaced_keys.
  rewrite not_elem_of_union, elem_of_list_to_set, list_elem_of_filter.
  pose proof (dict_get_elem updates kv Hkv) as Hsome.
  split; [|set_solver]. intros [Hn _] Hin. apply Hn. auto.
Qed.


Lemma dict_get_Some_elem (d : list (string * string)) (k v : string) :
  dict_get d k = Some v -> (k, v) ∈ d.
Proof.
  induction d as [|[k0 v0] d IH]; cbn [dict_get]; [discriminate|].
  destruct (decide (k0 = k)) as [->|Hne].
  - intros [= ->]. apply list_elem_of_here.
  - intros H. apply list_elem_of_further, IH, H.
Qed.

(** *** Reading back what was written *)

Lemma join_empty_cons (p : string) (ps : list string) :
  PyStr.join "" (p :: ps) = p +:+ PyStr.join "" ps.
Proof.
  destruct ps as [|p' ps]; cbn [PyStr.join].
  - now rewrite string_app_nil_r.
  - reflexivity.
Qed.

Lemma is_line_cons (a : ascii) (l : string) :
  l <> EmptyString ->
  is_line (String a l) = negb (bool_decide (a = ascii_of_nat 10)) && is_line l.
Proof. destruct l; [congruence | reflexivity]. Qed.

Lemma is_line_nonempty (l : string) : is_line l = true -> l <> EmptyString.
Proof. destruct l; [discriminate | discriminate]. Qed.

Lemma readlines_line_app (l rest : string) :
  is_line l = true -> readlines (l +:+ rest) = l :: readlines rest.
Proof.
  induction l as [|a l IH]; [discriminate|]. intros Hl.
  rewrite string_app_cons. cbn [readlines].
  destruct l as [|b l].
  - cbn [is_line] in Hl. apply bool_decide_eq_true in Hl.
    rewrite decide_True by exact Hl. reflexivity.
  - rewrite is_line_cons in Hl by discriminate.
    apply andb_true_iff in Hl as [Ha Hl].
    apply negb_true_iff, bool_decide_eq_false in Ha.
    rewrite decide_False by exact Ha. rewrite (IH Hl). reflexivity.
Qed.

Lemma readlines_writelines (ls : list string) :
  Forall (fun l => is_line l = true) ls -> readlines (writelines ls) = ls.
Proof.
  unfold writelines. induction 1 as [|l ls Hl _ IH]; [reflexivity|].
  rewrite join_empty_cons, readlines_line_app by exact Hl. now rewrite IH.
Qed.

Lemma readlines_nonempty (a : ascii) (t : string) : readlines (String a t) <> [].
Proof.
  cbn [readlines]. destruct (decide (a = ascii_of_nat 10)); [discriminate|].
  destruct (readlines t); discriminate.
Qed.

Lemma readlines_terminated (text : string) :
  terminated text = true -> Forall (fun l => is_line l = true) (readlines text).
Proof.
  induction text as [|a t IH]; intros Ht; [constructor|].
  cbn [readlines]. destruct (decide (a = ascii_of_nat 10)) as [Ha|Ha].
  - constructor; [cbn; now apply bool_decide_eq_true|].
    destruct t as [|b t]; [constructor | apply IH; exact Ht].
  - destruct t as [|b t].
    + cbn in Ht. apply bool_decide_eq_true in Ht. contradiction.
    + specialize (IH Ht). pose proof (readlines_nonempty b t) as Hne.
      destruct (readlines (String b t)) as [|l ls]; [contradiction|].
      inversion IH as [|? ? Hl Hls]; subst. constructor; [|exact Hls].
      rewrite is_line_cons by (now apply is_line_nonempty).
      rewrite Hl, bool_decide_eq_false_2 by exact Ha. reflexivity.
Qed.

Lemma merged_line_is_line (updates : list (string * string)) (line : string) :
  written_as_lines updates -> is_line line = true ->
  is_line (merged_line updates line) = true.
Proof.
  intros Hu Hl. unfold merged_line.
  destruct (config_key line) as [key|]; [|exact Hl].
  destruct (dict_get updates key) as [v|] eqn:Hv; [|exact Hl].
  apply Hu. now apply dict_get_Some_elem.
Qed.

Lemma apply_updates_lines (updates : list (string * string)) (lines : list string) :
  written_as_lines updates ->
  Forall (fun l => is_line l = true) lines ->
  Forall (fun l => is_line l = true) (apply_updates updates lines).
Proof.
  intros Hu Hl. rewrite apply_updates_eq. apply Forall_app. split.
  - rewrite Forall_forall in Hl. apply Forall_forall. intros l Hin.
    apply list_elem_of_fmap in Hin as (l0 & -> & Hin).
    apply merged_line_is_line; [exact Hu | apply Hl, Hin].
  - apply Forall_forall. intros l Hin.
    apply list_elem_of_fmap in Hin as (kv & -> & Hin).
    apply list_elem_of_filter in Hin as [_ Hin]. apply Hu, Hin.
Qed.

(** The lines of the text written for a configuration that ends with the
    line end are the lines [apply_updates] gave. *)
Lemma readlines_written (updates : list (string * string)) (text : string) :
  terminated text = true -> written_as_lines updates ->
  readlines (writelines (apply_updates updates (readlines text)))
  = apply_updates updates (readlines text).
Proof.
  intros Ht Hu. apply readlines_writelines, apply_updates_lines; [exact Hu|].
  now apply readlines_terminated.
Qed.

Lemma written_as_lines_init (files : gmap string string) :
  written_as_lines (config_updates (init files)).
Proof.
  intros kv Hin. unfold config_updates in Hin.
  repeat (apply elem_of_cons in Hin as [->|Hin]; [vm_compute; reflexivity|]).
  inversion Hin.
Qed.




(** *** Calls that reach the world *)

Lemma bind_eq {S A B : Type} (c : M S A) (k : A -> M S B) (s : S) :
  bind c k s = match c s with
               | (Ok a, s') => k a s'
               | (Raise e, s') => (Raise e, s')
               end.
Proof. reflexivity. Qed.

Lemma try_except_eq {S A : Type} (c : M S A) (h : Exc -> M S A) (s : S) :
  try_except c h s = match c s with
                     | (Ok a, s') => (Ok a, s')
                     | (Raise e, s') => h e s'
                     end.
Proof. reflexivity. Qed.

Lemma subprocess_run_eq (W : World) (argv : list string) (t : option Z) (s : Manager) :
  subprocess_run W argv t s
  = match run W (calls s) argv with
    | Completed rc out err => (Ok (rc, out, err), after_call (Run argv t) s)
    | Raised e => (Raise e, after_call (Run argv t) s)
    end.
Proof.
  unfold subprocess_run, next_call, emit, modify, bind, ret, raise, after_call. simpl.
  destruct (run W (calls s) argv); reflexivity.
Qed.

Lemma subprocess_Popen_eq (W : World) (argv : list string) (s : Manager) :
  subprocess_Popen W argv s
  = match spawn W (calls s) argv with
    | Ok pid => (Ok pid, after_call (Popen argv) s)
    | Raise e => (Raise e, after_call (Popen argv) s)
    end.
Proof.
  unfold subprocess_Popen, next_call, emit, modify, bind, ret, raise, after_call. simpl.
  destruct (spawn W (calls s) argv); reflexivity.
Qed.

Lemma supported_dec (api_level : Z) :
  negb (bool_decide (api_level ∈ SUPPORTED_API_LEVELS)) = false
  <-> api_level ∈ SUPPORTED_API_LEVELS.
Proof.
  rewrite negb_false_iff, bool_decide_eq_true. reflexivity.
Qed.

(** *** Provisioning the image *)

(** [download_system_image] for a supported version, by the answers of the
    world to its three invocations. *)
Lemma download_system_image_eq (W : World) (api_level : Z) (s : Manager) :
  api_level ∈ SUPPORTED_API_LEVELS ->
  download_system_image W api_level s
  = match spawn W (calls s) ["yes"] with
    | Raise _ => (Ok false, after_call (Popen ["yes"]) s)
    | Ok _ =>
        let s1 := after_call (Popen ["yes"]) s in
        match run W (calls s1) (licence_argv W) with
        | Raised _ => (Ok false, after_call (Run (licence_argv W) (Some 30)) s1)
        | Completed _ _ _ =>
            let s2 := after_call (Run (licence_argv W) (Some 30)) s1 in
            (Ok (reports_installed (run W (calls s2) (install_argv W api_level))),
             after_call (Run (install_argv W api_level) (Some 600)) s2)
        end
    end.
Proof.
  intros Hsup. unfold download_system_image.
  apply supported_dec in Hsup. rewrite Hsup.
  rewrite try_except_eq, bind_eq, subprocess_Popen_eq.
  destruct (spawn W (calls s) ["yes"]) as [pid|e]; [|reflexivity].
  cbv zeta. rewrite bind_eq, subprocess_run_eq.
  fold (licence_argv W).
  destruct (run W (calls (after_call (Popen ["yes"]) s)) (licence_argv W))
    as [rc1 o1 e1|e]; [|reflexivity].
  rewrite bind_eq, subprocess_run_eq. fold (install_argv W api_level).
  destruct (run W (calls (after_call (Run (licence_argv W) (Some 30))
                            (after_call (Popen ["yes"]) s)))
              (install_argv W api_level)) as [rc out err|e]; [|reflexivity].
  unfold reports_installed, ret.
  destruct (rc =? 0)%Z; [reflexivity|]. cbn [orb].
  destruct (PyStr.contains "already installed" (PyStr.lower err)); reflexivity.
Qed.

Lemma download_system_image_unsupported (W : World) (api_level : Z) (s : Manager) :
  api_level ∉ SUPPORTED_API_LEVELS ->
  download_system_image W api_level s = (Ok false, s).
Proof.
  intros Hn. unfold download_system_image.
  destruct (negb (bool_decide (api_level ∈ SUPPORTED_API_LEVELS))) eqn:Hb; [reflexivity|].
  apply supported_dec in Hb. contradiction.
Qed.

(** [download_system_image] never raises. *)
Lemma download_system_image_total (W : World) (api_level : Z) (s : Manager) :
  exists ok s', download_system_image W api_level s = (Ok ok, s').
Proof.
  destruct (decide (api_level ∈ SUPPORTED_API_LEVELS)) as [Hsup|Hn].
  - rewrite download_system_image_eq by exact Hsup.
    destruct (spawn W (calls s) ["yes"]) as [pid|e]; [|eauto].
    cbv zeta. destruct (run W _ (licence_argv W)); eauto.
  - rewrite download_system_image_unsupported by exact Hn. eauto.
Qed.




(** *** Creating a definition *)

(** C4: for a platform version outside the supported set [create_avd]
    returns false and does nothing at all; for a supported one it runs
    [download_system_image] first, returns false at once, from the state
    that left, when that fails, and only after its success invokes the
    creation of the definition. *)
Theorem create_avd_checks_version_then_image (W : World) (name : string)
    (api_level : Z) (device_type : string) (s : Manager) :
  (api_level ∉ SUPPORTED_API_LEVELS ->
   create_avd W name api_level device_type s = (Ok false, s))
  /\ (api_level ∈ SUPPORTED_API_LEVELS ->
      exists ok s1,
        download_system_image W api_level s = (Ok ok, s1)
        /\ (ok = false -> create_avd W name api_level device_type s = (Ok false, s1))
        /\ (ok = true ->
            exists res s' rest,
              create_avd W name api_level device_type s = (Ok res, s')
              /\ trace s' = (trace s1 ++ Run (create_argv W name api_level device_type)
                                            (Some 30) :: rest)%list)).
Proof.
  split.
  - intros Hn. unfold create_avd.
    destruct (negb (bool_decide (api_level ∈ SUPPORTED_API_LEVELS))) eqn:Hb; [reflexivity|].
    apply supported_dec in Hb. contradiction.
  - intros Hsup.
    destruct (download_system_image_total W api_level s) as (ok & s1 & Hrun).
    exists ok, s1. split; [exact Hrun|].
    unfold create_avd. pose proof (proj2 (supported_dec api_level) Hsup) as Hb.
    rewrite Hb, bind_eq, Hrun.
    split; intros ->; cbn [negb]; [reflexivity|].
    rewrite try_except_eq, bind_eq, subprocess_run_eq.
    fold (create_argv W name api_level device_type).
    destruct (run W (calls s1) (create_argv W name api_level device_type))
      as [rc out err|e].
    + destruct (rc =? 0)%Z.
      * rewrite bind_eq, configure_avd_eq.
        destruct (disk W _ _ !! config_file W name) as [text|].
        -- unfold ret. eexists _, _, _. split; [reflexivity|]. simpl.
           rewrite <- app_assoc. reflexivity.
        -- unfold ret. eexists _, _, []. split; reflexivity.
      * unfold ret. eexists _, _, []. split; reflexivity.
    + unfold ret. eexists _, _, []. split; reflexivity.
Qed.

(** Two concrete calls: version 32 is refused with nothing done; version
    34 is created after the provisioning. *)
Lemma create_avd_checks_version_then_image_witness :
  create_avd never_boots "dev_32" 32 "pixel_5" (init ∅) = (Ok false, init ∅)
  /\ exists s1,
       download_system_image boots_at_once 34 (init ∅) = (Ok true, s1)
       /\ exists res s' rest,
            create_avd boots_at_once "dev_34" 34 "pixel_5" (init ∅) = (Ok res, s')
            /\ trace s' = (trace s1 ++ Run (create_argv boots_at_once "dev_34" 34 "pixel_5")
                                          (Some 30) :: rest)%list.
Proof.
  split.
  - apply (create_avd_checks_version_then_image never_boots "dev_32" 32 "pixel_5" (init ∅)).
    unfold SUPPORTED_API_LEVELS. intros Hin.
    repeat (apply elem_of_cons in Hin as [Hin|Hin]; [discriminate|]).
    inversion Hin.
  - destruct (create_avd_checks_version_then_image boots_at_once "dev_34" 34 "pixel_5"
                (init ∅)) as [_ H].
    destruct H as (ok & s1 & Hrun & _ & Hok).
    { unfold SUPPORTED_API_LEVELS. set_solver. }
    assert (Htrue : ok = true).
    { pose proof Hrun as Hc. vm_compute in Hc. injection Hc as <- _. reflexivity. }
    subst ok. exists s1. split; [exact Hrun|]. apply Hok. reflexivity.
Defined.

(** *** Waiting for the boot *)

(** One round of [boot_loop], by the answers of the world. *)
Lemma boot_loop_step (W : World) (serial : string) (timeout : Z) (fuel : nat)
    (waited : Z) (s : Manager) :
  (waited < timeout)%Z ->
  boot_loop W serial timeout (S fuel) waited s
  = match run W (calls s) (getprop_argv serial) with
    | Raised e => (Raise e, after_call (Run (getprop_argv serial) (Some 5)) s)
    | Completed rc out err =>
        let s1 := after_call (Run (getprop_argv serial) (Some 5)) s in
        if boot_completed (Completed rc out err) then
          match run W (calls s1) (pm_argv serial) with
          | Raised e => (Raise e, after_call (Run (pm_argv serial) (Some 5)) s1)
          | Completed rc2 out2 err2 =>
              let s2 := after_call (Run (pm_argv serial) (Some 5)) s1 in
              if (rc2 =? 0)%Z then (Ok true, s2)
              else boot_loop W serial timeout fuel (waited + 3)%Z
                     (after_event (Sleep 3) s2)
          end
        else boot_loop W serial timeout fuel (waited + 3)%Z (after_event (Sleep 3) s1)
    end.
Proof.
  intros Hlt. cbn [boot_loop].
  apply Z.ltb_lt in Hlt. rewrite Hlt.
  rewrite bind_eq, subprocess_run_eq.
  fold (getprop_argv serial).
  destruct (run W (calls s) (getprop_argv serial)) as [rc out err|e]; [|reflexivity].
  cbv zeta. cbn [boot_completed].
  destruct ((rc =? 0)%Z && String.eqb (PyStr.strip out) "1").
  - rewrite !bind_eq, subprocess_run_eq. fold (pm_argv serial).
    destruct (run W _ (pm_argv serial)) as [rc2 out2 err2|e]; [|reflexivity].
    unfold ret at 1. destruct (rc2 =? 0)%Z; reflexivity.
  - rewrite bind_eq. unfold ret at 1. reflexivity.
Qed.

Lemma boot_loop_done (W : World) (serial : string) (timeout : Z) (fuel : nat)
    (waited : Z) (s : Manager) :
  (timeout <= waited)%Z ->
  boot_loop W serial timeout fuel waited s = (Ok false, s).
Proof.
  intros Hge. apply Z.ltb_ge in Hge.
  destruct fuel; cbn [boot_loop]; rewrite Hge; reflexivity.
Qed.

(** A wait that ends with true has seen both signals in its last round,
    after rounds that all left one of them unmet. *)
Lemma boot_loop_true (W : World) (serial : string) (timeout : Z) (fuel : nat) :
  forall (waited : Z) (s s' : Manager),
    boot_loop W serial timeout fuel waited s = (Ok true, s') ->
    exists n j,
      (waited + 3 * Z.of_nat n < timeout)%Z
      /\ unmet_attempts W serial (calls s) n j
      /\ boot_completed (run W j (getprop_argv serial)) = true
      /\ service_ready (run W (S j) (pm_argv serial)) = true.
Proof.
  induction fuel as [|fuel IH]; intros waited s s' Hrun.
  - cbn [boot_loop] in Hrun. destruct (waited <? timeout)%Z; discriminate.
  - destruct (Z_lt_le_dec waited timeout) as [Hlt|Hge];
      [|rewrite boot_loop_done in Hrun by exact Hge; discriminate].
    rewrite boot_loop_step in Hrun by exact Hlt.
    destruct (run W (calls s) (getprop_argv serial)) as [rc out err|e] eqn:Hprop;
      [|discriminate].
    cbv zeta in Hrun.
    destruct (boot_completed (Completed rc out err)) eqn:Hboot.
    + change (calls (after_call (Run (getprop_argv serial) (Some 5)) s))
        with (S (calls s)) in Hrun.
      destruct (run W (S (calls s)) (pm_argv serial)) as [rc2 out2 err2|e] eqn:Hpm;
        [|discriminate].
      destruct (rc2 =? 0)%Z eqn:Hrc.
      * exists 0%nat, (calls s). split; [lia|]. split; [constructor|].
        rewrite Hprop, Hpm. split; [exact Hboot | exact Hrc].
      * apply IH in Hrun. destruct Hrun as (n & j & Hn & Hun & Hb & Hs).
        exists (S n), j. split; [lia|]. split; [|split; assumption].
        apply unmet_service; rewrite ?Hprop, ?Hpm; auto.
    + apply IH in Hrun. destruct Hrun as (n & j & Hn & Hun & Hb & Hs).
      exists (S n), j. split; [lia|]. split; [|split; assumption].
      apply unmet_boot; rewrite ?Hprop; auto.
Qed.

(** Rounds that all leave a signal unmet, until the deadline is over, end
    the wait with false. *)
Lemma boot_loop_false (W : World) (serial : string) (timeout : Z) (n : nat) :
  forall (fuel : nat) (waited : Z) (s : Manager) (j : nat),
    unmet_attempts W serial (calls s) n j ->
    (timeout <= waited + 3 * Z.of_nat n)%Z ->
    (timeout - waited <= Z.of_nat fuel)%Z ->
    exists s', boot_loop W serial timeout fuel waited s = (Ok false, s').
Proof.
  induction n as [|n IH]; intros fuel waited s j Hun Hn Hfuel.
  - rewrite boot_loop_done by lia. eauto.
  - destruct (Z_lt_le_dec waited timeout) as [Hlt|Hge];
      [|rewrite boot_loop_done by exact Hge; eauto].
    destruct fuel as [|fuel]; [lia|].
    rewrite boot_loop_step by exact Hlt.
    inversion Hun as [|i n0 j0 Hc Hb Hrest|i n0 j0 Hb Hc Hs Hrest]; subst.
    + destruct (run W (calls s) (getprop_argv serial)) as [rc out err|e];
        [|discriminate].
      cbv zeta. rewrite Hb.
      apply (IH fuel (waited + 3)%Z _ j); [exact Hrest | lia | lia].
    + destruct (run W (calls s) (getprop_argv serial)) as [rc out err|e];
        [|discriminate].
      cbv zeta. rewrite Hb.
      change (calls (after_call (Run (getprop_argv serial) (Some 5)) s))
        with (S (calls s)).
      destruct (run W (S (calls s)) (pm_argv serial)) as [rc2 out2 err2|e];
        [|discriminate].
      cbn [service_ready] in Hs. rewrite Hs.
      apply (IH fuel (waited + 3)%Z _ j); [exact Hrest | lia | lia].
Qed.

(** The rounds allowed are enough: the wait ends with an answer, or with
    the exception one of its probes raised. *)
Lemma boot_loop_returns (W : World) (serial : string) (timeout : Z) (fuel : nat) :
  forall (waited : Z) (s : Manager),
    (timeout - waited <= Z.of_nat fuel)%Z ->
    (exists b s', boot_loop W serial timeout fuel waited s = (Ok b, s'))
    \/ (exists e s' i,
          boot_loop W serial timeout fuel waited s = (Raise e, s')
          /\ (run W i (getprop_argv serial) = Raised e
              \/ run W i (pm_argv serial) = Raised e)).
Proof.
  induction fuel as [|fuel IH]; intros waited s Hfuel.
  - rewrite boot_loop_done by lia. eauto.
  - destruct (Z_lt_le_dec waited timeout) as [Hlt|Hge];
      [|rewrite boot_loop_done by exact Hge; eauto].
    rewrite boot_loop_step by exact Hlt.
    destruct (run W (calls s) (getprop_argv serial)) as [rc out err|e] eqn:Hprop.
    + cbv zeta. destruct (boot_completed (Completed rc out err)).
      * destruct (run W _ (pm_argv serial)) as [rc2 out2 err2|e] eqn:Hpm.
        -- destruct (rc2 =? 0)%Z; [eauto|]. apply IH. lia.
        -- right. eauto 6.
      * apply IH. lia.
    + right. eauto 6.
Qed.

(** C5: [_wait_for_boot] returns true only if, after rounds that each left
    a signal unmet, one round begun before the deadline read the
    boot-completed property as 1 and had the package listing succeed; it
    returns false when the rounds leave a signal unmet until the deadline is
    over; and it always ends, with an answer or with the exception a probe
    raised.  The deadline is counted as the code counts it, 3 seconds for
    every round. *)
Theorem wait_for_boot_needs_both_signals (W : World) (serial : string) (timeout : Z)
    (s : Manager) :
  (forall s',
     _wait_for_boot W serial timeout s = (Ok true, s') ->
     exists n j,
       (3 * Z.of_nat n < timeout)%Z
       /\ unmet_attempts W serial (calls s) n j
       /\ boot_completed (run W j (getprop_argv serial)) = true
       /\ service_ready (run W (S j) (pm_argv serial)) = true)
  /\ (forall n j,
        unmet_attempts W serial (calls s) n j ->
        (timeout <= 3 * Z.of_nat n)%Z ->
        exists s', _wait_for_boot W serial timeout s = (Ok false, s'))
  /\ ((exists b s', _wait_for_boot W serial timeout s = (Ok b, s'))
      \/ (exists e s' i,
            _wait_for_boot W serial timeout s = (Raise e, s')
            /\ (run W i (getprop_argv serial) = Raised e
                \/ run W i (pm_argv serial) = Raised e))).
Proof.
  unfold _wait_for_boot. split; [|split].
  - intros s' Hrun. apply boot_loop_true in Hrun.
    destruct Hrun as (n & j & Hn & Hrest). exists n, j. split; [lia | exact Hrest].
  - intros n j Hun Hn. apply (boot_loop_false W serial timeout n _ _ _ j); [exact Hun|lia|lia].
  - apply boot_loop_returns. lia.
Qed.

(** Two concrete waits with the deadline of 120 seconds: a device that
    boots at once, and one that never reports the boot in 40 rounds. *)
Lemma wait_for_boot_needs_both_signals_witness :
  (exists n j,
     (3 * Z.of_nat n < 120)%Z
     /\ unmet_attempts boots_at_once "emulator-5554" 0 n j
     /\ boot_completed (run boots_at_once j (getprop_argv "emulator-5554")) = true
     /\ service_ready (run boots_at_once (S j) (pm_argv "emulator-5554")) = true)
  /\ exists s', _wait_for_boot never_boots "emulator-5554" 120 (init ∅) = (Ok false, s').
Proof.
  split.
  - destruct (wait_for_boot_needs_both_signals boots_at_once "emulator-5554" 120 (init ∅))
      as [Htrue _].
    eapply Htrue. vm_compute. reflexivity.
  - destruct (wait_for_boot_needs_both_signals never_boots "emulator-5554" 120 (init ∅))
      as (_ & Hfalse & _).
    apply (Hfalse 40%nat 40%nat); [|simpl; lia].
    change (calls (init ∅)) with 0%nat.
    repeat (apply unmet_boot; [reflexivity | reflexivity |]).
    apply unmet_none.
Defined.

(** *** Computations that leave the records alone *)

Lemma status_changes_app (t1 t2 : list Event) :
  status_changes (t1 ++ t2) = (status_changes t1 ++ status_changes t2)%list.
Proof.
  induction t1 as [|e t1 IH]; [reflexivity|].
  destruct e; cbn [app status_changes]; rewrite ?IH; reflexivity.
Qed.

Lemma quiet_refl (s : Manager) : quiet s s.
Proof. unfold quiet. auto. Qed.

Lemma quiet_trans (s1 s2 s3 : Manager) : quiet s1 s2 -> quiet s2 s3 -> quiet s1 s3.
Proof.
  unfold quiet. intros (He & Ho & Ha & Hc) (He' & Ho' & Ha' & Hc').
  rewrite He', Ho', Ha', Hc'. auto.
Qed.

Lemma Quiet_ret {A : Type} (a : A) : Quiet (ret a).
Proof. intros s. apply quiet_refl. Qed.

Lemma Quiet_raise {A : Type} (e : Exc) : Quiet (raise (A := A) e).
Proof. intros s. apply quiet_refl. Qed.

Lemma Quiet_get : Quiet get.
Proof. intros s. apply quiet_refl. Qed.

Lemma Quiet_gets {A : Type} (f : Manager -> A) : Quiet (gets f).
Proof. intros s. apply quiet_refl. Qed.

Lemma Quiet_bind {A B : Type} (c : M Manager A) (k : A -> M Manager B) :
  Quiet c -> (forall a, Quiet (k a)) -> Quiet (bind c k).
Proof.
  intros Hc Hk s. unfold bind. specialize (Hc s).
  destruct (c s) as [[a|e] s1]; [|exact Hc].
  eapply quiet_trans; [exact Hc | apply Hk].
Qed.

Lemma Quiet_try {A : Type} (c : M Manager A) (h : Exc -> M Manager A) :
  Quiet c -> (forall e, Quiet (h e)) -> Quiet (try_except c h).
Proof.
  intros Hc Hh s. unfold try_except. specialize (Hc s).
  destruct (c s) as [[a|e] s1]; [exact Hc|].
  eapply quiet_trans; [exact Hc | apply Hh].
Qed.

Lemma Quiet_emit (e : Event) :
  match e with StatusSet _ _ _ => False | _ => True end -> Quiet (emit e).
Proof.
  intros He s. unfold emit, modify, quiet. cbn.
  rewrite status_changes_app.
  destruct e; try contradiction; cbn; rewrite app_nil_r; auto.
Qed.

Lemma Quiet_next_call : Quiet next_call.
Proof. intros s. unfold quiet. cbn. auto. Qed.

Lemma Quiet_now (W : World) : Quiet (now W).
Proof. intros s. unfold quiet. cbn. auto. Qed.

Lemma Quiet_set_files (f : gmap string string) : Quiet (modify (set_files f)).
Proof. intros s. unfold quiet. cbn. auto. Qed.

Ltac quiet :=
  repeat match goal with
         | |- Quiet (bind _ _) => apply Quiet_bind; [|intros ?]
         | |- Quiet (try_except _ _) => apply Quiet_try; [|intros ?]
         | |- Quiet (ret _) => apply Quiet_ret
         | |- Quiet (raise _) => apply Quiet_raise
         | |- Quiet get => apply Quiet_get
         | |- Quiet (gets _) => apply Quiet_gets
         | |- Quiet (emit _) => apply Quiet_emit; exact I
         | |- Quiet next_call => apply Quiet_next_call
         | |- Quiet (now _) => apply Quiet_now
         | |- Quiet (modify (set_files _)) => apply Quiet_set_files
         | |- Quiet (match ?x with _ => _ end) => destruct x
         | |- Quiet _ => solve [auto]
         end.

Lemma Quiet_subprocess_run (W : World) (argv : list string) (t : option Z) :
  Quiet (subprocess_run W argv t).
Proof. unfold subprocess_run. quiet. Qed.

Lemma Quiet_subprocess_Popen (W : World) (argv : list string) :
  Quiet (subprocess_Popen W argv).
Proof. unfold subprocess_Popen. quiet. Qed.

Lemma Quiet_list_avds (W : World) : Quiet (list_avds W).
Proof. unfold list_avds. quiet. Qed.

Lemma Quiet_collect_devices (lines : list string) :
  forall devices, Quiet (collect_devices lines devices).
Proof.
  induction lines as [|line rest IH]; intros devices; cbn [collect_devices]; quiet.
Qed.

Lemma Quiet_get_connected_devices (W : World) : Quiet (_get_connected_devices W).
Proof.
  pose proof (Quiet_subprocess_run W) as Hrun.
  pose proof Quiet_collect_devices as Hcol.
  unfold _get_connected_devices. quiet.
Qed.

Lemma Quiet_new_device_loop (W : World) (before : list string) (timeout : Z)
    (fuel : nat) :
  forall waited, Quiet (new_device_loop W before timeout fuel waited).
Proof.
  pose proof (Quiet_get_connected_devices W) as Hdev.
  induction fuel as [|fuel IH]; intros waited; cbn [new_device_loop]; quiet.
Qed.

Lemma Quiet_boot_loop (W : World) (serial : string) (timeout : Z) (fuel : nat) :
  forall waited, Quiet (boot_loop W serial timeout fuel waited).
Proof.
  pose proof (Quiet_subprocess_run W) as Hrun.
  induction fuel as [|fuel IH]; intros waited; cbn [boot_loop]; quiet.
Qed.

Lemma Quiet_download_system_image (W : World) (api_level : Z) :
  Quiet (download_system_image W api_level).
Proof.
  pose proof (Quiet_subprocess_run W) as Hrun.
  pose proof (Quiet_subprocess_Popen W) as Hpopen.
  unfold download_system_image. quiet.
Qed.

Lemma Quiet_configure_avd (W : World) (name : string) : Quiet (_configure_avd W name).
Proof.
  unfold _configure_avd. apply Quiet_bind; [quiet|]. intros fs.
  destruct (fs !! config_file W name); quiet.
Qed.

Lemma Quiet_create_avd (W : World) (name : string) (api_level : Z) (device : string) :
  Quiet (create_avd W name api_level device).
Proof.
  pose proof (Quiet_subprocess_run W) as Hrun.
  pose proof (Quiet_download_system_image W) as Hdown.
  pose proof (Quiet_configure_avd W) as Hconf.
  unfold create_avd. quiet.
Qed.

(** *** Triples *)

Lemma Hoare_ret {A : Type} (P : Manager -> Prop) (a : A) (Q : A -> Manager -> Prop)
    (E : Manager -> Prop) :
  (forall s, P s -> Q a s) -> Hoare P (ret a) Q E.
Proof. intros H s HP. apply H. exact HP. Qed.

Lemma Hoare_bind {A B : Type} (P : Manager -> Prop) (c : M Manager A)
    (R : A -> Manager -> Prop) (k : A -> M Manager B) (Q : B -> Manager -> Prop)
    (E : Manager -> Prop) :
  Hoare P c R E -> (forall a, Hoare (R a) (k a) Q E) -> Hoare P (bind c k) Q E.
Proof.
  intros Hc Hk s HP. unfold bind. specialize (Hc s HP).
  destruct (c s) as [[a|e] s1]; [apply Hk; exact Hc | exact Hc].
Qed.

Lemma Hoare_try {A : Type} (P : Manager -> Prop) (c : M Manager A)
    (h : Exc -> M Manager A) (Q : A -> Manager -> Prop) (E' E : Manager -> Prop) :
  Hoare P c Q E' -> (forall e, Hoare E' (h e) Q E) -> Hoare P (try_except c h) Q E.
Proof.
  intros Hc Hh s HP. unfold try_except. specialize (Hc s HP).
  destruct (c s) as [[a|e] s1]; [exact Hc | apply Hh; exact Hc].
Qed.

Lemma Hoare_weaken {A : Type} (P P' : Manager -> Prop) (c : M Manager A)
    (Q Q' : A -> Manager -> Prop) (E E' : Manager -> Prop) :
  Hoare P' c Q' E' ->
  (forall s, P s -> P' s) -> (forall a s, Q' a s -> Q a s) -> (forall s, E' s -> E s) ->
  Hoare P c Q E.
Proof.
  intros Hc HP HQ HE s Hs. specialize (Hc s (HP s Hs)).
  destruct (c s) as [[a|e] s1]; auto.
Qed.

Lemma Hoare_quiet {A : Type} (P : Manager -> Prop) (c : M Manager A) :
  Quiet c -> Stable P -> Hoare P c (fun _ => P) P.
Proof.
  intros Hc HP s Hs. specialize (Hc s).
  destruct (c s) as [[a|e] s1]; exact (HP _ _ Hc Hs).
Qed.

Lemma Hoare_gets {A : Type} (P : Manager -> Prop) (f : Manager -> A)
    (E : Manager -> Prop) :
  Hoare P (gets f) (fun a s => P s /\ a = f s) E.
Proof. intros s HP. cbn. auto. Qed.

Lemma Hoare_modify (P Q : Manager -> Prop) (f : Manager -> Manager)
    (E : Manager -> Prop) :
  (forall s, P s -> Q (f s)) -> Hoare P (modify f) (fun _ => Q) E.
Proof. intros H s HP. cbn. auto. Qed.

Lemma Hoare_emit (P : Manager -> Prop) (e : Event) (E : Manager -> Prop) :
  match e with StatusSet _ _ _ => False | _ => True end ->
  Stable P -> Hoare P (emit e) (fun _ => P) E.
Proof.
  intros He HP s Hs. cbn. eapply HP; [|exact Hs].
  exact (Quiet_emit e He s).
Qed.

(** *** The invariant *)

Ltac stable :=
  let s := fresh "s" in
  let s' := fresh "s'" in
  intros s s' (He & Ho & Ha & Hc);
  unfold fresh_obj, starting_at, stopping_at, lifecycle_inv, table_ok, changes_ok;
  cbn [emulators objects allocated trace set_emulators];
  rewrite He, Ho, Ha, Hc; trivial.

Lemma Stable_inv : Stable lifecycle_inv.
Proof. stable. Qed.

Lemma Stable_fresh_obj (obj : nat) : Stable (fresh_obj obj).
Proof. stable. Qed.

Lemma Stable_starting_at (sr : string) (obj : nat) : Stable (starting_at sr obj).
Proof. stable. Qed.

Lemma Stable_stopping_at (sr : string) : Stable (stopping_at sr).
Proof. stable. Qed.

Lemma inv_init (files : gmap string string) : lifecycle_inv (init files).
Proof.
  unfold lifecycle_inv, table_ok, changes_ok. cbn.
  split; [split|constructor]; intros *; rewrite lookup_empty; discriminate.
Qed.

(** *** The writes to the records *)

Lemma changes_ok_snoc (s : Manager) (e : Event) :
  changes_ok s ->
  Forall (fun c => code_step c.1.2 c.2 = true) (status_changes [e]) ->
  Forall (fun c => code_step c.1.2 c.2 = true) (status_changes (trace s ++ [e])).
Proof.
  intros Hc He. rewrite status_changes_app. apply Forall_app. split; assumption.
Qed.

(** A new object is in status starting and in no entry of the table. *)
Lemma new_EmulatorInfo_spec (info : EmulatorInfo) (E : Manager -> Prop) :
  status info = starting ->
  Hoare lifecycle_inv (new_EmulatorInfo info) fresh_obj E.
Proof.
  intros Hst s [[Htab Hinj] Hch]. unfold new_EmulatorInfo, fresh_obj.
  unfold lifecycle_inv, table_ok, changes_ok. cbn.
  split; [split; [split|]|split; [|split]].
  - intros sr obj Hsr. destruct (Htab sr obj Hsr) as [Hlt (i & Hi & Hs)].
    split; [lia|]. exists i. split; [|exact Hs].
    rewrite lookup_insert_ne by lia. exact Hi.
  - exact Hinj.
  - apply changes_ok_snoc; [exact Hch | constructor].
  - lia.
  - exists info. split; [apply lookup_insert_eq | exact Hst].
  - intros sr Hsr. destruct (Htab sr _ Hsr) as [Hlt _]. lia.
Qed.

(** Entering the new object in the table. *)
Lemma enter_spec (sr : string) (obj : nat) (s : Manager) :
  fresh_obj obj s ->
  starting_at sr obj (set_emulators (<[sr := obj]> (emulators s)) s).
Proof.
  intros ([[Htab Hinj] Hch] & Hlt & (info & Hi & Hs) & Hfresh).
  unfold starting_at, lifecycle_inv, table_ok, changes_ok. cbn.
  split; [split; [split|]|split].
  - intros sr' obj' Hsr'. destruct (decide (sr = sr')) as [<-|Hne].
    + rewrite lookup_insert_eq in Hsr'. injection Hsr' as <-.
      split; [exact Hlt|]. exists info. auto.
    + rewrite lookup_insert_ne in Hsr' by exact Hne. apply (Htab sr' obj' Hsr').
  - intros sr1 sr2 obj' H1 H2.
    destruct (decide (sr = sr1)) as [<-|Hne1]; destruct (decide (sr = sr2)) as [<-|Hne2];
      trivial.
    + rewrite lookup_insert_eq in H1. rewrite lookup_insert_ne in H2 by exact Hne2.
      injection H1 as <-. destruct (Hfresh _ H2).
    + rewrite lookup_insert_eq in H2. rewrite lookup_insert_ne in H1 by exact Hne1.
      injection H2 as <-. destruct (Hfresh _ H1).
    + rewrite lookup_insert_ne in H1 by exact Hne1.
      rewrite lookup_insert_ne in H2 by exact Hne2. exact (Hinj _ _ _ H1 H2).
  - exact Hch.
  - apply lookup_insert_eq.
  - exists info. auto.
Qed.

(** The write of running, on a record in status starting. *)
Lemma set_status_running_spec (sr : string) (obj : nat) (E : Manager -> Prop) :
  Hoare (starting_at sr obj) (set_status obj running) (fun _ => lifecycle_inv) E.
Proof.
  intros s ([[Htab Hinj] Hch] & Hsr & (info & Hi & Hs)).
  unfold set_status. rewrite Hi.
  unfold lifecycle_inv, table_ok, changes_ok. cbn.
  split; [split|].
  - intros sr' obj' Hsr'. destruct (Htab sr' obj' Hsr') as [Hlt (i & Hi' & Hs')].
    split; [exact Hlt|]. destruct (decide (obj = obj')) as [<-|Hne].
    + exists (with_status running info). split; [apply lookup_insert_eq | right; reflexivity].
    + exists i. split; [|exact Hs']. rewrite lookup_insert_ne by exact Hne. exact Hi'.
  - exact Hinj.
  - apply changes_ok_snoc; [exact Hch|].
    cbn. constructor; [|constructor]. cbn. rewrite Hs. reflexivity.
Qed.

(** The write of stopped, on a record of the table. *)
Lemma set_status_stopped_spec (sr : string) (obj : nat) (E : Manager -> Prop) :
  Hoare (fun s => lifecycle_inv s /\ emulators s !! sr = Some obj)
    (set_status obj stopped) (fun _ => stopping_at sr) E.
Proof.
  intros s [[[Htab Hinj] Hch] Hsr].
  destruct (Htab sr obj Hsr) as [Hlt (info & Hi & Hs)].
  unfold set_status. rewrite Hi.
  unfold stopping_at, lifecycle_inv, table_ok, changes_ok. cbn.
  split; [split|].
  - intros sr' obj' Hsr'. apply lookup_delete_Some in Hsr' as [Hne Hsr'].
    destruct (Htab sr' obj' Hsr') as [Hlt' (i & Hi' & Hs')].
    split; [exact Hlt'|]. exists i. split; [|exact Hs'].
    rewrite lookup_insert_ne; [exact Hi'|].
    intros <-. apply Hne. exact (Hinj _ _ _ Hsr Hsr').
  - intros sr1 sr2 obj' H1 H2.
    apply lookup_delete_Some in H1 as [_ H1]. apply lookup_delete_Some in H2 as [_ H2].
    exact (Hinj _ _ _ H1 H2).
  - apply changes_ok_snoc; [exact Hch|].
    cbn. constructor; [|constructor]. cbn. destruct Hs as [-> | ->]; reflexivity.
Qed.

Lemma starting_at_inv (sr : string) (obj : nat) (s : Manager) :
  starting_at sr obj s -> lifecycle_inv s.
Proof. intros [H _]. exact H. Qed.

(** *** The calls *)

Lemma stop_emulator_keeps (W : World) (serial : string) : Keeps (stop_emulator W serial).
Proof.
  unfold Keeps, stop_emulator.
  apply Hoare_try with (E' := lifecycle_inv); [|intros e; apply Hoare_ret; auto].
  apply Hoare_bind with (R := fun _ => lifecycle_inv);
    [apply Hoare_quiet; [apply Quiet_subprocess_run | apply Stable_inv]|].
  intros result.
  eapply Hoare_bind; [apply Hoare_gets|]. intros table. cbv beta.
  destruct (table !! serial) as [obj|] eqn:Hlook;
    [|apply Hoare_ret; intros s [H _]; exact H].
  apply Hoare_weaken with (P' := fun s => lifecycle_inv s /\ emulators s !! serial = Some obj)
    (Q' := fun _ => lifecycle_inv) (E' := fun _ => False);
    [|intros s [H ->]; auto | auto | contradiction].
  apply Hoare_bind with (R := fun _ => stopping_at serial);
    [apply set_status_stopped_spec|]. intros _.
  eapply Hoare_bind; [apply Hoare_gets|]. intros info. cbv beta.
  apply Hoare_weaken with (P' := stopping_at serial) (Q' := fun _ => lifecycle_inv)
    (E' := fun _ => False); [|intros s [H _]; exact H | auto | auto].
  apply Hoare_bind with (R := fun _ => lifecycle_inv); [|intros _; apply Hoare_ret; auto].
  apply Hoare_bind with (R := fun _ => lifecycle_inv);
    [|intros _; apply Hoare_emit; [exact I | apply Stable_inv]].
  apply Hoare_bind with (R := fun _ => stopping_at serial);
    [|intros _; apply Hoare_modify; intros s H; exact H].
  assert (Hk : forall pid : Z,
             Hoare (stopping_at serial)
               (try_except (subprocess_run W ["kill"; PyStr.str_of_int pid] None >> ret tt)
                  (fun _ => ret tt))
               (fun _ => stopping_at serial) (fun _ => False)).
  { intros pid. apply Hoare_try with (E' := stopping_at serial);
      [|intros e; apply Hoare_ret; auto].
    apply Hoare_quiet; [|apply Stable_stopping_at].
    apply Quiet_bind; [apply Quiet_subprocess_run | intros; apply Quiet_ret]. }
  destruct (info ≫= process_id) as [pid|]; [|apply Hoare_ret; auto].
  destruct (truthy_int pid); [apply Hk | apply Hoare_ret; auto].
Qed.

Lemma start_emulator_keeps (W : World) (avd_name : string) (port : option Z)
    (snapshot : option string) :
  Keeps (start_emulator W avd_name port snapshot).
Proof.
  unfold Keeps, start_emulator.
  apply Hoare_bind with (R := fun _ => lifecycle_inv);
    [apply Hoare_quiet; [apply Quiet_list_avds | apply Stable_inv]|].
  intros avds.
  destruct (find _ avds) as [avd_info|]; [|apply Hoare_ret; auto].
  apply Hoare_bind with (R := fun _ => lifecycle_inv); [intros s H; exact H|].
  intros self.
  apply Hoare_try with (E' := lifecycle_inv); [|intros e; apply Hoare_ret; auto].
  apply Hoare_bind with (R := fun _ => lifecycle_inv);
    [apply Hoare_quiet; [apply Quiet_get_connected_devices | apply Stable_inv]|].
  intros devices_before.
  apply Hoare_bind with (R := fun _ => lifecycle_inv);
    [apply Hoare_quiet; [apply Quiet_subprocess_Popen | apply Stable_inv]|].
  intros process.
  apply Hoare_bind with (R := fun _ => lifecycle_inv);
    [apply Hoare_quiet; [apply Quiet_new_device_loop | apply Stable_inv]|].
  assert (Hterm : Hoare lifecycle_inv (emit (Terminate process) >> ret (None : option nat))
                    (fun _ => lifecycle_inv) lifecycle_inv).
  { apply Hoare_quiet; [|apply Stable_inv].
    apply Quiet_bind; [apply Quiet_emit; exact I | intros; apply Quiet_ret]. }
  intros [serial|]; [|exact Hterm].
  destruct (truthy_str serial); [|exact Hterm].
  apply Hoare_bind with (R := fun _ => lifecycle_inv);
    [apply Hoare_quiet; [apply Quiet_now | apply Stable_inv]|].
  intros t.
  apply Hoare_bind with (R := fun obj => fresh_obj obj);
    [apply new_EmulatorInfo_spec; reflexivity|].
  intros emulator.
  apply Hoare_bind with (R := fun _ => starting_at serial emulator);
    [apply Hoare_modify; intros s H; apply enter_spec; exact H|].
  intros _.
  apply Hoare_bind with (R := fun _ => starting_at serial emulator).
  { apply Hoare_weaken with (P' := starting_at serial emulator)
      (Q' := fun _ => starting_at serial emulator) (E' := starting_at serial emulator);
      [|auto|auto|apply starting_at_inv].
    apply Hoare_quiet; [apply Quiet_boot_loop | apply Stable_starting_at]. }
  intros [|].
  - apply Hoare_bind with (R := fun _ => lifecycle_inv);
      [apply set_status_running_spec | intros _; apply Hoare_ret; auto].
  - apply Hoare_bind with (R := fun _ => lifecycle_inv);
      [|intros _; apply Hoare_ret; auto].
    apply Hoare_weaken with (P' := lifecycle_inv) (Q' := fun _ => lifecycle_inv)
      (E' := lifecycle_inv); [apply stop_emulator_keeps | apply starting_at_inv | auto | auto].
Qed.

Lemma stop_each_keeps (W : World) (serials : list string) : Keeps (stop_each W serials).
Proof.
  induction serials as [|serial rest IH]; cbn [stop_each].
  - apply Hoare_ret. auto.
  - apply Hoare_bind with (R := fun _ => lifecycle_inv);
      [apply stop_emulator_keeps | intros _; exact IH].
Qed.

Lemma Keeps_quiet {A : Type} (c : M Manager A) : Quiet c -> Keeps c.
Proof. intros H. apply Hoare_quiet; [exact H | apply Stable_inv]. Qed.

Lemma do_call_keeps (W : World) (c : Call) : Keeps (do_call W c).
Proof.
  destruct c; cbn [do_call].
  - apply Keeps_quiet. apply Quiet_bind;
      [apply Quiet_download_system_image | intros; apply Quiet_ret].
  - apply Keeps_quiet. apply Quiet_bind; [apply Quiet_create_avd | intros; apply Quiet_ret].
  - apply Hoare_bind with (R := fun _ => lifecycle_inv);
      [apply start_emulator_keeps | intros _; apply Hoare_ret; auto].
  - apply Hoare_bind with (R := fun _ => lifecycle_inv);
      [apply stop_emulator_keeps | intros _; apply Hoare_ret; auto].
  - unfold stop_all_emulators.
    apply Hoare_bind with (R := fun _ => lifecycle_inv); [intros s H; exact H|].
    intros table. apply stop_each_keeps.
Qed.

Lemma session_keeps (W : World) (cs : list Call) : Keeps (session W cs).
Proof.
  induction cs as [|c rest IH]; cbn [session].
  - apply Hoare_ret. auto.
  - apply Hoare_bind with (R := fun _ => lifecycle_inv);
      [apply do_call_keeps | intros _; exact IH].
Qed.

Lemma code_step_write (c : nat * Status * Status) :
  code_step c.1.2 c.2 = true -> code_write c.
Proof.
  destruct c as [[obj old] new]. unfold code_write. cbn.
  destruct old, new; cbn; intros H; try discriminate; auto.
Qed.

(** C9, as the code has it: over any session of calls on a new manager,
    every write to the status of a record takes it from starting to
    running, from starting to stopped or from running to stopped, so that
    the status stopping is never written; and every record in the table is
    in status starting or running. *)
Theorem status_writes_of_a_session (W : World) (files : gmap string string)
    (cs : list Call) :
  Forall code_write (status_changes (trace (session W cs (init files)).2))
  /\ (forall c, c ∈ status_changes (trace (session W cs (init files)).2) ->
                c.2 <> stopping)
  /\ (forall sr obj,
        emulators (session W cs (init files)).2 !! sr = Some obj ->
        exists info,
          objects (session W cs (init files)).2 !! obj = Some info
          /\ (status info = starting \/ status info = running)).
Proof.
  pose proof (session_keeps W cs (init files) (inv_init files)) as H.
  destruct (session W cs (init files)) as [[u|e] s']; cbn [snd];
    destruct H as [[Htab _] Hch].
  all: assert (Hw : Forall code_write (status_changes (trace s')))
         by (eapply Forall_impl; [exact Hch | exact code_step_write]).
  all: split; [exact Hw|]; split;
         [intros c Hc; rewrite Forall_forall in Hw; specialize (Hw c Hc);
          unfold code_write in Hw; intros Hs; rewrite Hs in Hw;
          destruct Hw as [[_ ?]|[[_ ?]|[_ ?]]]; discriminate
         |intros sr obj Hsr; apply (Htab sr obj Hsr)].
Qed.

(** A concrete session: a device is started and stopped; its status goes
    from starting to running and from running to stopped. *)
Lemma status_writes_of_a_session_witness :
  status_changes (trace (session boots_at_once start_then_stop (init ∅)).2)
  = [(0%nat, starting, running); (0%nat, running, stopped)]
  /\ Forall code_write
       (status_changes (trace (session boots_at_once start_then_stop (init ∅)).2)).
Proof.
  split; [vm_compute; reflexivity|].
  apply (status_writes_of_a_session boots_at_once ∅ start_then_stop).
Defined.

(** C9 as stated fails: stopping a running device takes its record from
    running to stopped at once, which is no step of the chain. *)
Lemma running_record_is_stopped_at_once :
  ~ follows_chain boots_at_once start_then_stop (init ∅).
Proof.
  unfold follows_chain. intros H.
  assert (Hc : status_changes (trace (session boots_at_once start_then_stop (init ∅)).2)
               = [(0%nat, starting, running); (0%nat, running, stopped)])
    by (vm_compute; reflexivity).
  rewrite Hc in H. inversion H as [|? ? _ H2]. inversion H2 as [|? ? H3 _].
  discriminate.
Qed.

End ManagerProps.

(** ** command_runner.py: the other operations *)

Module RunnerOpsProps.

Import CommandRunner CommandRunnerOps RunnerVocab RunnerOpsVocab RunnerProps.

(** *** Retries *)

Lemma capture_screenshot_unbound (W : World) (serial : string) (s : Runner) :
  (retry_attempts s < 1)%Z ->
  capture_screenshot W serial s = (Ok None, after_clock s).
Proof.
  intros Hre. unfold capture_screenshot.
  unfold bind at 1, now. fold (after_clock s).
  unfold try_except, bind at 1.
  rewrite execute_plain_unbound by exact Hre. reflexivity.
Qed.

(** X1: with [retry_attempts] at 0 or below, [execute_command] raises
    [UnboundLocalError]: no attempt is made, no process is started and
    the history stays as it is, with or without a screenshot asked for. *)
Theorem no_attempt_allowed_raises (W : World) (command serial : string)
    (tmo : option Z) (capture : bool) (s : Runner) :
  (retry_attempts s <= 0)%Z ->
  exists s',
    execute_command W command serial tmo capture s
    = (Raise (UnboundLocalError "result"), s')
    /\ command_history s' = command_history s
    /\ spawned s' = spawned s
    /\ trace s' = trace s.
Proof.
  intros Hre. unfold execute_command. destruct capture.
  - rewrite execute_with_shot_eq.
    replace (Z.to_nat (retry_attempts s)) with 0%nat by lia.
    cbn [retry_loop]. unfold ret at 1.
    rewrite capture_screenshot_unbound by lia.
    eexists. split; [reflexivity|]. auto.
  - rewrite execute_plain_unbound by lia. eexists. split; [reflexivity|]. auto.
Qed.

(** A concrete runner made with [retry_attempts = 0]. *)
Lemma no_attempt_allowed_raises_witness :
  exists s',
    execute_command always_failing "shell ls" "emulator-5554" None true
      (CommandRunner.init 30 0) = (Raise (UnboundLocalError "result"), s')
    /\ command_history s' = [] /\ spawned s' = 0%nat.
Proof.
  destruct (no_attempt_allowed_raises always_failing "shell ls" "emulator-5554" None true
              (CommandRunner.init 30 0) ltac:(simpl; lia))
    as (s' & Hrun & Hh & Hsp & _).
  exists s'. auto.
Defined.

(** X2: with [retry_attempts = n >= 1] and no screenshot, [execute_command]
    never raises; it runs the command [k + 1 <= n] times, every run but
    the last having failed, stops at the first run that succeeds, returns
    the result of its last run, which holds the output and the return
    code of the last process, and appends it, alone, to the history; a
    failure is returned only when all [n] runs were made. *)
Theorem retries_stop_at_first_success (W : World) (command serial : string)
    (tmo : option Z) (s : Runner) :
  (1 <= retry_attempts s)%Z ->
  exists r k s1 s',
    execute_command W command serial tmo false s = (Ok r, s')
    /\ command_history s' = (command_history s ++ [r])%list
    /\ spawned s' = (spawned s + S k)%nat
    /\ (Z.of_nat (S k) <= retry_attempts s)%Z
    /\ (forall i, (i < k)%nat ->
          failing (proc W (spawned s + i) (_format_command command serial)
                     (timeout_used tmo s)) = true)
    /\ last_run W (_format_command command serial) serial (timeout_used tmo s) s k r s1
    /\ reports (proc W (spawned s + k) (_format_command command serial)
                  (timeout_used tmo s))
         (_format_command command serial) serial (timeout_used tmo s) r
    /\ success r = negb (failing (proc W (spawned s + k) (_format_command command serial)
                                    (timeout_used tmo s)))
    /\ (success r = false -> Z.of_nat (S k) = retry_attempts s).
Proof.
  intros Hre.
  destruct (execute_plain_spec W command serial tmo s Hre)
    as (r & k & s' & He & _ & _ & Hh & Hlr & Hwhy).
  destruct Hlr as (Hk & Hsp & _ & _ & Hsucc & _ & _ & Hall).
  destruct (execute_plain_last_run W command serial tmo s Hre)
    as (r2 & k2 & s1 & s2 & He2 & Hsp2 & Hlast & Hrep).
  rewrite He in He2. injection He2 as <- <-.
  assert (k2 = k) by lia. subst k2.
  exists r, k, s1, s'. split; [exact He|]. split; [exact Hh|]. split; [exact Hsp|].
  split; [lia|]. split; [exact Hall|]. split; [exact Hlast|]. split; [exact Hrep|].
  split; [exact Hsucc|].
  intros Hf. destruct Hwhy as [Hs|Hs]; [congruence | lia].
Qed.

(** A concrete call with three attempts allowed: the second run
    succeeds and no third is made. *)
Lemma retries_stop_at_first_success_witness :
  exists r s',
    execute_command fails_once "shell ls" "emulator-5554" None false
      (CommandRunner.init 30 3) = (Ok r, s')
    /\ command_history s' = [r] /\ spawned s' = 2%nat /\ success r = true.
Proof.
  destruct (retries_stop_at_first_success fails_once "shell ls" "emulator-5554" None
              (CommandRunner.init 30 3) ltac:(simpl; lia))
    as (r & k & s1 & s' & He & Hh & Hsp & Hle & Hall & _ & _ & Hsucc & Hlast).
  exists r, s'. split; [exact He|]. split; [exact Hh|].
  assert (Hk : k = 1%nat).
  { destruct k as [|[|k]].
    - exfalso. cbn in Hsucc. specialize (Hlast Hsucc). cbn in Hlast. lia.
    - reflexivity.
    - exfalso. specialize (Hall 1%nat ltac:(lia)). cbn in Hall. discriminate. }
  subst k. split; [exact Hsp | exact Hsucc].
Defined.

(** X3: with a screenshot asked for and at least one attempt allowed,
    [execute_command] never raises.  The screenshot is taken from the
    state the last run of the command left, whether that run succeeded or
    failed, so that its processes, of which there is at least one, are
    spawned after those of the command;
    its one to three steps come first in the history and the result of
    the last run, with the path of the screenshot or none, comes last and
    is returned. *)
Theorem screenshot_steps_precede_result (W : World) (command serial : string)
    (tmo : option Z) (s : Runner) :
  (1 <= retry_attempts s)%Z ->
  exists r v steps k s1 s2 s',
    execute_command W command serial tmo true s = (Ok (set_screenshot_path v r), s')
    /\ last_run W (_format_command command serial) serial (timeout_used tmo s) s k r s1
    /\ spawned s1 = (spawned s + S k)%nat
    /\ (Z.of_nat (S k) <= retry_attempts s)%Z
    /\ reports (proc W (spawned s + k) (_format_command command serial)
                  (timeout_used tmo s))
         (_format_command command serial) serial (timeout_used tmo s) r
    /\ capture_screenshot W serial s1 = (Ok v, s2)
    /\ (spawned s1 < spawned s2)%nat
    /\ command_history s2 = (command_history s ++ steps)%list
    /\ command_history s'
       = (command_history s ++ steps ++ [set_screenshot_path v r])%list
    /\ spawned s' = spawned s2 /\ trace s' = trace s2
    /\ (1 <= length steps <= 3)%nat
    /\ (forall p, v = Some p ->
          length steps = 3%nat /\ Forall (fun x => success x = true) (take 2 steps)).
Proof.
  intros Hre. unfold execute_command. rewrite execute_with_shot_eq.
  destruct (Z.to_nat (retry_attempts s)) as [|todo] eqn:Htodo; [lia|].
  destruct (retry_loop_spec W (_format_command command serial) serial
              (timeout_used tmo s) (retry_attempts s) todo 0 None s ltac:(lia))
    as (r & k & s1 & Hloop & (Ht & Hr & Hh1) & Hlr & _).
  destruct (retry_loop_last_run W (_format_command command serial) serial
              (timeout_used tmo s) (retry_attempts s) todo 0 None s ltac:(lia))
    as (r2 & k2 & s2' & Hloop2 & Hsp2 & Hlast).
  rewrite Hloop in Hloop2. injection Hloop2 as <- <-.
  destruct Hlr as (Hk & Hsp & _).
  assert (k2 = k) by lia. subst k2.
  rewrite Hloop.
  destruct (capture_screenshot_spec W serial s1)
    as (v & s2 & Hcap & _ & _ & steps & Hh & _ & _ & Hchain).
  rewrite Hcap. unfold bind, history_append, modify, ret.
  exists r, v, steps, k, s1, s2. eexists. split; [reflexivity|].
  cbn [command_history spawned trace].
  split; [exact Hlast|]. split; [exact Hsp|]. split; [lia|].
  split.
  { destruct Hlast as (s_k & Hsk & _ & _ & Hrun).
    destruct (run_command_reports _ _ _ _ _ _ _ Hrun) as [Hrep _].
    rewrite Hsk in Hrep. exact Hrep. }
  split; [exact Hcap|].
  split; [apply (capture_screenshot_spawns W serial s1 v s2); [lia | exact Hcap]|].
  split; [rewrite Hh, Hh1; reflexivity|].
  split; [rewrite Hh, Hh1, app_assoc; reflexivity|].
  split; [reflexivity|]. split; [reflexivity|].
  destruct (Hchain ltac:(lia)) as [_ Hout].
  destruct steps as [|r1 [|r2 [|r3 [|r4 rest]]]]; cbn in Hout; try contradiction.
  - split; [cbn; lia|]. intros p Hp. destruct Hout as [_ Hv]. congruence.
  - split; [cbn; lia|]. intros p Hp. destruct Hout as (_ & _ & Hv). congruence.
  - split; [cbn; lia|]. intros p Hp. destruct Hout as (H1 & H2 & _).
    split; [reflexivity|]. cbn. repeat constructor; assumption.
Qed.

(** A concrete call: the command fails twice, and the screenshot is taken
    all the same, from the state the runs left. *)
Lemma screenshot_steps_precede_result_witness :
  exists r v steps s1 s2 s',
    execute_command always_failing "shell ls" "emulator-5554" None true
      (CommandRunner.init 30 2) = (Ok (set_screenshot_path v r), s')
    /\ (1 <= spawned s1 <= 2)%nat
    /\ capture_screenshot always_failing "emulator-5554" s1 = (Ok v, s2)
    /\ command_history s' = (steps ++ [set_screenshot_path v r])%list
    /\ (1 <= length steps)%nat.
Proof.
  destruct (screenshot_steps_precede_result always_failing "shell ls" "emulator-5554"
              None (CommandRunner.init 30 2) ltac:(simpl; lia))
    as (r & v & steps & k & s1 & s2 & s' & He & Hlast & Hsp & Hle & _ & Hcap & _ & _
        & Hh & _ & _ & Hlen & _).
  exists r, v, steps, s1, s2, s'. split; [exact He|].
  cbn in Hsp, Hle. split; [lia|]. split; [exact Hcap|]. split; [exact Hh | lia].
Defined.

(** *** Texts *)

(** Replacing one character distributes over appending. *)
Lemma replace_char_app (c : ascii) (new a b : string) :
  PyStrOps.replace (String c EmptyString) new (a +:+ b)
  = PyStrOps.replace (String c EmptyString) new a
    +:+ PyStrOps.replace (String c EmptyString) new b.
Proof.
  unfold PyStrOps.replace.
  induction a as [|x a IH]; [reflexivity|].
  rewrite string_app_cons.
  cbn [PyStrOps.replace_go PyStr.startswith String.length Nat.sub].
  destruct (decide (c = x)).
  - rewrite IH. now rewrite string_app_assoc.
  - rewrite IH. reflexivity.
Qed.

(** The character [c] does not occur in [s]. *)
Lemma contains_char_cons (c x : ascii) (s : string) :
  PyStr.contains (String c EmptyString) (String x s)
  = bool_decide (c = x) || PyStr.contains (String c EmptyString) s.
Proof.
  cbn [PyStr.contains PyStr.startswith].
  destruct (decide (c = x)) as [->|Hne].
  - rewrite bool_decide_eq_true_2 by reflexivity. destruct s; reflexivity.
  - rewrite bool_decide_eq_false_2 by exact Hne. reflexivity.
Qed.

Lemma contains_char_app (c : ascii) (a b : string) :
  PyStr.contains (String c EmptyString) (a +:+ b)
  = PyStr.contains (String c EmptyString) a || PyStr.contains (String c EmptyString) b.
Proof.
  induction a as [|x a IH].
  - reflexivity.
  - rewrite string_app_cons, !contains_char_cons, IH. now rewrite orb_assoc.
Qed.

(** A replacement that brings no [c] leaves a text free of [c] free of
    it; and replacing [c] itself removes it. *)
Lemma replace_char_keeps_free (c d : ascii) (new s : string) :
  PyStr.contains (String c EmptyString) new = false ->
  PyStr.contains (String c EmptyString) s = false ->
  PyStr.contains (String c EmptyString) (PyStrOps.replace (String d EmptyString) new s)
  = false.
Proof.
  intros Hnew. unfold PyStrOps.replace.
  induction s as [|x s IH]; intros Hs; [reflexivity|].
  rewrite contains_char_cons in Hs. apply orb_false_iff in Hs as [Hx Hs].
  cbn [PyStrOps.replace_go PyStr.startswith String.length Nat.sub].
  destruct (decide (d = x)).
  - rewrite contains_char_app, Hnew, (IH Hs). reflexivity.
  - rewrite contains_char_cons, Hx, (IH Hs). reflexivity.
Qed.

Lemma replace_char_removes (c : ascii) (new s : string) :
  PyStr.contains (String c EmptyString) new = false ->
  PyStr.contains (String c EmptyString) (PyStrOps.replace (String c EmptyString) new s)
  = false.
Proof.
  intros Hnew. unfold PyStrOps.replace.
  induction s as [|x s IH]; [reflexivity|].
  cbn [PyStrOps.replace_go PyStr.startswith String.length Nat.sub].
  destruct (decide (c = x)) as [Heq|Hne].
  - rewrite contains_char_app, Hnew, IH. reflexivity.
  - rewrite contains_char_cons, IH, bool_decide_eq_false_2 by exact Hne. reflexivity.
Qed.

Lemma escaped_text_app (a b : string) :
  escaped_text (a +:+ b) = escaped_text a +:+ escaped_text b.
Proof. unfold escaped_text. now rewrite !replace_char_app. Qed.

(** X6: the text [input_text] sends has no space in it; and since a space
    is written as [%s] while [%s] is left as it is, a text with a space
    and the text with [%s] in its place are sent as the same command. *)
Theorem input_text_escaping (W : World) (text serial : string) :
  PyStr.contains " " (escaped_text text) = false
  /\ forall a b,
       input_text W (a +:+ " " +:+ b) serial = input_text W (a +:+ "%s" +:+ b) serial.
Proof.
  split.
  - unfold escaped_text. apply replace_char_keeps_free; [reflexivity|].
    apply replace_char_removes. reflexivity.
  - intros a b. unfold input_text. now rewrite !escaped_text_app.
Qed.

(** *** Commands that carry the flag themselves *)

Lemma contains_app_r (sub p s : string) :
  PyStr.contains sub s = true -> PyStr.contains sub (p +:+ s) = true.
Proof.
  intros Hs. induction p as [|x p IH]; [exact Hs|].
  rewrite string_app_cons. cbn [PyStr.contains]. rewrite IH. apply orb_true_r.
Qed.

(** What [execute_command] with its defaults returns and records. *)
Lemma execute_default_spec (W : World) (command serial : string) (s : Runner) :
  (1 <= retry_attempts s)%Z ->
  exists r s',
    execute_command W command serial None false s = (Ok r, s')
    /\ command_history s' = (command_history s ++ [r])%list
    /\ CommandRunner.command r = _format_command command serial.
Proof.
  intros Hre.
  destruct (execute_plain_spec W command serial None s Hre)
    as (r & k & s' & He & _ & _ & Hh & Hlr & _).
  exists r, s'. split; [exact He|]. split; [exact Hh|].
  unfold loop_result in Hlr. tauto.
Qed.

(** X4: [list_packages] with [system_only] runs
    [adb shell pm list packages -s] with no device selected, whatever the
    serial it was given, because its own flag is [-s]; with
    [third_party_only] alone the device is selected.  When the command
    fails the list is empty. *)
Theorem system_packages_query_selects_no_device (W : World) (serial : string)
    (third_party_only : bool) (s : Runner) :
  (1 <= retry_attempts s)%Z ->
  (exists pk r s',
     list_packages W serial true third_party_only s = (Ok pk, s')
     /\ command_history s' = (command_history s ++ [r])%list
     /\ CommandRunner.command r = "adb shell pm list packages -s"
     /\ (success r = false -> pk = []))
  /\ (exists pk r s',
        list_packages W serial false true s = (Ok pk, s')
        /\ command_history s' = (command_history s ++ [r])%list
        /\ CommandRunner.command r
           = "adb -s " +:+ serial +:+ " shell pm list packages -3"
        /\ (success r = false -> pk = [])).
Proof.
  intros Hre. unfold list_packages. split.
  - destruct (execute_default_spec W ("shell pm list packages " +:+ "-s") serial s Hre)
      as (r & s' & He & Hh & Hc).
    unfold bind at 1. rewrite He. destruct (success r) eqn:Hs.
    + eexists _, r, s'. split; [reflexivity|]. split; [exact Hh|].
      split; [exact Hc | intros Habs; congruence].
    + exists [], r, s'. split; [reflexivity|]. split; [exact Hh|].
      split; [exact Hc | reflexivity].
  - destruct (execute_default_spec W ("shell pm list packages " +:+ "-3") serial s Hre)
      as (r & s' & He & Hh & Hc).
    unfold bind at 1. rewrite He. destruct (success r) eqn:Hs.
    + eexists _, r, s'. split; [reflexivity|]. split; [exact Hh|].
      split; [exact Hc | intros Habs; congruence].
    + exists [], r, s'. split; [reflexivity|]. split; [exact Hh|].
      split; [exact Hc | reflexivity].
Qed.

(** A concrete query of the system packages of [emulator-5554]. *)
Lemma system_packages_query_selects_no_device_witness :
  exists pk r s',
    list_packages fails_once "emulator-5554" true false (CommandRunner.init 30 2)
    = (Ok pk, s')
    /\ command_history s' = [r]
    /\ CommandRunner.command r = "adb shell pm list packages -s".
Proof.
  destruct (system_packages_query_selects_no_device fails_once "emulator-5554" false
              (CommandRunner.init 30 2) ltac:(simpl; lia)) as [H _].
  destruct H as (pk & r & s' & Hrun & Hh & Hc & _).
  exists pk, r, s'. auto.
Defined.

(** X5: [get_logcat] with a filter in which [-s] occurs, as in the filter
    [-s Tag], runs [adb logcat] with no device selected. *)
Theorem logcat_filter_flag_selects_no_device (W : World) (serial : string) (lines : Z)
    (filter_spec : string) (s : Runner) :
  (1 <= retry_attempts s)%Z ->
  PyStr.contains "-s" filter_spec = true ->
  exists r s',
    get_logcat W serial lines (Some filter_spec) s = (Ok r, s')
    /\ command_history s' = (command_history s ++ [r])%list
    /\ CommandRunner.command r
       = "adb logcat -d -t " +:+ PyStr.str_of_int lines +:+ " " +:+ filter_spec.
Proof.
  intros Hre Hf. unfold get_logcat.
  assert (Hne : negb (String.eqb filter_spec "") = true)
    by (destruct filter_spec; [discriminate Hf | reflexivity]).
  rewrite Hne.
  destruct (execute_default_spec W
              (("logcat -d -t " +:+ PyStr.str_of_int lines) +:+ " " +:+ filter_spec)
              serial s Hre) as (r & s' & He & Hh & Hc).
  exists r, s'. split; [exact He|]. split; [exact Hh|]. rewrite Hc.
  unfold _format_command.
  rewrite string_app_assoc.
  change (PyStr.startswith "adb "
            ("logcat -d -t " +:+ PyStr.str_of_int lines +:+ " " +:+ filter_spec))
    with false.
  cbv iota.
  assert (Hall : PyStr.contains "-s"
                   ("logcat -d -t " +:+ PyStr.str_of_int lines +:+ " " +:+ filter_spec)
                 = true) by (do 3 apply contains_app_r; exact Hf).
  rewrite Hall. reflexivity.
Qed.

(** A concrete call with the filter [-s ActivityManager]. *)
Lemma logcat_filter_flag_selects_no_device_witness :
  exists r s',
    get_logcat fails_once "emulator-5554" 100 (Some "-s ActivityManager")
      (CommandRunner.init 30 2) = (Ok r, s')
    /\ CommandRunner.command r = "adb logcat -d -t 100 -s ActivityManager".
Proof.
  destruct (logcat_filter_flag_selects_no_device fails_once "emulator-5554" 100
              "-s ActivityManager" (CommandRunner.init 30 2)
              ltac:(simpl; lia) ltac:(reflexivity))
    as (r & s' & He & _ & Hc).
  exists r, s'. split; [exact He|]. rewrite Hc. vm_compute. reflexivity.
Defined.

(** *** The battery report *)

Lemma collect_battery_cons (line : string) (rest : list string)
    (acc : gmap string string) :
  collect_battery (line :: rest) acc
  = collect_battery rest
      (if PyStr.contains ":" line
       then <[battery_key line := battery_value line]> acc
       else acc).
Proof.
  cbn [collect_battery]. unfold battery_key, battery_value.
  destruct (PyStr.contains ":" line); [|reflexivity].
  destruct (PyStrOps.partition ":" line) as [k v]. reflexivity.
Qed.

Lemma collect_battery_app (l1 l2 : list string) :
  forall acc,
    collect_battery (l1 ++ l2) acc = collect_battery l2 (collect_battery l1 acc).
Proof.
  induction l1 as [|line l1 IH]; intros acc; [reflexivity|].
  rewrite <- app_comm_cons, !collect_battery_cons. apply IH.
Qed.

Lemma collect_battery_no_entry (key : string) (lines : list string) :
  forall acc, no_entry key lines -> collect_battery lines acc !! key = acc !! key.
Proof.
  induction lines as [|line rest IH]; intros acc Hno; [reflexivity|].
  rewrite collect_battery_cons, IH.
  - destruct (PyStr.contains ":" line) eqn:Hc; [|reflexivity].
    apply lookup_insert_ne. apply Hno; [apply list_elem_of_here | exact Hc].
  - intros l Hl. apply Hno. now apply list_elem_of_further.
Qed.

Lemma collect_battery_last (before after : list string) (line : string)
    (acc : gmap string string) :
  PyStr.contains ":" line = true ->
  no_entry (battery_key line) after ->
  collect_battery (before ++ line :: after) acc !! battery_key line
  = Some (battery_value line).
Proof.
  intros Hc Hno.
  rewrite collect_battery_app, collect_battery_cons, Hc.
  rewrite collect_battery_no_entry by exact Hno. apply lookup_insert_eq.
Qed.

(** X7: [get_battery_info] gives the empty report when the command fails;
    otherwise a key of the report has the value of the last line filed
    under it, and a key under which no line is filed is not in the
    report. *)
Theorem battery_report_last_line_wins (W : World) (serial : string) (s : Runner) :
  (1 <= retry_attempts s)%Z ->
  exists info r s',
    get_battery_info W serial s = (Ok info, s')
    /\ command_history s' = (command_history s ++ [r])%list
    /\ (success r = false -> info = ∅)
    /\ (success r = true ->
        (forall before line after,
           stdout_lines r = (before ++ line :: after)%list ->
           PyStr.contains ":" line = true ->
           no_entry (battery_key line) after ->
           info !! battery_key line = Some (battery_value line))
        /\ (forall key, no_entry key (stdout_lines r) -> info !! key = None)).
Proof.
  intros Hre. unfold get_battery_info, execute_shell_command.
  destruct (execute_default_spec W ("shell " +:+ "dumpsys battery") serial s Hre)
    as (r & s' & He & Hh & _).
  unfold bind at 1. rewrite He. destruct (success r) eqn:Hs.
  - eexists _, r, s'. split; [reflexivity|]. split; [exact Hh|].
    split; [intros Habs; congruence|]. intros _. fold (stdout_lines r). split.
    + intros before line after Hlines Hc Hno. rewrite Hlines.
      now apply collect_battery_last.
    + intros key Hno. rewrite collect_battery_no_entry by exact Hno. apply lookup_empty.
  - exists ∅, r, s'. split; [reflexivity|]. split; [exact Hh|].
    split; [reflexivity | intros Habs; congruence].
Qed.

(** A concrete report with two lines for the level: the later one is
    kept. *)
Lemma battery_report_last_line_wins_witness :
  exists info s',
    get_battery_info reports_battery "emulator-5554" (CommandRunner.init 30 2)
    = (Ok info, s')
    /\ info !! "level" = Some "80".
Proof.
  destruct (battery_report_last_line_wins reports_battery "emulator-5554"
              (CommandRunner.init 30 2) ltac:(simpl; lia))
    as (info & r & s' & Hrun & Hh & _ & Hgood).
  exists info, s'. split; [exact Hrun|].
  assert (Hr : stdout r = "level: 50" +:+ String (ascii_of_nat 10) "level: 80"
               /\ success r = true).
  { pose proof Hrun as Hc. vm_compute in Hc. injection Hc as _ <-.
    cbn in Hh. injection Hh as <-. split; reflexivity. }
  destruct Hr as [Hout Hs]. destruct (Hgood Hs) as [Hlast _].
  apply (Hlast ["level: 50"] "level: 80" []).
  - unfold stdout_lines. rewrite Hout. vm_compute. reflexivity.
  - reflexivity.
  - intros l Hl. inversion Hl.
Defined.

End RunnerOpsProps.

(** ** emulator_manager.py: the other operations *)

Module ManagerOpsProps.

Import EmulatorManager EmulatorManagerOps ManagerVocab ManagerOpsVocab ManagerProps.

(** *** Operations that report an exit code *)

(** The shape shared by [delete_avd], [take_snapshot] and
    [restore_snapshot]. *)
Lemma run_reporting_spec (W : World) (argv : list string) (t : option Z) (s : Manager) :
  try_except
    (do '(rc, out, err) <- subprocess_run W argv t;
     if (rc =? 0)%Z then ret true else ret false)
    (fun e => ret false) s
  = (Ok (exited_zero (run W (calls s) argv)), after_call (Run argv t) s).
Proof.
  rewrite try_except_eq, bind_eq, subprocess_run_eq.
  destruct (run W (calls s) argv) as [rc out err|e]; [|reflexivity].
  cbn. destruct (rc =? 0)%Z; reflexivity.
Qed.

Lemma delete_avd_spec (W : World) (name : string) (s : Manager) :
  delete_avd W name s
  = (Ok (exited_zero (run W (calls s) (delete_argv W name))),
     after_call (Run (delete_argv W name) (Some 30)) s).
Proof. apply run_reporting_spec. Qed.

Lemma quiet_after_call (e : Event) (s : Manager) :
  match e with StatusSet _ _ _ => False | _ => True end -> quiet s (after_call e s).
Proof.
  intros He. unfold quiet, after_call. cbn. rewrite status_changes_app.
  destruct e; try contradiction; cbn; rewrite app_nil_r; auto.
Qed.

(** X8: the snapshot operations never raise, make one call of adb whatever
    the table of records holds, and answer true exactly when that call
    completed with exit code 0. *)
Theorem snapshot_operations_report_exit (W : World) (serial name : string) (s : Manager) :
  (exists s',
     take_snapshot W serial name s
     = (Ok (exited_zero (run W (calls s) (snapshot_argv "save" serial name))), s')
     /\ trace s' = (trace s ++ [Run (snapshot_argv "save" serial name) (Some 30)])%list
     /\ quiet s s')
  /\ (exists s',
        restore_snapshot W serial name s
        = (Ok (exited_zero (run W (calls s) (snapshot_argv "load" serial name))), s')
        /\ trace s' = (trace s ++ [Run (snapshot_argv "load" serial name) (Some 30)])%list
        /\ quiet s s').
Proof.
  unfold take_snapshot, restore_snapshot. rewrite !run_reporting_spec.
  split; eexists; (split; [reflexivity|]); (split; [reflexivity|]).
  - apply quiet_after_call. exact I.
  - apply quiet_after_call. exact I.
Qed.

(** *** Cleaning up test definitions *)

Lemma delete_prefixed_spec (W : World) (prefix : string) (avds : list AvdDict) :
  forall s,
    exists s',
      delete_prefixed W prefix avds s = (Ok tt, s')
      /\ trace s' = (trace s ++ deletions W prefix avds)%list
      /\ emulators s' = emulators s /\ objects s' = objects s /\ files s' = files s.
Proof.
  unfold deletions.
  induction avds as [|avd rest IH]; intros s; cbn [delete_prefixed].
  - exists s. cbn. rewrite app_nil_r. auto.
  - rewrite bind_eq.
    destruct (PyStr.startswith prefix (avd_name avd)) eqn:Hp.
    + rewrite bind_eq, delete_avd_spec. unfold ret at 1.
      destruct (IH (after_call (Run (delete_argv W (avd_name avd)) (Some 30)) s))
        as (s' & Hrun & Htr & He & Ho & Hf).
      exists s'. split; [exact Hrun|].
      rewrite filter_cons_True by exact Hp.
      rewrite Htr, He, Ho, Hf. cbn. rewrite <- app_assoc. auto.
    + unfold ret at 1. destruct (IH s) as (s' & Hrun & Htr & He & Ho & Hf).
      exists s'. split; [exact Hrun|].
      rewrite filter_cons_False by (rewrite Hp; discriminate). auto.
Qed.

(** X9: [cleanup_test_avds] never raises; after the listing it asks for
    the deletion of exactly the definitions whose name starts with the
    prefix, in the order of the listing, going on when a deletion fails;
    it touches neither the records nor the files. *)
Theorem cleanup_deletes_prefixed_only (W : World) (prefix : string) (s : Manager) :
  exists s',
    cleanup_test_avds W prefix s = (Ok tt, s')
    /\ trace s' = (trace s ++ ListAvds :: deletions W prefix (avds W (calls s)))%list
    /\ emulators s' = emulators s /\ objects s' = objects s /\ files s' = files s.
Proof.
  unfold cleanup_test_avds. rewrite bind_eq.
  unfold list_avds, next_call, emit, modify, bind, ret. cbn.
  destruct (delete_prefixed_spec W prefix (avds W (calls s))
              (set_trace (trace s ++ [ListAvds]) (set_calls (S (calls s)) s)))
    as (s' & Hrun & Htr & He & Ho & Hf).
  exists s'. split; [exact Hrun|]. rewrite Htr, He, Ho, Hf. cbn.
  rewrite <- app_assoc. auto.
Qed.

(** *** Stopping *)

(** The end of [stop_emulator], after the write of the status. *)
Lemma stop_tail_spec (W : World) (serial : string) (obj : nat) (s : Manager) :
  exists s',
    (do info <- gets (fun s0 => objects s0 !! obj);
     match info ≫= process_id with
     | Some pid =>
         if truthy_int pid then
           try_except
             (subprocess_run W ["kill"; PyStr.str_of_int pid] None >> ret tt)
             (fun e => ret tt)
         else ret tt
     | None => ret tt
     end >>
     modify (fun s0 => set_emulators (delete serial (emulators s0)) s0) >>
     emit (Removed obj) >>
     ret true) s = (Ok true, s')
    /\ emulators s' = delete serial (emulators s)
    /\ objects s' = objects s /\ allocated s' = allocated s /\ files s' = files s
    /\ (calls s <= calls s')%nat.
Proof.
  rewrite bind_eq. unfold gets at 1.
  destruct (objects s !! obj ≫= process_id) as [pid|]; [destruct (truthy_int pid)|].
  - rewrite !bind_eq, try_except_eq, bind_eq, subprocess_run_eq.
    destruct (run W (calls s) ["kill"; PyStr.str_of_int pid]) as [rc out err|e];
      (eexists; split; [reflexivity|]; cbn; repeat split; lia).
  - eexists. split; [reflexivity|]. cbn. repeat split; lia.
  - eexists. split; [reflexivity|]. cbn. repeat split; lia.
Qed.

(** [stop_emulator] when the call of adb completes, whatever its exit
    code. *)
Lemma stop_emulator_completed (W : World) (serial : string) (s : Manager) :
  completed (run W (calls s) (kill_argv serial)) = true ->
  exists s',
    stop_emulator W serial s = (Ok true, s')
    /\ emulators s' = delete serial (emulators s)
    /\ (forall obj info,
          emulators s !! serial = Some obj -> objects s !! obj = Some info ->
          objects s' !! obj = Some (with_status stopped info))
    /\ (forall obj, emulators s !! serial <> Some obj ->
                    objects s' !! obj = objects s !! obj)
    /\ allocated s' = allocated s /\ files s' = files s
    /\ (S (calls s) <= calls s')%nat.
Proof.
  intros Hc. unfold stop_emulator. rewrite try_except_eq, bind_eq, subprocess_run_eq.
  fold (kill_argv serial).
  destruct (run W (calls s) (kill_argv serial)) as [rc out err|e]; [|discriminate].
  rewrite bind_eq. unfold gets at 1. cbn [after_call emulators set_trace set_calls].
  destruct (emulators s !! serial) as [obj|] eqn:Hlook.
  2:{ eexists. split; [reflexivity|]. cbn. rewrite delete_id by exact Hlook.
      split; [reflexivity|]. split; [discriminate|]. auto. }
  rewrite bind_eq. unfold set_status at 1. cbn [objects set_trace set_calls after_call].
  destruct (objects s !! obj) as [info|] eqn:Hobj.
  - match goal with
    | |- context [(?tail) (set_trace ?t (set_objects ?o ?a ?s0))] =>
        destruct (stop_tail_spec W serial obj (set_trace t (set_objects o a s0)))
          as (s' & Hrun & He & Ho & Ha & Hf & Hcalls)
    end.
    rewrite Hrun. exists s'. split; [reflexivity|].
    rewrite He, Ho, Ha, Hf. cbn in Hcalls |- *. split; [reflexivity|]. split.
    + intros obj0 info0 [= <-] Hi. rewrite Hobj in Hi. injection Hi as <-.
      apply lookup_insert_eq.
    + split; [|split; [|split]; auto; lia]. intros obj0 Hne.
      apply lookup_insert_ne. congruence.
  - destruct (stop_tail_spec W serial obj (after_call (Run (kill_argv serial) (Some 10)) s))
      as (s' & Hrun & He & Ho & Ha & Hf & Hcalls).
    rewrite Hrun. exists s'. split; [reflexivity|].
    rewrite He, Ho, Ha, Hf. cbn in Hcalls |- *. split; [reflexivity|].
    split; [intros obj0 info0 [= <-]; congruence|].
    split; [reflexivity|]. split; [reflexivity|]. split; [reflexivity|]. lia.
Qed.

Lemma stop_emulator_raised (W : World) (serial : string) (s : Manager) :
  completed (run W (calls s) (kill_argv serial)) = false ->
  stop_emulator W serial s = (Ok false, after_call (Run (kill_argv serial) (Some 10)) s).
Proof.
  intros Hc. unfold stop_emulator. rewrite try_except_eq, bind_eq, subprocess_run_eq.
  fold (kill_argv serial).
  destruct (run W (calls s) (kill_argv serial)) as [rc out err|e]; [discriminate|].
  reflexivity.
Qed.

(** X10: [stop_emulator] never raises.  When its call of adb completes,
    with whatever exit code and for a serial known or not, it answers
    true, the serial is no longer in the table and its record, if it had
    one, is in status stopped; when the call raises, it answers false and
    leaves table and records as they were. *)
Theorem stop_emulator_outcome (W : World) (serial : string) (s : Manager) :
  (completed (run W (calls s) (kill_argv serial)) = true ->
   exists s',
     stop_emulator W serial s = (Ok true, s')
     /\ get_emulator_info serial s' = (Ok None, s')
     /\ (forall other, other <> serial ->
                       emulators s' !! other = emulators s !! other)
     /\ (forall obj info,
           emulators s !! serial = Some obj -> objects s !! obj = Some info ->
           objects s' !! obj = Some (with_status stopped info)))
  /\ (completed (run W (calls s) (kill_argv serial)) = false ->
      exists s',
        stop_emulator W serial s = (Ok false, s')
        /\ emulators s' = emulators s /\ objects s' = objects s).
Proof.
  split; intros Hc.
  - destruct (stop_emulator_completed W serial s Hc)
      as (s' & Hrun & He & Hobj & _).
    exists s'. split; [exact Hrun|]. unfold get_emulator_info, gets. rewrite He.
    split; [rewrite lookup_delete_eq; reflexivity|].
    split; [intros other Hne; apply lookup_delete_ne; congruence | exact Hobj].
  - rewrite stop_emulator_raised by exact Hc. eexists. split; [reflexivity|]. auto.
Qed.

(** A concrete stop: the started device is stopped; its record is gone
    from the table. *)
Lemma stop_emulator_outcome_witness :
  exists s',
    stop_emulator boots_at_once "emulator-5554"
      (start_emulator boots_at_once "dev_34" None None (init ∅)).2 = (Ok true, s')
    /\ get_emulator_info "emulator-5554" s' = (Ok None, s').
Proof.
  destruct (stop_emulator_outcome boots_at_once "emulator-5554"
              (start_emulator boots_at_once "dev_34" None None (init ∅)).2) as [H _].
  destruct (H ltac:(vm_compute; reflexivity)) as (s' & Hrun & Hget & _).
  exists s'. split; assumption.
Defined.

(** *** Stopping all *)

Lemma stop_each_spec (W : World) (Hw : answers W) (serials : list string) :
  forall s,
    exists s',
      stop_each W serials s = (Ok tt, s')
      /\ forall sr, emulators s' !! sr
                    = if decide (sr ∈ serials) then None else emulators s !! sr.
Proof.
  induction serials as [|serial rest IH]; intros s; cbn [stop_each].
  - exists s. split; [reflexivity|]. intros sr.
    destruct (decide (sr ∈ [])) as [Hin|_]; [inversion Hin | reflexivity].
  - rewrite bind_eq.
    destruct (stop_emulator_completed W serial s (Hw _ _)) as (s1 & Hrun & He & _).
    rewrite Hrun. destruct (IH s1) as (s' & Hrest & Hlook).
    exists s'. split; [exact Hrest|]. intros sr. rewrite Hlook, He.
    destruct (decide (sr ∈ rest)) as [Hin|Hnin].
    + rewrite decide_True by (now apply list_elem_of_further). reflexivity.
    + destruct (decide (sr = serial)) as [->|Hne].
      * rewrite decide_True by apply list_elem_of_here. apply lookup_delete_eq.
      * rewrite decide_False by (intros Hin; apply elem_of_cons in Hin as [?|?]; tauto).
        apply lookup_delete_ne. congruence.
Qed.

(** X11: when no call of adb raises, [stop_all_emulators] ends without an
    exception and leaves the table empty. *)
Theorem stop_all_empties_table (W : World) (s : Manager) :
  answers W ->
  exists s',
    stop_all_emulators W s = (Ok tt, s')
    /\ emulators s' = ∅
    /\ list_running_emulators s' = (Ok [], s').
Proof.
  intros Hw. unfold stop_all_emulators. rewrite bind_eq. unfold gets at 1.
  destruct (stop_each_spec W Hw (map fst (map_to_list (emulators s))) s)
    as (s' & Hrun & Hlook).
  assert (Hempty : emulators s' = ∅).
  { apply map_empty. intros sr. rewrite Hlook.
    destruct (decide (sr ∈ map fst (map_to_list (emulators s)))) as [Hin|Hnin];
      [reflexivity|].
    destruct (emulators s !! sr) as [obj|] eqn:Hsr; [|reflexivity].
    exfalso. apply Hnin. apply list_elem_of_fmap. exists (sr, obj).
    split; [reflexivity|]. apply elem_of_map_to_list. exact Hsr. }
  exists s'. split; [exact Hrun|]. split; [exact Hempty|].
  unfold list_running_emulators, gets. rewrite Hempty, map_to_list_empty. reflexivity.
Qed.

(** A concrete case: a device is started and all devices are stopped. *)
Lemma stop_all_empties_table_witness :
  exists s',
    stop_all_emulators boots_at_once
      (start_emulator boots_at_once "dev_34" None None (init ∅)).2 = (Ok tt, s')
    /\ emulators s' = ∅.
Proof.
  destruct (stop_all_empties_table boots_at_once
              (start_emulator boots_at_once "dev_34" None None (init ∅)).2)
    as (s' & Hrun & He & _).
  - intros i argv. unfold boots_at_once. cbn [run].
    repeat (destruct (decide _)); try destruct (_ <? _)%nat; reflexivity.
  - exists s'. split; assumption.
Defined.

(** *** Starting *)

Lemma Stable_below (lo : nat) : Stable (below lo).
Proof. intros s s' (_ & _ & Ha & _). unfold below. rewrite Ha. trivial. Qed.

Lemma Stable_recorded (sr : string) (obj : nat) (nm : string) (lo : nat) (st : Status) :
  Stable (recorded sr obj nm lo st).
Proof. intros s s' (He & Ho & _ & _). unfold recorded. rewrite He, Ho. trivial. Qed.

Lemma Hoare_quiet_any {A : Type} (P : Manager -> Prop) (c : M Manager A)
    (E : Manager -> Prop) :
  Quiet c -> Stable P -> (forall s, P s -> E s) -> Hoare P c (fun _ => P) E.
Proof.
  intros Hc HP HE. apply Hoare_weaken with (P' := P) (Q' := fun _ => P) (E' := P);
    [apply Hoare_quiet; assumption | auto | auto | exact HE].
Qed.

Lemma start_emulator_triple (W : World) (avd_name : string) (port : option Z)
    (snapshot : option string) (lo : nat) :
  Hoare (below lo) (start_emulator W avd_name port snapshot)
    (started avd_name lo) (fun _ => False).
Proof.
  unfold start_emulator.
  intros s0 Hlo. rewrite bind_eq.
  change (list_avds W s0) with (Ok (avds W (calls s0)), after_call ListAvds s0).
  assert (Hlo1 : below lo (after_call ListAvds s0)) by exact Hlo.
  revert Hlo1. generalize (after_call ListAvds s0). generalize (avds W (calls s0)).
  clear s0 Hlo. intros avds.
  change (Hoare (below lo)
            match find (fun avd => String.eqb (EmulatorManager.avd_name avd) avd_name) avds with
            | Some avd_info =>
                do self <- get;
                let cmd := emulator_cmd W self avd_name port snapshot in
                try_except
                  (do devices_before <- _get_connected_devices W;
                   do process <- subprocess_Popen W cmd;
                   do serial <- _wait_for_new_device W devices_before 120;
                   match serial with
                   | Some serial =>
                       if truthy_str serial then
                         do t <- now W;
                         do emulator <- new_EmulatorInfo
                           {| name := avd_name; serial := serial;
                              api_level := avd_api_level avd_info; status := starting;
                              start_time := Some t; process_id := Some process |};
                         modify (fun s => set_emulators (<[serial := emulator]> (emulators s)) s) >>
                         do booted <- _wait_for_boot W serial 120;
                         if booted then
                           set_status emulator running >> ret (Some emulator)
                         else stop_emulator W serial >> ret None
                       else emit (Terminate process) >> ret None
                   | None => emit (Terminate process) >> ret None
                   end)
                  (fun e => ret None)
            | None => ret None
            end (started avd_name lo) (fun _ => False)).
  destruct (find _ avds) as [avd_info|]; [|apply Hoare_ret; intros; exact I].
  apply Hoare_bind with (R := fun _ => below lo); [intros s H; exact H|].
  intros self.
  apply Hoare_try with (E' := fun _ => True); [|intros e; apply Hoare_ret; intros; exact I].
  apply Hoare_bind with (R := fun _ => below lo);
    [apply Hoare_quiet_any; [apply Quiet_get_connected_devices | apply Stable_below | auto]|].
  intros devices_before.
  apply Hoare_bind with (R := fun _ => below lo);
    [apply Hoare_quiet_any; [apply Quiet_subprocess_Popen | apply Stable_below | auto]|].
  intros process.
  apply Hoare_bind with (R := fun _ => below lo);
    [apply Hoare_quiet_any; [apply Quiet_new_device_loop | apply Stable_below | auto]|].
  assert (Hnone : forall (P : Manager -> Prop) (c : M Manager unit),
             Hoare P (c >> ret (None : option nat)) (started avd_name lo) (fun _ => True)).
  { intros P c s _. unfold bind. destruct (c s) as [[a|e] s1]; exact I. }
  assert (Hnone' : forall (P : Manager -> Prop) (c : M Manager bool),
             Hoare P (c >> ret (None : option nat)) (started avd_name lo) (fun _ => True)).
  { intros P c s _. unfold bind. destruct (c s) as [[a|e] s1]; exact I. }
  intros [serial|]; [|apply Hnone].
  destruct (truthy_str serial); [|apply Hnone].
  apply Hoare_bind with (R := fun _ => below lo);
    [apply Hoare_quiet_any; [apply Quiet_now | apply Stable_below | auto]|].
  intros t.
  apply Hoare_bind with
    (R := fun obj s => (lo <= obj)%nat
                       /\ exists info, objects s !! obj = Some info
                                       /\ name info = avd_name /\ EmulatorManager.serial info = serial
                                       /\ status info = starting).
  { intros s Hs. cbn. split; [exact Hs|]. eexists. split; [apply lookup_insert_eq|].
    cbn. auto. }
  intros emulator.
  apply Hoare_bind with (R := fun _ => recorded serial emulator avd_name lo starting).
  { apply Hoare_modify. intros s [Hle Hinfo]. unfold recorded. cbn.
    split; [apply lookup_insert_eq | auto]. }
  intros _.
  apply Hoare_bind with (R := fun _ => recorded serial emulator avd_name lo starting);
    [apply Hoare_quiet_any; [apply Quiet_boot_loop | apply Stable_recorded | auto]|].
  intros [|]; [|apply Hnone'].
  apply Hoare_bind with (R := fun _ => recorded serial emulator avd_name lo running).
  - intros s (Hsr & Hle & info & Hobj & Hn & Hs & Hst). unfold set_status. rewrite Hobj.
    unfold recorded. cbn. split; [exact Hsr|]. split; [exact Hle|].
    exists (with_status running info). split; [apply lookup_insert_eq|]. cbn. auto.
  - intros _. apply Hoare_ret. intros s H. exists serial. exact H.
Qed.

(** X12: [start_emulator] never raises.  For a name the listing does not
    have it answers nothing after the listing alone, with no process
    started; and a record it answers is in the table, under the serial it
    carries, for the definition asked for, in status running, and is a new
    object. *)
Theorem start_emulator_outcome (W : World) (avd_name : string) (port : option Z)
    (snapshot : option string) (s : Manager) :
  (exists res s', start_emulator W avd_name port snapshot s = (Ok res, s'))
  /\ (find (fun avd => String.eqb (EmulatorManager.avd_name avd) avd_name)
        (avds W (calls s)) = None ->
      start_emulator W avd_name port snapshot s = (Ok None, after_call ListAvds s))
  /\ (forall obj s',
        start_emulator W avd_name port snapshot s = (Ok (Some obj), s') ->
        exists sr info,
          get_emulator_info sr s' = (Ok (Some obj), s')
          /\ objects s' !! obj = Some info
          /\ name info = avd_name /\ EmulatorManager.serial info = sr
          /\ status info = running
          /\ (allocated s <= obj)%nat).
Proof.
  pose proof (start_emulator_triple W avd_name port snapshot (allocated s) s (le_n _)) as H.
  split; [|split].
  - destruct (start_emulator W avd_name port snapshot s) as [[res|e] s']; [eauto | destruct H].
  - intros Hfind. unfold start_emulator. rewrite bind_eq.
    change (list_avds W s) with (Ok (avds W (calls s)), after_call ListAvds s).
    cbv beta iota. rewrite Hfind. reflexivity.
  - intros obj s' Hrun. rewrite Hrun in H.
    destruct H as (sr & Hsr & Hle & info & Hobj & Hn & Hs & Hst).
    exists sr, info. unfold get_emulator_info, gets. rewrite Hsr.
    repeat (split; [first [reflexivity | assumption]|]). exact Hle.
Qed.

(** A concrete start: the device boots and its record is answered. *)
Lemma start_emulator_outcome_witness :
  exists s' info,
    start_emulator boots_at_once "dev_34" None None (init ∅) = (Ok (Some 0%nat), s')
    /\ get_emulator_info "emulator-5554" s' = (Ok (Some 0%nat), s')
    /\ objects s' !! 0%nat = Some info
    /\ status info = running.
Proof.
  destruct (start_emulator_outcome boots_at_once "dev_34" None None (init ∅))
    as (_ & _ & H).
  destruct (start_emulator boots_at_once "dev_34" None None (init ∅)) as [res s'] eqn:Hrun.
  assert (Hres : res = Ok (Some 0%nat))
    by (pose proof Hrun as Hc; vm_compute in Hc; injection Hc as <- _; reflexivity).
  subst res. destruct (H 0%nat s' eq_refl) as (sr & info & Hget & Hobj & _ & Hsr & Hst & _).
  assert (Hser : sr = "emulator-5554").
  { pose proof Hrun as Hc. vm_compute in Hc. injection Hc as <-.
    vm_compute in Hobj. injection Hobj as <-. symmetry. exact Hsr. }
  rewrite Hser in Hget. exists s', info.
  split; [reflexivity|]. split; [exact Hget|]. split; [exact Hobj | exact Hst].
Defined.

(** *** Listing the connected devices *)

Lemma collect_devices_state (lines : list string) :
  forall devices s, (collect_devices lines devices s).2 = s.
Proof.
  induction lines as [|line rest IH]; intros devices s; cbn [collect_devices];
    [reflexivity|].
  destruct (truthy_str line && PyStr.contains (String tab EmptyString) line);
    [|apply IH].
  destruct (PyStr.split tab line) as [|a [|b [|c l]]]; try reflexivity.
  destruct (String.eqb b "device"); apply IH.
Qed.

Lemma collect_devices_sound (lines : list string) :
  forall devices s ds s',
    collect_devices lines devices s = (Ok ds, s') ->
    forall d, d ∈ ds ->
      d ∈ devices
      \/ exists line, line ∈ lines /\ PyStr.split tab line = [d; "device"].
Proof.
  induction lines as [|line rest IH]; intros devices s ds s' Hrun d Hd;
    cbn [collect_devices] in Hrun.
  - injection Hrun as <- _. now left.
  - assert (Hrest : forall devs,
               collect_devices rest devs s = (Ok ds, s') ->
               (forall x, x ∈ devs -> x ∈ devices
                  \/ exists line0, line0 ∈ line :: rest
                                   /\ PyStr.split tab line0 = [x; "device"]) ->
               d ∈ devices
               \/ exists line0, line0 ∈ line :: rest
                                /\ PyStr.split tab line0 = [d; "device"]).
    { intros devs Hr Hdevs. destruct (IH devs s ds s' Hr d Hd) as [Hin|(l0 & Hl0 & Hs)].
      - apply Hdevs. exact Hin.
      - right. exists l0. split; [now apply list_elem_of_further | exact Hs]. }
    destruct (truthy_str line && PyStr.contains (String tab EmptyString) line);
      [|apply (Hrest devices Hrun); now left].
    destruct (PyStr.split tab line) as [|a [|b [|c l]]] eqn:Hsplit; try discriminate.
    destruct (String.eqb b "device") eqn:Hb; [|apply (Hrest devices Hrun); now left].
    apply String.eqb_eq in Hb. subst b.
    apply (Hrest _ Hrun). intros x Hx. apply elem_of_app in Hx as [Hx|Hx]; [now left|].
    apply list_elem_of_singleton in Hx. subst x. right. exists line.
    split; [apply list_elem_of_here | exact Hsplit].
Qed.

Lemma collect_devices_malformed (lines : list string) :
  forall devices s,
    (exists line, line ∈ lines
                  /\ PyStr.contains (String tab EmptyString) line = true
                  /\ length (PyStr.split tab line) <> 2%nat) ->
    collect_devices lines devices s = (Raise ValueError, s).
Proof.
  induction lines as [|line rest IH]; intros devices s (bad & Hin & Htab & Hlen).
  - inversion Hin.
  - cbn [collect_devices].
    assert (Hlater : bad ∈ rest ->
              forall devs, collect_devices rest devs s = (Raise ValueError, s)).
    { intros Hr devs. apply IH. exists bad. auto. }
    apply elem_of_cons in Hin as [<-|Hin].
    + rewrite Htab. assert (Ht : truthy_str bad = true).
      { destruct bad; [discriminate Htab | reflexivity]. }
      rewrite Ht. cbn [andb].
      destruct (PyStr.split tab bad) as [|a [|b [|c l]]]; try reflexivity.
      cbn in Hlen. congruence.
    + destruct (truthy_str line && PyStr.contains (String tab EmptyString) line);
        [|now apply Hlater].
      destruct (PyStr.split tab line) as [|a [|b [|c l]]]; try reflexivity.
      destruct (String.eqb b "device"); now apply Hlater.
Qed.

(** [_get_connected_devices] never raises and makes one call. *)
Lemma get_connected_devices_total (W : World) (s : Manager) :
  exists ds,
    _get_connected_devices W s
    = (Ok ds, after_call (Run ["adb"; "devices"] (Some 5)) s).
Proof.
  unfold _get_connected_devices. rewrite try_except_eq, bind_eq, subprocess_run_eq.
  destruct (run W (calls s) ["adb"; "devices"]) as [rc out err|e]; [|eauto].
  cbv beta iota. destruct (rc =? 0)%Z; [|eauto].
  pose proof (collect_devices_state
                (tail (PyStr.split (ascii_of_nat 10) (PyStr.strip out))) []
                (after_call (Run ["adb"; "devices"] (Some 5)) s)) as Hst.
  destruct (collect_devices _ _ _) as [[ds|e] s1]; cbn in Hst; subst s1; eauto.
Qed.

(** X13: [_get_connected_devices] never raises and makes one call of adb.
    Every serial it answers stands on a line [serial<TAB>device] of the
    listing after its header; a failed or raising call gives the empty
    list, and so does a listing one line of which has two tabs or more,
    whatever the other lines say. *)
Theorem connected_devices_listing (W : World) (s : Manager) :
  exists ds,
    _get_connected_devices W s
    = (Ok ds, after_call (Run ["adb"; "devices"] (Some 5)) s)
    /\ (forall d, d ∈ ds ->
          exists line,
            line ∈ device_lines (run W (calls s) ["adb"; "devices"])
            /\ PyStr.split tab line = [d; "device"])
    /\ (exited_zero (run W (calls s) ["adb"; "devices"]) = false -> ds = [])
    /\ ((exists line,
           line ∈ device_lines (run W (calls s) ["adb"; "devices"])
           /\ PyStr.contains (String tab EmptyString) line = true
           /\ length (PyStr.split tab line) <> 2%nat) ->
        ds = []).
Proof.
  destruct (get_connected_devices_total W s) as [ds Hrun].
  exists ds. split; [exact Hrun|].
  unfold _get_connected_devices in Hrun.
  rewrite try_except_eq, bind_eq, subprocess_run_eq in Hrun.
  unfold device_lines, exited_zero.
  destruct (run W (calls s) ["adb"; "devices"]) as [rc out err|e].
  2:{ injection Hrun as <-. split; [intros d Hd; inversion Hd|]. auto. }
  cbv beta iota in Hrun. destruct (rc =? 0)%Z.
  2:{ injection Hrun as <-. split; [intros d Hd; inversion Hd|]. auto. }
  destruct (collect_devices _ _ _) as [[ds0|e] s1] eqn:Hcol.
  - injection Hrun as <- _. split; [|split; [discriminate|]].
    + intros d Hd.
      destruct (collect_devices_sound _ _ _ _ _ Hcol d Hd) as [Hin|H]; [inversion Hin | exact H].
    + intros Hbad. rewrite collect_devices_malformed in Hcol by exact Hbad. discriminate.
  - injection Hrun as <-. split; [intros d Hd; inversion Hd|]. auto.
Qed.

(** *** Waiting for a new device *)

Lemma new_device_loop_spec (W : World) (before : list string) (timeout : Z)
    (fuel : nat) :
  forall waited s,
    (timeout - waited <= Z.of_nat fuel)%Z ->
    exists res s',
      new_device_loop W before timeout fuel waited s = (Ok res, s')
      /\ (forall d, res = Some d -> d ∉ before)
      /\ (calls s <= calls s')%nat.
Proof.
  induction fuel as [|fuel IH]; intros waited s Hfuel; cbn [new_device_loop].
  - replace (waited <? timeout)%Z with false by (symmetry; apply Z.ltb_ge; lia).
    exists None, s. split; [reflexivity|]. split; [discriminate | lia].
  - destruct (waited <? timeout)%Z;
      [|exists None, s; split; [reflexivity|]; split; [discriminate | lia]].
    destruct (get_connected_devices_total W (set_trace (trace s ++ [Sleep 2]) s))
      as [cur Hcur].
    rewrite bind_eq. unfold emit at 1, modify at 1. cbv zeta. rewrite bind_eq, Hcur.
    destruct (elements (list_to_set cur ∖ list_to_set before : gset string))
      as [|d rest] eqn:Hel.
    + destruct (IH (waited + 2)%Z
                  (after_call (Run ["adb"; "devices"] (Some 5))
                     (set_trace (trace s ++ [Sleep 2]) s)) ltac:(lia))
        as (res & s' & Hrun & Hnew & Hcalls).
      exists res, s'. split; [exact Hrun|]. split; [exact Hnew|]. cbn in Hcalls. lia.
    + eexists _, _. split; [reflexivity|]. split; [|cbn; lia].
      intros d0 [= <-] Hin.
      assert (Hd : d ∈ elements (list_to_set cur ∖ list_to_set before : gset string))
        by (rewrite Hel; apply list_elem_of_here).
      apply elem_of_elements, elem_of_difference in Hd as [_ Hd].
      apply Hd, elem_of_list_to_set. exact Hin.
Qed.

(** X14: [_wait_for_new_device] never raises; a device it answers was not
    among the devices listed before; with a timeout that is not positive
    it answers nothing without a single poll. *)
Theorem wait_for_new_device_outcome (W : World) (before : list string) (timeout : Z)
    (s : Manager) :
  (exists res s',
     _wait_for_new_device W before timeout s = (Ok res, s')
     /\ forall d, res = Some d -> d ∉ before)
  /\ ((timeout <= 0)%Z -> _wait_for_new_device W before timeout s = (Ok None, s)).
Proof.
  unfold _wait_for_new_device. split.
  - destruct (new_device_loop_spec W before timeout (Z.to_nat timeout) 0 s ltac:(lia))
      as (res & s' & Hrun & Hnew & _).
    exists res, s'. auto.
  - intros Hle. replace (Z.to_nat timeout) with 0%nat by lia. cbn [new_device_loop].
    replace (0 <? timeout)%Z with false by (symmetry; apply Z.ltb_ge; lia). reflexivity.
Qed.

(** *** Rewriting a configuration twice *)

Lemma filter_none {A : Type} (P : A -> Prop) `{forall x, Decision (P x)} (l : list A) :
  (forall x, x ∈ l -> ~ P x) -> filter P l = [].
Proof.
  induction l as [|x l IH]; intros Hl; [reflexivity|].
  rewrite filter_cons_False by (apply Hl, list_elem_of_here).
  apply IH. intros y Hy. apply Hl. now apply list_elem_of_further.
Qed.

Lemma merged_line_entry (u : list (string * string)) (kv : string * string) :
  readable u -> kv ∈ u -> merged_line u (entry kv) = entry kv.
Proof.
  intros [Hkey Hget] Hin. unfold merged_line.
  rewrite (Hkey kv Hin), (Hget kv Hin). destruct kv; reflexivity.
Qed.

Lemma merged_line_twice (u : list (string * string)) (line : string) :
  readable u -> merged_line u (merged_line u line) = merged_line u line.
Proof.
  intros Hu.
  destruct (config_key line) as [key|] eqn:Hkey.
  - destruct (dict_get u key) as [v|] eqn:Hv.
    + assert (E : merged_line u line = entry (key, v))
        by (unfold merged_line; rewrite Hkey, Hv; reflexivity).
      rewrite E. apply merged_line_entry; [exact Hu | now apply dict_get_Some_elem].
    + assert (E : merged_line u line = line)
        by (unfold merged_line; rewrite Hkey, Hv; reflexivity).
      rewrite !E. reflexivity.
  - assert (E : merged_line u line = line)
      by (unfold merged_line; rewrite Hkey; reflexivity).
    rewrite !E. reflexivity.
Qed.

Lemma apply_updates_twice (u : list (string * string)) (lines : list string) :
  readable u -> apply_updates u (apply_updates u lines) = apply_updates u lines.
Proof.
  intros Hu. rewrite (apply_updates_eq u (apply_updates u lines)).
  rewrite (apply_updates_eq u lines) at 1 2.
  set (missing := filter (fun kv => kv.1 ∉ omap config_key lines) u).
  rewrite filter_none, app_nil_r.
  - rewrite map_app, map_map. f_equal.
    + apply map_ext. intros line. now apply merged_line_twice.
    + rewrite map_map. apply map_ext_in. intros kv Hkv. apply merged_line_entry; [exact Hu|].
      apply list_elem_of_In in Hkv. subst missing.
      apply list_elem_of_filter in Hkv as [_ Hkv]. exact Hkv.
  - intros kv Hkv Hnot. apply Hnot. rewrite (apply_updates_eq u lines).
    fold missing. rewrite omap_app. apply elem_of_app.
    destruct Hu as [Hkey Hget].
    destruct (decide (kv.1 ∈ omap config_key lines)) as [Hin|Hnin].
    + left. apply list_elem_of_omap in Hin as (line & Hline & Hk).
      apply list_elem_of_omap. exists (merged_line u line).
      split; [apply list_elem_of_fmap; exists line; auto|].
      unfold merged_line. rewrite Hk, (Hget kv Hkv).
      apply (Hkey (kv.1, kv.2)). destruct kv; exact Hkv.
    + right. apply list_elem_of_omap. exists (entry kv).
      split; [|apply Hkey; exact Hkv].
      apply list_elem_of_fmap. exists kv. split; [reflexivity|].
      subst missing. apply list_elem_of_filter. auto.
Qed.

Lemma config_updates_readable (s : Manager) : readable (config_updates s).
Proof.
  unfold readable, config_updates.
  split; intros kv Hin;
    repeat (apply elem_of_cons in Hin as [->|Hin]; [vm_compute; reflexivity|]);
    inversion Hin.
Qed.

(** X15: configuring a definition twice is configuring it once.  When
    the configuration found ends with the line end (or is empty), no
    override has a line end in its value, and the file shows the text the
    first run wrote into it, the second run of [_configure_avd] reads the
    file the first run wrote and writes the same text again: the record
    of the files is the same after the second run as after the first. *)
Theorem configure_twice_is_once (W : World) (name : string) (s : Manager)
    (text : string) :
  disk W (calls s) (files s) !! config_file W name = Some text ->
  disk W (calls s)
    (<[config_file W name :=
         writelines (apply_updates (config_updates s) (readlines text))]> (files s))
    !! config_file W name
  = Some (writelines (apply_updates (config_updates s) (readlines text))) ->
  terminated text = true ->
  written_as_lines (config_updates s) ->
  exists s1 s2 new,
    _configure_avd W name s = (Ok tt, s1)
    /\ _configure_avd W name s1 = (Ok tt, s2)
    /\ new = writelines (apply_updates (config_updates s) (readlines text))
    /\ files s1 !! config_file W name = Some new
    /\ files s2 = files s1
    /\ trace s2 = (trace s ++ [FileWrite (config_file W name);
                               FileWrite (config_file W name)])%list.
Proof.
  intros Hfound Hshown Ht Hu.
  rewrite configure_avd_eq, Hfound. eexists. eexists. eexists.
  split; [reflexivity|].
  rewrite configure_avd_eq. cbn [files trace calls set_files set_trace].
  rewrite Hshown.
  change (config_updates (set_trace _ (set_files _ s))) with (config_updates s).
  rewrite readlines_written by assumption.
  rewrite apply_updates_twice by apply config_updates_readable.
  split; [reflexivity|]. split; [reflexivity|].
  cbn [files trace set_files set_trace].
  split; [apply lookup_insert_eq|].
  split; [apply insert_insert_eq|].
  rewrite <- app_assoc. reflexivity.
Qed.

(** A concrete configuration of two lines, configured twice. *)
Lemma configure_twice_is_once_witness :
  exists s1 s2,
    _configure_avd boots_at_once "dev_34"
      (with_config (" hw.ramSize = 512" +:+ nl +:+ "avd.name=x" +:+ nl)) = (Ok tt, s1)
    /\ _configure_avd boots_at_once "dev_34" s1 = (Ok tt, s2)
    /\ files s2 = files s1.
Proof.
  destruct (configure_twice_is_once boots_at_once "dev_34"
              (with_config (" hw.ramSize = 512" +:+ nl +:+ "avd.name=x" +:+ nl))
              (" hw.ramSize = 512" +:+ nl +:+ "avd.name=x" +:+ nl)
              ltac:(vm_compute; reflexivity)
              ltac:(vm_compute; reflexivity)
              ltac:(vm_compute; reflexivity)
              (written_as_lines_init _))
    as (s1 & s2 & new & H1 & H2 & _ & _ & Hsame & _).
  exists s1, s2. auto.
Defined.

(** On a configuration that does not end with the line end the second run
    does change the file: the override glued to the last line by the first
    run is not found by the second, which appends it again. *)
Lemma configure_twice_unterminated :
  files (_configure_avd boots_at_once "dev_34"
           (_configure_avd boots_at_once "dev_34" (with_config "avd.name=x")).2).2
  <> files (_configure_avd boots_at_once "dev_34" (with_config "avd.name=x")).2.
Proof.
  intros H.
  apply (f_equal (fun fs => fs !! "/home/u/.android/avd/dev_34.avd/config.ini")) in H.
  vm_compute in H. discriminate.
Qed.

(** *** The files *)

Section Respecting.

Context (R : Manager -> Manager -> Prop) `{!Bookkeeping R}.

Lemma Respects_ret {A : Type} (a : A) : Respects R (ret a).
Proof. intros s. apply bk_refl. Qed.

Lemma Respects_raise {A : Type} (e : Exc) : Respects R (raise (A := A) e).
Proof. intros s. apply bk_refl. Qed.

Lemma Respects_get : Respects R get.
Proof. intros s. apply bk_refl. Qed.

Lemma Respects_gets {A : Type} (f : Manager -> A) : Respects R (gets f).
Proof. intros s. apply bk_refl. Qed.

Lemma Respects_bind {A B : Type} (c : M Manager A) (k : A -> M Manager B) :
  Respects R c -> (forall a, Respects R (k a)) -> Respects R (bind c k).
Proof.
  intros Hc Hk s. unfold bind. specialize (Hc s).
  destruct (c s) as [[a|e] s1]; [|exact Hc].
  eapply bk_trans; [exact Hc | apply Hk].
Qed.

Lemma Respects_try {A : Type} (c : M Manager A) (h : Exc -> M Manager A) :
  Respects R c -> (forall e, Respects R (h e)) -> Respects R (try_except c h).
Proof.
  intros Hc Hh s. unfold try_except. specialize (Hc s).
  destruct (c s) as [[a|e] s1]; [exact Hc|].
  eapply bk_trans; [exact Hc | apply Hh].
Qed.

Lemma Respects_emit (e : Event) :
  match e with FileWrite _ => False | _ => True end -> Respects R (emit e).
Proof. intros He s. apply bk_event. exact He. Qed.

Lemma Respects_next_call : Respects R next_call.
Proof. intros s. apply bk_calls. Qed.

Lemma Respects_now (W : World) : Respects R (now W).
Proof. intros s. apply bk_clock. Qed.

Lemma Respects_enter (sr : string) (obj : nat) :
  Respects R (modify (fun s => set_emulators (<[sr := obj]> (emulators s)) s)).
Proof. intros s. apply bk_emulators. Qed.

Lemma Respects_leave (sr : string) :
  Respects R (modify (fun s => set_emulators (delete sr (emulators s)) s)).
Proof. intros s. apply bk_emulators. Qed.

Lemma Respects_new_EmulatorInfo (info : EmulatorInfo) : Respects R (new_EmulatorInfo info).
Proof.
  intros s. unfold new_EmulatorInfo. cbn [snd].
  eapply bk_trans; [apply bk_objects|].
  apply (bk_event (set_objects _ _ s) (Created _ _) I).
Qed.

Lemma Respects_set_status (obj : nat) (st : Status) : Respects R (set_status obj st).
Proof.
  intros s. unfold set_status.
  destruct (objects s !! obj) as [info|]; cbn [snd]; [|apply bk_refl].
  eapply bk_trans; [apply bk_objects|].
  apply (bk_event (set_objects _ _ s) (StatusSet _ _ _) I).
Qed.

Ltac respects :=
  repeat match goal with
         | |- Respects _ (bind _ _) => apply Respects_bind; [|intros ?]
         | |- Respects _ (try_except _ _) => apply Respects_try; [|intros ?]
         | |- Respects _ (ret _) => apply Respects_ret
         | |- Respects _ (raise _) => apply Respects_raise
         | |- Respects _ get => apply Respects_get
         | |- Respects _ (gets _) => apply Respects_gets
         | |- Respects _ (emit _) => apply Respects_emit; exact I
         | |- Respects _ next_call => apply Respects_next_call
         | |- Respects _ (now _) => apply Respects_now
         | |- Respects _ (new_EmulatorInfo _) => apply Respects_new_EmulatorInfo
         | |- Respects _ (set_status _ _) => apply Respects_set_status
         | |- Respects _ (modify (fun s => set_emulators (<[_ := _]> _) s)) =>
             apply Respects_enter
         | |- Respects _ (modify (fun s => set_emulators (delete _ _) s)) =>
             apply Respects_leave
         | |- Respects _ (match ?x with _ => _ end) => destruct x
         | |- Respects _ _ => solve [auto]
         end.

Lemma Respects_subprocess_run (W : World) (argv : list string) (t : option Z) :
  Respects R (subprocess_run W argv t).
Proof. unfold subprocess_run. respects. Qed.

Lemma Respects_subprocess_Popen (W : World) (argv : list string) :
  Respects R (subprocess_Popen W argv).
Proof. unfold subprocess_Popen. respects. Qed.

Lemma Respects_list_avds (W : World) : Respects R (list_avds W).
Proof. unfold list_avds. respects. Qed.

Lemma Respects_collect_devices (lines : list string) :
  forall devices, Respects R (collect_devices lines devices).
Proof.
  induction lines as [|line rest IH]; intros devices; cbn [collect_devices]; respects.
Qed.

Lemma Respects_get_connected_devices (W : World) : Respects R (_get_connected_devices W).
Proof.
  pose proof (Respects_subprocess_run W) as Hrun.
  pose proof Respects_collect_devices as Hcol.
  unfold _get_connected_devices. respects.
Qed.

Lemma Respects_new_device_loop (W : World) (before : list string) (timeout : Z)
    (fuel : nat) :
  forall waited, Respects R (new_device_loop W before timeout fuel waited).
Proof.
  pose proof (Respects_get_connected_devices W) as Hdev.
  induction fuel as [|fuel IH]; intros waited; cbn [new_device_loop]; respects.
Qed.

Lemma Respects_boot_loop (W : World) (serial : string) (timeout : Z) (fuel : nat) :
  forall waited, Respects R (boot_loop W serial timeout fuel waited).
Proof.
  pose proof (Respects_subprocess_run W) as Hrun.
  induction fuel as [|fuel IH]; intros waited; cbn [boot_loop]; respects.
Qed.

Lemma Respects_download_system_image (W : World) (api_level : Z) :
  Respects R (download_system_image W api_level).
Proof.
  pose proof (Respects_subprocess_run W) as Hrun.
  pose proof (Respects_subprocess_Popen W) as Hpopen.
  unfold download_system_image. respects.
Qed.

Lemma Respects_stop_emulator (W : World) (serial : string) :
  Respects R (stop_emulator W serial).
Proof.
  pose proof (Respects_subprocess_run W) as Hrun.
  unfold stop_emulator. respects.
Qed.

Lemma Respects_start_emulator (W : World) (avd_name : string) (port : option Z)
    (snapshot : option string) :
  Respects R (start_emulator W avd_name port snapshot).
Proof.
  pose proof (Respects_subprocess_Popen W) as Hpopen.
  pose proof (Respects_get_connected_devices W) as Hdev.
  pose proof (Respects_new_device_loop W) as Hnew.
  pose proof (Respects_boot_loop W) as Hboot.
  pose proof (Respects_stop_emulator W) as Hstop.
  pose proof (Respects_list_avds W) as Hlist.
  unfold start_emulator, _wait_for_new_device, _wait_for_boot. respects.
Qed.

Lemma Respects_stop_each (W : World) (serials : list string) :
  Respects R (stop_each W serials).
Proof.
  pose proof (Respects_stop_emulator W) as Hstop.
  induction serials as [|serial rest IH]; cbn [stop_each]; respects.
Qed.

End Respecting.

#[local] Instance only_files_bookkeeping (ps : list string) : Bookkeeping (only_files ps).
Proof.
  split; unfold only_files.
  - intros s. split; [auto|]. exists []. rewrite app_nil_r. split; [auto|].
    intros p Hp. inversion Hp.
  - intros s1 s2 s3 [H1 (t1 & T1 & W1)] [H2 (t2 & T2 & W2)]. split.
    + intros q Hq. rewrite H2, H1; auto.
    + exists (t1 ++ t2)%list. rewrite T2, T1, app_assoc. split; [reflexivity|].
      intros p Hp. apply elem_of_app in Hp as [Hp|Hp]; auto.
  - intros s e He. cbn. split; [auto|]. exists [e]. split; [reflexivity|].
    intros p Hp. apply list_elem_of_singleton in Hp. subst e. destruct He.
  - intros s n. cbn. split; [auto|]. exists []. rewrite app_nil_r. split; [auto|].
    intros p Hp. inversion Hp.
  - intros s n. cbn. split; [auto|]. exists []. rewrite app_nil_r. split; [auto|].
    intros p Hp. inversion Hp.
  - intros s m. cbn. split; [auto|]. exists []. rewrite app_nil_r. split; [auto|].
    intros p Hp. inversion Hp.
  - intros s o n. cbn. split; [auto|]. exists []. rewrite app_nil_r. split; [auto|].
    intros p Hp. inversion Hp.
Qed.

Lemma only_files_mono (ps qs : list string) (s s' : Manager) :
  ps ⊆ qs -> only_files ps s s' -> only_files qs s s'.
Proof.
  intros Hsub [Hsame (t & Ht & Hw)]. split.
  - intros q Hq. apply Hsame. intros Hin. apply Hq, Hsub, Hin.
  - exists t. split; [exact Ht|]. intros p Hp. apply Hsub, Hw, Hp.
Qed.

Lemma Respects_mono (ps qs : list string) {A : Type} (c : M Manager A) :
  ps ⊆ qs -> Respects (only_files ps) c -> Respects (only_files qs) c.
Proof. intros Hsub Hc s. eapply only_files_mono; [exact Hsub | apply Hc]. Qed.

(** [_configure_avd] rewrites the configuration of its definition, when
    there is one, and nothing else. *)
Lemma configure_avd_files (W : World) (name : string) :
  Respects (only_files [config_file W name]) (_configure_avd W name).
Proof.
  intros s. rewrite configure_avd_eq.
  destruct (disk W (calls s) (files s) !! config_file W name) as [text|];
    [|apply bk_refl].
  cbn [snd]. split; cbn [files trace set_files set_trace].
  - intros q Hq. apply lookup_insert_ne. intros <-. apply Hq, list_elem_of_here.
  - exists [FileWrite (config_file W name)]. split; [reflexivity|].
    intros p Hp. apply list_elem_of_singleton in Hp. injection Hp as ->.
    apply list_elem_of_here.
Qed.

Lemma create_avd_files (W : World) (name : string) (api_level : Z) (device : string) :
  Respects (only_files [config_file W name]) (create_avd W name api_level device).
Proof.
  unfold create_avd.
  destruct (negb _); [apply Respects_ret; apply _|].
  apply Respects_bind; [apply _ | apply Respects_download_system_image; apply _|].
  intros ok. destruct (negb ok); [apply Respects_ret; apply _|].
  apply Respects_try; [apply _ | | intros e; apply Respects_ret; apply _].
  apply Respects_bind; [apply _ | apply Respects_subprocess_run; apply _|].
  intros [[rc out] err]. destruct (rc =? 0)%Z; [|apply Respects_ret; apply _].
  apply Respects_bind; [apply _ | apply configure_avd_files|].
  intros _. apply Respects_ret. apply _.
Qed.

Lemma do_call_files (W : World) (c : Call) :
  Respects (only_files (map (config_file W) (created_names [c]))) (do_call W c).
Proof.
  destruct c; cbn [do_call created_names omap list_omap map].
  - apply Respects_bind; [apply _ | apply Respects_download_system_image; apply _|].
    intros _. apply Respects_ret. apply _.
  - apply Respects_bind; [apply _ | apply create_avd_files|].
    intros _. apply Respects_ret. apply _.
  - apply Respects_bind; [apply _ | apply Respects_start_emulator; apply _|].
    intros _. apply Respects_ret. apply _.
  - apply Respects_bind; [apply _ | apply Respects_stop_emulator; apply _|].
    intros _. apply Respects_ret. apply _.
  - unfold stop_all_emulators.
    apply Respects_bind; [apply _ | apply Respects_gets; apply _|].
    intros table. apply Respects_stop_each. apply _.
Qed.

(** X16: over any session of calls, from any state, every file the
    manager writes, and every file of which its record changes, is the
    configuration of a definition the session was asked to create. *)
Theorem session_writes_only_configurations (W : World) (cs : list Call) (s : Manager) :
  (forall q,
     q ∉ map (config_file W) (created_names cs) ->
     files (session W cs s).2 !! q = files s !! q)
  /\ exists t,
       trace (session W cs s).2 = (trace s ++ t)%list
       /\ forall p, FileWrite p ∈ t -> p ∈ map (config_file W) (created_names cs).
Proof.
  assert (H : Respects (only_files (map (config_file W) (created_names cs))) (session W cs)).
  { induction cs as [|c rest IH]; cbn [session].
    - apply Respects_ret. apply _.
    - apply Respects_bind; [apply _ | |].
      + eapply Respects_mono; [|apply do_call_files].
        intros q Hq. unfold created_names in *. cbn [omap list_omap] in *.
        destruct c; cbn in Hq |- *; try (inversion Hq; fail).
        apply elem_of_cons in Hq as [->|Hq]; [apply list_elem_of_here | inversion Hq].
      + intros _. eapply Respects_mono; [|exact IH].
        intros q Hq. unfold created_names. cbn [omap list_omap].
        destruct c; cbn; try exact Hq. now apply list_elem_of_further. }
  exact (H s).
Qed.

(** A concrete session, in a world where the creation leaves a
    configuration on the disk: the manager rewrites it, with the memory
    size overridden and the missing keys appended, and another file keeps
    its text. *)
Lemma session_writes_only_configurations_witness :
  files (session makes_config [call_create_avd "dev_34" 34 "pixel_5"]
           (init {[ "/etc/hosts" := "localhost" ]})).2 !! "/etc/hosts"
  = Some "localhost"
  /\ FileWrite "/home/u/.android/avd/dev_34.avd/config.ini"
     ∈ trace (session makes_config [call_create_avd "dev_34" 34 "pixel_5"]
                (init {[ "/etc/hosts" := "localhost" ]})).2
  /\ readlines
       <$> files (session makes_config [call_create_avd "dev_34" 34 "pixel_5"]
                    (init {[ "/etc/hosts" := "localhost" ]})).2
           !! "/home/u/.android/avd/dev_34.avd/config.ini"
     = Some ["avd.name=dev_34" +:+ nl; "hw.ramSize=2048" +:+ nl;
             "hw.gpu.enabled=yes" +:+ nl; "hw.gpu.mode=auto" +:+ nl;
             "hw.keyboard=yes" +:+ nl; "hw.accelerometer=yes" +:+ nl;
             "hw.battery=yes" +:+ nl; "hw.camera.back=virtualscene" +:+ nl;
             "hw.camera.front=emulated" +:+ nl; "showDeviceFrame=no" +:+ nl].
Proof.
  destruct (session_writes_only_configurations makes_config
              [call_create_avd "dev_34" 34 "pixel_5"]
              (init {[ "/etc/hosts" := "localhost" ]})) as [H _].
  split.
  - rewrite H; [vm_compute; reflexivity|].
    vm_compute. intros Hin.
    apply elem_of_cons in Hin as [Hin|Hin]; [discriminate | inversion Hin].
  - split.
    + vm_compute. do 4 apply list_elem_of_further. apply list_elem_of_here.
    + vm_compute. reflexivity.
Defined.

(** X17: over any session from a new manager no two serials of the table
    share a record, and a record of the table is an object made earlier. *)
Theorem session_records_not_shared (W : World) (files : gmap string string)
    (cs : list Call) :
  (forall sr1 sr2 obj,
     emulators (session W cs (init files)).2 !! sr1 = Some obj ->
     emulators (session W cs (init files)).2 !! sr2 = Some obj ->
     sr1 = sr2)
  /\ (forall sr obj,
        emulators (session W cs (init files)).2 !! sr = Some obj ->
        (obj < allocated (session W cs (init files)).2)%nat).
Proof.
  pose proof (session_keeps W cs (init files) (inv_init files)) as H.
  destruct (session W cs (init files)) as [[u|e] s']; cbn [snd];
    destruct H as [[Htab Hinj] _]; (split; [exact Hinj|]);
    intros sr obj Hsr; apply (Htab sr obj Hsr).
Qed.

End ManagerOpsProps.
